(** * regdump: a shallow embedding of the hive walker of [regdump.c]

    The C program loads a registry hive image into memory and walks its
    key tree, printing one line per value (and per empty key).  This file
    embeds the functions [make_name], [print_time] and [walk] together with
    the part of [main] that prepares the walk, and proves properties of
    them.

    Conventions of the embedding.
    - The target is the one the source assumes: little-endian, 8-bit
      [char] (signed), 16-bit [short], 32-bit [int], 64-bit [int64_t],
      structures laid out with natural alignment.
    - The hive image is a [memory]: a total map from byte addresses
      (relative to the start of the image, so that [root] is [0x1000]) to
      bytes.  The program never checks an offset against the size of the
      image, so the model does not either: every address holds some byte.
    - The path buffer ([char path[0x4000]] of [main], aliased by the global
      [full]) is a [buffer] indexed from 0; a [char*] into it is an index.
      The model does not bound it: a path longer than the array is outside
      the model.
    - [stdout] is the string of everything printed so far. *)

From Stdlib Require Import ZArith List String Ascii Bool Lia.
Import ListNotations.

Local Open Scope string_scope.
Local Open Scope Z_scope.

(** ** Machine integers *)

Definition wrap (bits z : Z) : Z := z mod 2 ^ bits.

Definition swrap (bits z : Z) : Z :=
  (z + 2 ^ (bits - 1)) mod 2 ^ bits - 2 ^ (bits - 1).

Definition to_uint (z : Z) : Z := wrap 32 z.
Definition to_int (z : Z) : Z := swrap 32 z.
Definition to_short (z : Z) : Z := swrap 16 z.
Definition to_char (z : Z) : Z := swrap 8 z.
Definition to_int64 (z : Z) : Z := swrap 64 z.
Definition to_uint64 (z : Z) : Z := wrap 64 z.

(** ** Memory and little-endian loads *)

Definition memory := Z -> Z.

Definition u8 (m : memory) (a : Z) : Z := m a mod 256.
Definition u16 (m : memory) (a : Z) : Z := u8 m a + 256 * u8 m (a + 1).
Definition u32 (m : memory) (a : Z) : Z := u16 m a + 65536 * u16 m (a + 2).
Definition u64 (m : memory) (a : Z) : Z := u32 m a + 4294967296 * u32 m (a + 4).

Definition i8 (m : memory) (a : Z) : Z := to_char (u8 m a).
Definition i16 (m : memory) (a : Z) : Z := to_short (u16 m a).
Definition i32 (m : memory) (a : Z) : Z := to_int (u32 m a).
Definition i64 (m : memory) (a : Z) : Z := to_int64 (u64 m a).

Fixpoint read_bytes (m : memory) (a : Z) (n : nat) : list Z :=
  match n with
  | O => []
  | S n' => u8 m a :: read_bytes m (a + 1) n'
  end.

(** [root = data + 0x1000] in [main]; addresses are relative to [data]. *)
Definition root : Z := 0x1000.

(** ** Structure layouts *)

(** [base_block] *)
Definition major_version (m : memory) : Z := i32 m 20.
Definition minor_version (m : memory) : Z := i32 m 24.
Definition root_cell_offset (m : memory) : Z := i32 m 36.

(** [offsets]: [block_size] then the array. *)
Definition offsets_at (m : memory) (p i : Z) : Z := i32 m (p + 4 + 4 * i).

(** [list_block] *)
Definition block_type (m : memory) (p i : Z) : Z := i8 m (p + 4 + i).
Definition list_count (m : memory) (p : Z) : Z := i16 m (p + 6).
Definition list_offsets (m : memory) (p i : Z) : Z := i32 m (p + 8 + 4 * i).

(** [key_block] *)
Definition key_flags (m : memory) (k : Z) : Z := i16 m (k + 6).
Definition key_timestamp (m : memory) (k : Z) : Z := i64 m (k + 8).
Definition key_subkeys (m : memory) (k : Z) : Z := i32 m (k + 32).
Definition key_value_count (m : memory) (k : Z) : Z := i32 m (k + 40).
Definition key_values (m : memory) (k : Z) : Z := i32 m (k + 44).
Definition key_len (m : memory) (k : Z) : Z := i16 m (k + 76).
Definition key_name (k : Z) : Z := k + 80.

(** [value_block] *)
Definition val_name_len (m : memory) (v : Z) : Z := i16 m (v + 6).
Definition val_size (m : memory) (v : Z) : Z := i32 m (v + 8).
Definition val_offset_field (v : Z) : Z := v + 12.
Definition val_offset (m : memory) (v : Z) : Z := i32 m (v + 12).
Definition val_value_type (m : memory) (v : Z) : Z := i32 m (v + 16).
Definition val_flags (m : memory) (v : Z) : Z := i16 m (v + 20).
Definition val_name (v : Z) : Z := v + 24.

Definition KEY_COMP_NAME : Z := 0x20.
Definition VALUE_COMP_NAME : Z := 0x01.

Definition REG_NONE : Z := 0.
Definition REG_SZ : Z := 1.
Definition REG_EXPAND_SZ : Z := 2.
Definition REG_BINARY : Z := 3.
Definition REG_DWORD : Z := 4.
Definition REG_LINK : Z := 6.
Definition REG_MULTI_SZ : Z := 7.
Definition REG_QWORD : Z := 11.

Definition DEVPROP_TYPE_INT16 : Z := 4.
Definition DEVPROP_TYPE_UINT16 : Z := 5.
Definition DEVPROP_TYPE_INT32 : Z := 6.
Definition DEVPROP_TYPE_UINT32 : Z := 7.
Definition DEVPROP_TYPE_INT64 : Z := 8.
Definition DEVPROP_TYPE_UINT64 : Z := 9.
Definition DEVPROP_TYPE_FILETIME : Z := 0x10.
Definition DEVPROP_TYPE_BOOLEAN : Z := 0x11.
Definition DEVPROP_TYPE_STRING : Z := 0x12.
Definition DEVPROP_TYPE_STRING_LIST : Z := Z.lor 0x2000 DEVPROP_TYPE_STRING.
Definition DEVPROP_TYPE_STRING_INDIRECT : Z := 0x19.

(** ** Characters and [printf] conversions *)

Definition chr (c : Z) : ascii := ascii_of_N (Z.to_N (c mod 256)).
Definition code (c : ascii) : Z := Z.of_N (N_of_ascii c).

Definition digit_char (d : Z) : ascii :=
  if d <? 10 then chr (48 + d) else chr (55 + d).

(** The digits of [n >= 0] in [base], most significant first; the fuel
    bounds the number of digits (64 is enough for any 64-bit argument). *)
Fixpoint digits (fuel : nat) (base n : Z) (acc : string) : string :=
  match fuel with
  | O => acc
  | S f =>
      let acc' := String (digit_char (n mod base)) acc in
      if n <? base then acc' else digits f base (n / base) acc'
  end.

Fixpoint zeros (n : nat) : string :=
  match n with
  | O => ""
  | S n' => String "0" (zeros n')
  end.

(** ["%<n>c"] of a space. *)
Fixpoint spaces (n : nat) : string :=
  match n with
  | O => ""
  | S n' => String " " (spaces n')
  end.

Definition pad0 (width : Z) (s : string) : string :=
  zeros (Z.to_nat (width - Z.of_nat (String.length s))) ++ s.

(** ["%0<width>X"] of an unsigned argument ([width = 0] for plain ["%X"]). *)
Definition fmt_X (width n : Z) : string := pad0 width (digits 64 16 n "").

(** ["%u"] of an unsigned argument. *)
Definition fmt_u (n : Z) : string := digits 64 10 n "".

(** ["%0<width>d"] of a signed argument ([width = 0] for plain ["%d"]). *)
Definition fmt_d (width n : Z) : string :=
  if n <? 0 then "-" ++ pad0 (width - 1) (digits 64 10 (- n) "")
  else pad0 width (digits 64 10 n "").

(** ** The path buffer

    [main] gives [walk] the array [char path[0x4000]].  The buffer of the
    model has every position: a statement about what the program prints
    for a path, or about its returning, holds of the program while the
    positions written are below [0x4000], and says so. *)

Definition buffer := Z -> Z.

Definition store (b : buffer) (i c : Z) : buffer :=
  fun j => if j =? i then c else b j.

(** [sprintf( out, ... )]: the characters, then the terminating NUL. *)
Fixpoint store_str (b : buffer) (i : Z) (s : string) : buffer :=
  match s with
  | EmptyString => store b i 0
  | String c s' => store_str (store b i (code c)) (i + 1) s'
  end.

Definition sprintf (b : buffer) (out : Z) (s : string) : buffer * Z :=
  (store_str b out s, Z.of_nat (String.length s)).

(** What ["%s"] prints for a [char*] into the buffer: up to the first NUL.
    The fuel is the size of the array. *)
Fixpoint cstring (fuel : nat) (b : buffer) (i : Z) : string :=
  match fuel with
  | O => ""
  | S f => if b i mod 256 =? 0 then "" else String (chr (b i)) (cstring f b (i + 1))
  end.

Definition path_size : nat := Z.to_nat 0x4000.

(** [printf( "%s", full )] *)
Definition full_string (b : buffer) : string := cstring path_size b 0.

(** ** [make_name] *)

Definition printable (c : Z) : bool := (32 <=? c) && (c <? 127).

(** The loop of the [comp] branch; [n] iterations remain. *)
Fixpoint make_name_comp (n : nat) (m : memory) (uc : Z) (b : buffer) (out : Z)
  : buffer * Z :=
  match n with
  | O => (b, out)
  | S n' =>
      let c := u8 m uc in
      if printable c then
        make_name_comp n' m (uc + 1) (store b out c) (out + 1)
      else
        let '(b', k) := sprintf b out ("<" ++ fmt_X 2 c ++ ">") in
        make_name_comp n' m (uc + 1) b' (out + k)
  end.

(** The loop of the other branch, over [unsigned short]s. *)
Fixpoint make_name_wide (n : nat) (m : memory) (us : Z) (b : buffer) (out : Z)
  : buffer * Z :=
  match n with
  | O => (b, out)
  | S n' =>
      let c := u16 m us in
      if printable c then
        make_name_wide n' m (us + 2) (store b out (wrap 8 c)) (out + 1)
      else
        let '(b', k) :=
          sprintf b out ("<" ++ fmt_X (if c <? 0x100 then 2 else 4) c ++ ">") in
        make_name_wide n' m (us + 2) b' (out + k)
  end.

(** [make_name( out, in, len, comp )]: the buffer after the call and the
    returned pointer (the position of the terminating NUL). *)
Definition make_name (b : buffer) (out : Z) (m : memory) (inp len comp : Z)
  : buffer * Z :=
  let '(b', out') :=
    if comp =? 0 then make_name_wide (Z.to_nat (Z.quot len 2)) m inp b out
    else make_name_comp (Z.to_nat len) m inp b out in
  (store b' out' 0, out').

(** The character [putchar( '\n' )] writes. *)
Definition nl : string := String (ascii_of_N 10) "".

(** ** [print_time] *)

(** The fields of [struct tm] that [print_time] reads. *)
Record tm := mk_tm
  { tm_sec : Z; tm_min : Z; tm_hour : Z; tm_mday : Z; tm_mon : Z; tm_year : Z }.

(** The text [print_time( t, full, brackets )] writes (the branch compiled
    when [_WIN32] is not defined).  [localtime] is the C library's, which
    depends on the time zone of the process: it is a parameter. *)
Definition print_time (localtime : Z -> tm) (t : Z) (full brackets : bool)
  : string :=
  let secs := to_int64 (Z.quot t 10000000) - 11644473600 in
  let lt := localtime secs in
  (if brackets then "[" else "") ++
  fmt_d 0 (tm_year lt + 1900) ++ "-" ++ fmt_d 2 (tm_mon lt + 1) ++ "-" ++
  fmt_d 2 (tm_mday lt) ++ " " ++ fmt_d 2 (tm_hour lt) ++ ":" ++
  fmt_d 2 (tm_min lt) ++ ":" ++ fmt_d 2 (tm_sec lt) ++
  (if full then "." ++ fmt_d 7 (to_int (Z.rem t 10000000)) else "") ++
  (if brackets then "] " else "").

(** ** Globals and the state of the walk *)

(** The file-scope [BOOL]s: the six options and [big_data]. *)
Record globals := mk_globals
  { hex_type : bool; only_values : bool; only_keys : bool; all_string : bool;
    time_sec : bool; time_full : bool; big_data : bool }.

(** What the walk changes: the two [static BOOL]s of [walk], the path
    buffer [full] points to, and standard output. *)
Record state := mk_state
  { properties : bool; driverpackages : bool; full : buffer; stdout : string }.

Definition set_full (st : state) (b : buffer) : state :=
  mk_state (properties st) (driverpackages st) b (stdout st).

Definition print (st : state) (s : string) : state :=
  mk_state (properties st) (driverpackages st) (full st) (stdout st ++ s).

(** A run of C code ends normally, or in a fault of the memory it owns,
    or was cut off by the fuel of the model. *)
Inductive outcome (A : Type) : Type :=
| Done (a : A)
| Fault
| OutOfFuel.

Arguments Done {A} a.
Arguments Fault {A}.
Arguments OutOfFuel {A}.

Definition bind {A B : Type} (c : outcome A) (k : A -> outcome B) : outcome B :=
  match c with
  | Done a => k a
  | Fault => Fault
  | OutOfFuel => OutOfFuel
  end.

Notation "x <- c ;; k" := (bind c (fun x => k))
  (at level 61, c at next level, right associativity).
Notation "' p <- c ;; k" := (bind c (fun x => let 'p := x in k))
  (at level 61, p pattern, c at next level, right associativity).

(** ** Value data *)

(** [data] points into the hive image or into the block [malloc] returned;
    both are read as memories, from a base address. *)
Record data_ptr := mk_data { d_mem : memory; d_at : Z }.

Definition data_char (d : data_ptr) (i : Z) : Z := i8 (d_mem d) (d_at d + i).
Definition data_uchar (d : data_ptr) (i : Z) : Z := u8 (d_mem d) (d_at d + i).
Definition data_us (d : data_ptr) (i : Z) : Z := u16 (d_mem d) (d_at d + 2 * i).

(** A [malloc]ed block: its bytes, [None] while never written. *)
Definition block := list (option Z).

Definition malloc (size : Z) : block := repeat None (Z.to_nat size).

(** Reading the block through a pointer; a byte never written reads as 0. *)
Definition block_mem (blk : block) : memory :=
  fun i =>
    if i <? 0 then 0
    else match nth_error blk (Z.to_nat i) with
         | Some (Some v) => v
         | _ => 0
         end.

(** [memcpy( blk + pos, src, n )] from the hive: a fault unless the [n]
    bytes lie inside the block ([n < 0] is a huge [size_t]). *)
Definition memcpy (blk : block) (pos : Z) (m : memory) (src n : Z)
  : outcome block :=
  if (0 <=? n) && (0 <=? pos) && (pos + n <=? Z.of_nat (List.length blk)) then
    Done (firstn (Z.to_nat pos) blk ++
          map Some (read_bytes m src (Z.to_nat n)) ++
          skipn (Z.to_nat (pos + n)) blk)%list
  else Fault.

(** The third argument of the [memcpy] in the reassembly loop. *)
Definition copy_len (left : Z) : Z := if left >? 16344 then 16344 else left.

(** The reassembly loop, [n] iterations remaining: [pos] is [data -
    data_block]. *)
Fixpoint copy_segments (n : nat) (i : Z) (m : memory) (datalist : Z)
    (blk : block) (pos left : Z) : outcome block :=
  match n with
  | O => Done blk
  | S n' =>
      blk' <- memcpy blk pos m (offsets_at m datalist i + root + 4)
                (copy_len left) ;;
      copy_segments n' (i + 1) m datalist blk' (pos + 16344) (left - 16344)
  end.

(** The test guarding the reassembly; [data] is [val->offset + root + 4]. *)
Definition is_big_data (g : globals) (m : memory) (size data : Z) : bool :=
  (size >? 16344) && big_data g && (i8 m data =? code "d")
  && (i8 m (data + 1) =? code "b").

(** The body of that [if]: the block [data_block] ends up pointing to. *)
Definition reassemble (m : memory) (size data : Z) : outcome block :=
  let item := data - 4 in
  let datalist := list_offsets m item 0 + root in
  copy_segments (Z.to_nat (list_count m item)) 0 m datalist (malloc size) 0 size.

(** [size = val->size & 0x7fffffff] *)
Definition logical_size (m : memory) (val : Z) : Z :=
  Z.land (val_size m val) 0x7fffffff.

(** [val->size & (1 << 31)] *)
Definition is_inline (m : memory) (val : Z) : bool :=
  negb (Z.land (val_size m val) (to_int (Z.shiftl 1 31)) =? 0).

(** Where [data] points once the value [val] of logical size [size] has
    been located. *)
Definition materialize (g : globals) (m : memory) (val size : Z)
  : outcome data_ptr :=
  if is_inline m val then Done (mk_data m (val_offset_field val))
  else
    let data := val_offset m val + root + 4 in
    if is_big_data g m size data then
      blk <- reassemble m size data ;;
      Done (mk_data (block_mem blk) 0)
    else Done (mk_data m data).

(** [big_data] as [main] sets it for a loaded hive. *)
Definition main_big_data (m : memory) : bool :=
  (major_version m >? 1) || (minor_version m >? 3).

(** ** The effective type *)

Definition effective_type (props drv : bool) (type : Z) : Z :=
  if props && (Z.land (to_uint type) 0xFFFF0000 =? 0xFFFF0000) then
    let t := Z.land type 0xFFFF in
    if (t =? DEVPROP_TYPE_INT32) || (t =? DEVPROP_TYPE_UINT32) then REG_DWORD
    else if (t =? DEVPROP_TYPE_INT64) || (t =? DEVPROP_TYPE_UINT64)
            || (t =? DEVPROP_TYPE_FILETIME) then REG_QWORD
    else if (t =? DEVPROP_TYPE_STRING) || (t =? DEVPROP_TYPE_STRING_INDIRECT)
    then REG_SZ
    else if t =? DEVPROP_TYPE_STRING_LIST then REG_MULTI_SZ
    else type
  else if drv then to_int (Z.land type 0xFFFF)
  else type.

(** ** Rendering a value *)

(** The two counting loops of the text heuristic, [n] iterations remaining. *)
Fixpoint count_us (n : nat) (i : Z) (d : data_ptr) (ascii : Z) : Z :=
  match n with
  | O => ascii
  | S n' =>
      count_us n' (i + 1) d
        (if printable (data_us d i) then to_int (ascii + 1) else ascii)
  end.

Fixpoint count_char (n : nat) (i : Z) (d : data_ptr) (ascii : Z) : Z :=
  match n with
  | O => ascii
  | S n' =>
      count_char n' (i + 1) d
        (if printable (data_char d i) then to_int (ascii + 1) else ascii)
  end.

(** "See if binary data is text": the value of [bintext]. *)
Definition bintext_of (type size : Z) (d : data_ptr) : Z :=
  if ((type =? REG_BINARY) || (type =? REG_NONE)) && (size >=? 8) then
    let '(ascii, min) :=
      if (data_char d 1 =? 0) && (data_char d 3 =? 0) then
        if printable (data_us d 0) && printable (data_us d 1) then
          (to_int (count_us (Z.to_nat (Z.quot size 2 - 2)) 2 d 2 * 2), 6)
        else (0, 8)
      else if printable (data_char d 0) && printable (data_char d 1) then
        (count_char (Z.to_nat (size - 2)) 2 d 2, 7)
      else (0, 8) in
    if to_int (ascii * 8) >=? to_int (size * min) then
      if data_char d 1 =? 0 then 16 else 8
    else 0
  else 0.

(** The branches of the [if] chain that prints the data, in its order. *)
Inductive rule : Type :=
| Dword | DevBoolean | DevInt16 | FileTime | Qword | Text16 | Text8 | HexBytes.

Definition filetime_min : Z := 126227808000000000.
Definition filetime_max : Z := 157784544000000000.

(** The conditions of the chain: which branch prints the value. *)
Definition select_rule (props : bool) (type size bintext : Z) (d : data_ptr)
  : rule :=
  if (type =? REG_DWORD) && (size =? 4) then Dword
  else if props && (size =? 1)
          && (to_uint type =? Z.lor 0xFFFF0000 DEVPROP_TYPE_BOOLEAN)
  then DevBoolean
  else if props && (size =? 2)
          && ((to_uint type =? Z.lor 0xFFFF0000 DEVPROP_TYPE_UINT16)
              || (to_uint type =? Z.lor 0xFFFF0000 DEVPROP_TYPE_INT16))
  then DevInt16
  else if (size =? 8)
          && ((type =? REG_QWORD) || (type =? REG_BINARY) || (type =? REG_NONE))
          && (i64 (d_mem d) (d_at d) >=? filetime_min)
          && (i64 (d_mem d) (d_at d) <? filetime_max)
  then FileTime
  else if (type =? REG_QWORD) && (size =? 8) then Qword
  else if (type =? REG_SZ) || (type =? REG_MULTI_SZ) || (type =? REG_EXPAND_SZ)
          || (type =? REG_LINK) || (bintext =? 16)
  then Text16
  else if negb (bintext =? 0) then Text8
  else HexBytes.

(** [for (i = 0; i < size; i++) { if (i) putchar( ',' ); printf( "%02X", ... ); }] *)
Fixpoint hex_bytes (n : nat) (i : Z) (d : data_ptr) : string :=
  match n with
  | O => ""
  | S n' =>
      (if i =? 0 then "" else ",") ++ fmt_X 2 (data_uchar d i) ++
      hex_bytes n' (i + 1) d
  end.

(** The loop of the [bintext] branch. *)
Fixpoint text_bytes (n : nat) (i : Z) (d : data_ptr) : string :=
  match n with
  | O => ""
  | S n' =>
      (if printable (data_char d i) then String (chr (data_char d i)) ""
       else "<" ++ fmt_X 2 (data_uchar d i) ++ ">") ++
      text_bytes n' (i + 1) d
  end.

(** [while (size > 0 && us[size-1] == '\0') --size;] *)
Fixpoint drop_nuls (fuel : nat) (d : data_ptr) (size : Z) : Z :=
  match fuel with
  | O => size
  | S f =>
      if (size >? 0) && (data_us d (size - 1) =? 0) then drop_nuls f d (size - 1)
      else size
  end.

(** The loop over the UTF-16 units, [n] iterations remaining ([size] is in
    units, already trimmed). *)
Fixpoint text_units (n : nat) (i : Z) (all_str : bool) (type bintext size : Z)
    (d : data_ptr) : string :=
  match n with
  | O => ""
  | S n' =>
      let c := data_us d i in
      if printable c then
        String (chr c) (text_units n' (i + 1) all_str type bintext size d)
      else if (c =? 0) && (type =? REG_MULTI_SZ) && (i + 1 <? size)
              && negb (data_us d (i + 1) =? 0) then
        "<>" ++ text_units n' (i + 1) all_str type bintext size d
      else if (c =? 0) && negb all_str && (bintext =? 0) then
        " <...>"
      else
        "<" ++ fmt_X (if c <? 0x100 then 2 else 4) c ++ ">" ++
        text_units n' (i + 1) all_str type bintext size d
  end.

(** The string branch: [size] is the size in bytes. *)
Definition text16 (all_str : bool) (type bintext size : Z) (d : data_ptr)
  : string :=
  let size := Z.quot size 2 in
  let size := if bintext =? 0 then drop_nuls (Z.to_nat size) d size else size in
  text_units (Z.to_nat size) 0 all_str type bintext size d.

Section Walker.

Variable localtime : Z -> tm.
Variable g : globals.
Variable m : memory.

(** What the chain prints for the value, branch by branch. *)
Definition render (props : bool) (type size bintext : Z) (d : data_ptr)
  : string :=
  match select_rule props type size bintext d with
  | Dword =>
      "0x" ++ fmt_X 0 (u32 (d_mem d) (d_at d)) ++
      " (" ++ fmt_d 0 (i32 (d_mem d) (d_at d)) ++ ")"
  | DevBoolean =>
      if data_char d 0 =? -1 then "true"
      else if data_char d 0 =? 0 then "false"
      else fmt_X 2 (data_uchar d 0)
  | DevInt16 =>
      if Z.land type 0xFFFF =? DEVPROP_TYPE_UINT16 then
        "0x" ++ fmt_X 0 (data_us d 0) ++ " (" ++ fmt_u (data_us d 0) ++ ")"
      else
        "0x" ++ fmt_X 0 (data_us d 0) ++
        " (" ++ fmt_d 0 (to_short (data_us d 0)) ++ ")"
  | FileTime =>
      let v := i64 (d_mem d) (d_at d) in
      print_time localtime v false false ++
      (if type =? REG_QWORD then
         " (0x" ++ fmt_X 0 (to_uint64 v) ++ "; " ++ fmt_d 0 v ++ ")"
       else " (" ++ hex_bytes (Z.to_nat size) 0 d ++ ")")
  | Qword =>
      let v := i64 (d_mem d) (d_at d) in
      "0x" ++ fmt_X 0 (to_uint64 v) ++ " (" ++ fmt_d 0 v ++ ")"
  | Text16 => text16 (all_string g) type bintext size d
  | Text8 => text_bytes (Z.to_nat size) 0 d
  | HexBytes => hex_bytes (Z.to_nat size) 0 d
  end.

(** The buffer once ["/"] and the name of the value (["@"] for the unnamed
    one) are written at [path]. *)
Definition value_path (b : buffer) (path val : Z) : buffer :=
  let b := store b path (code "/") in
  if val_name_len m val =? 0 then store (store b (path + 1) (code "@")) (path + 2) 0
  else fst (make_name b (path + 1) m (val_name val) (val_name_len m val)
              (Z.land (val_flags m val) VALUE_COMP_NAME)).

(** What is printed before the data: the time, then the path with the
    type and size. *)
Definition value_header (b : buffer) (key val : Z) : string :=
  (if time_sec g || time_full g then
     print_time localtime (key_timestamp m key) (time_full g) true
   else "") ++
  (if hex_type g then
     "[" ++ fmt_X 8 (to_uint (val_value_type m val)) ++ ":" ++
     fmt_X 8 (to_uint (logical_size m val)) ++ "] " ++ full_string b ++ " = "
   else
     full_string b ++ " [" ++ fmt_d 0 (val_value_type m val) ++ ":" ++
     fmt_d 0 (logical_size m val) ++ "] = ").

(** One iteration of the loop over the values of [key]: [val] is the
    value cell, [path] the position after the key's name. *)
Definition print_value (st : state) (path key val : Z) : outcome state :=
  let b := value_path (full st) path val in
  let st := print (set_full st b) (value_header b key val) in
  let size := logical_size m val in
  data <- materialize g m val size ;;
  let type :=
    effective_type (properties st) (driverpackages st) (val_value_type m val) in
  let bintext := bintext_of type size data in
  Done (print st (render (properties st) type size bintext data ++ nl)).

(** The loop over the values, [n] iterations remaining. *)
Fixpoint print_values (n : nat) (o : Z) (st : state) (path key : Z)
  : outcome state :=
  match n with
  | O => Done st
  | S n' =>
      st' <- print_value st path key
               (offsets_at m (key_values m key + root) o + root) ;;
      print_values n' (o + 1) st' path key
  end.

(** *** The special subtrees *)

(** What [leave_key] points to. *)
Inductive flag : Type := Properties | DriverPackages.

(** [key->len == strlen( s ) && memcmp( s, key->name, key->len ) == 0] *)
Definition name_is (s : string) (key : Z) : bool :=
  (key_len m key =? Z.of_nat (String.length s))
  && forallb (fun p => fst p =? snd p)
       (combine (map code (list_ascii_of_string s))
          (read_bytes m (key_name key) (String.length s))).

(** The two [if]s that set [properties] and [driverpackages]: the state
    and [leave_key] after them. *)
Definition enter_key (st : state) (key : Z) : state * option flag :=
  let '(st, leave_key) :=
    if negb (properties st) then
      if name_is "Properties" key then
        (mk_state true (driverpackages st) (full st) (stdout st),
         Some Properties)
      else (st, None)
    else (st, None) in
  if negb (driverpackages st) then
    if name_is "DriverPackages" key then
      (mk_state (properties st) true (full st) (stdout st),
       Some DriverPackages)
    else (st, leave_key)
  else (st, leave_key).

(** [if (leave_key) *leave_key = FALSE;] *)
Definition leave (leave_key : option flag) (st : state) : state :=
  match leave_key with
  | None => st
  | Some Properties => mk_state false (driverpackages st) (full st) (stdout st)
  | Some DriverPackages => mk_state (properties st) false (full st) (stdout st)
  end.

(** *** The subkey lists *)

(** [ii]: the stride between the entries of a list, in [int]s. *)
Definition stride (item : Z) : Z :=
  if block_type m item 1 =? code "i" then 1 else 2.

(** The key cells a loop [for (i = 0; i < count; ++i) walk( path,
    item->offsets[i*ii] + root )] visits, [n] iterations remaining. *)
Fixpoint list_cells (n : nat) (i : Z) (item ii : Z) : list Z :=
  match n with
  | O => []
  | S n' => (list_offsets m item (i * ii) + root) :: list_cells n' (i + 1) item ii
  end.

Definition leaf_cells (item : Z) : list Z :=
  list_cells (Z.to_nat (list_count m item)) 0 item (stride item).

(** The outer loop of the other branch: each entry is a list. *)
Fixpoint index_cells (n : nat) (i : Z) (item : Z) : list Z :=
  match n with
  | O => []
  | S n' =>
      (leaf_cells (list_offsets m item i + root) ++ index_cells n' (i + 1) item)%list
  end.

(** The key cells [walk] is called on for the list cell [item], in the
    order of the calls.  The hive is not written during the walk, so the
    cells can be read before the calls are made. *)
Definition subkey_cells (item : Z) : list Z :=
  if block_type m item 0 =? code "l" then leaf_cells item
  else index_cells (Z.to_nat (list_count m item)) 0 item.

(** The calls themselves: [w] is [walk], the state is threaded through. *)
Fixpoint walk_cells (w : state -> Z -> Z -> outcome state) (cells : list Z)
    (st : state) (path : Z) : outcome state :=
  match cells with
  | [] => Done st
  | key :: rest => st' <- w st path key ;; walk_cells w rest st' path
  end.

(** The line of an empty key. *)
Definition key_line (key : Z) (b : buffer) : string :=
  (if time_sec g || time_full g then
     print_time localtime (key_timestamp m key) (time_full g) true
   else "") ++
  (if hex_type g then spaces 20 else "") ++
  full_string b ++ nl.

(** *** [walk] *)

(** [walk( full + path, key )].  The recursion follows the offsets of the
    hive, which may loop: [fuel] bounds the depth of the calls. *)
Fixpoint walk (fuel : nat) (st : state) (path key : Z) : outcome state :=
  match fuel with
  | O => OutOfFuel
  | S fuel' =>
      let '(b, path) :=
        make_name (store (full st) path (code "/")) (path + 1) m (key_name key)
          (key_len m key) (Z.land (key_flags m key) KEY_COMP_NAME) in
      let st := set_full st b in
      '(st, leave_key, empty_key) <-
        (if only_keys g then
           Done (print st (print_time localtime (key_timestamp m key)
                             (time_full g) true ++ full_string b ++ nl),
                 None, false)
         else
           let '(st, leave_key) := enter_key st key in
           st <- print_values (Z.to_nat (key_value_count m key)) 0 st path key ;;
           Done (st, leave_key, key_value_count m key =? 0)) ;;
      '(st, empty_key) <-
        (if key_subkeys m key =? -1 then Done (st, empty_key)
         else
           let item := key_subkeys m key + root in
           let empty_key :=
             if list_count m item =? 0 then empty_key else false in
           st <- walk_cells (walk fuel') (subkey_cells item) st path ;;
           Done (st, empty_key)) ;;
      let st :=
        if empty_key && negb (only_values g) then print st (key_line key (full st))
        else st in
      Done (leave leave_key st)
  end.

End Walker.

(** ** [main], for one loaded hive *)

(** The flags the command line sets; [big_data] is set per hive. *)
Definition with_big_data (g : globals) (bd : bool) : globals :=
  mk_globals (hex_type g) (only_values g) (only_keys g) (all_string g)
    (time_sec g) (time_full g) bd.

(** The state when [walk] is first called: the [static BOOL]s are zero;
    [path] holds whatever the checks of the signatures left in it. *)
Definition initial_state (path : buffer) : state :=
  mk_state false false path "".

(** [big_data = ...; root = data + 0x1000; walk( path, root_cell_offset +
    root )] *)
Definition dump (localtime : Z -> tm) (g : globals) (m : memory)
    (path : buffer) (fuel : nat) : outcome state :=
  walk localtime (with_big_data g (main_big_data m)) m fuel
    (initial_state path) 0 (root_cell_offset m + root).

(** ** Building hive images

    Concrete hives for the examples: the cells are laid out one after the
    other from [root], each padded to [cell_size] bytes, so that cell
    number [i] has offset [cell_size * i]. *)

Definition le16 (x : Z) : list Z := [x mod 256; (x / 256) mod 256].
Definition le32 (x : Z) : list Z :=
  (le16 (x mod 65536) ++ le16 ((x / 65536) mod 65536))%list.
Definition le64 (x : Z) : list Z :=
  (le32 (x mod 4294967296) ++ le32 ((x / 4294967296) mod 4294967296))%list.

Definition ascii_bytes (s : string) : list Z := map code (list_ascii_of_string s).

Definition cell_size : Z := 128.

Definition pad_cell (l : list Z) : list Z :=
  (l ++ repeat 0 (Z.to_nat cell_size - List.length l))%list.

(** A key cell: [flags], [timestamp], [subkeys], [value_count], [values],
    [len] and the bytes of the name. *)
Definition nk_cell (flags timestamp subkeys value_count values len : Z)
    (name : list Z) : list Z :=
  pad_cell (le32 0 ++ ascii_bytes "nk" ++ le16 flags ++ le64 timestamp ++
            repeat 0 8 ++ le32 0 ++ repeat 0 4 ++ le32 subkeys ++ repeat 0 4 ++
            le32 value_count ++ le32 values ++ repeat 0 28 ++ le16 len ++
            le16 0 ++ name)%list.

(** A value cell: [name_len], [size], [offset], [value_type], [flags] and
    the bytes of the name. *)
Definition vk_cell (name_len size offset value_type flags : Z) (name : list Z)
  : list Z :=
  pad_cell (le32 0 ++ ascii_bytes "vk" ++ le16 name_len ++ le32 size ++
            le32 offset ++ le32 value_type ++ le16 flags ++ le16 0 ++ name)%list.

(** A list cell with its tag, [count] and entries ([int]s). *)
Definition list_cell (tag : string) (count : Z) (entries : list Z) : list Z :=
  pad_cell (le32 0 ++ ascii_bytes tag ++ le16 count ++ flat_map le32 entries)%list.

(** A cell that is [block_size] and then [int]s (a value list) or bytes. *)
Definition offsets_cell (entries : list Z) : list Z :=
  pad_cell (le32 0 ++ flat_map le32 entries)%list.
Definition data_cell (bytes : list Z) : list Z :=
  pad_cell (le32 0 ++ bytes)%list.

(** The image: a base block with the two version fields and the offset of
    the root cell, then the cells. *)
Definition image (major minor root_cell : Z) (cells : list (list Z)) : memory :=
  let header :=
    (ascii_bytes "regf" ++ repeat 0 16 ++ le32 major ++ le32 minor ++
     repeat 0 8 ++ le32 root_cell)%list in
  let body := List.concat cells in
  fun a =>
    if a <? 0 then 0
    else if a <? root then nth (Z.to_nat a) header 0
    else nth (Z.to_nat (a - root)) body 0.

(** A [localtime] for the examples: UTC, by the usual conversion of a day
    count to a civil date. *)
Definition utc (secs : Z) : tm :=
  let z := secs / 86400 + 719468 in
  let era := z / 146097 in
  let doe := z - era * 146097 in
  let yoe := (doe - doe / 1460 + doe / 36524 - doe / 146096) / 365 in
  let doy := doe - (365 * yoe + yoe / 4 - yoe / 100) in
  let mp := (5 * doy + 2) / 153 in
  let d := doy - (153 * mp + 2) / 5 + 1 in
  let mo := if mp <? 10 then mp + 3 else mp - 9 in
  let y := yoe + era * 400 + (if mo <=? 2 then 1 else 0) in
  mk_tm (secs mod 60) ((secs / 60) mod 60) ((secs / 3600) mod 24) d (mo - 1)
    (y - 1900).

Definition no_flags : globals := mk_globals false false false false false false false.
Definition flag_v : globals := mk_globals false true false false false false false.
Definition flag_k : globals := mk_globals false false true false true false false.
Definition flag_s : globals := mk_globals false false false true false false false.

(** The path buffer before the walk: [main] read the signature into it. *)
Definition path0 : buffer :=
  fun i => if i <? 0 then 0 else nth (Z.to_nat i) (ascii_bytes "hbin") 0.

(** A memory holding the given bytes from address 0. *)
Definition mem_of_bytes (l : list Z) : memory :=
  fun a => if a <? 0 then 0 else nth (Z.to_nat a) l 0.

(** The units [A, 0, B, 0, 0] as ten bytes of data. *)
Definition multi_sz_AB : data_ptr :=
  mk_data (mem_of_bytes [0x41; 0; 0; 0; 0x42; 0; 0; 0; 0; 0]) 0.

(** The first instant of 2001 as eight bytes of data. *)
Definition filetime_2001 : data_ptr :=
  mk_data (mem_of_bytes (le64 126227808000000000)) 0.

(** The state in which a run ended, for the examples. *)
Definition final (o : outcome state) : state :=
  match o with
  | Done st => st
  | _ => initial_state path0
  end.

(** *** A hive with values and nested special keys

    [ROOT] has three values and the subkeys [Properties] and [A<1234>];
    [Properties] has a value and the subkeys [Properties] and [Sibling];
    every key below [ROOT] has the value [n], of the device type INT32. *)
Definition tree_hive : memory :=
  let c := cell_size in
  image 1 5 0
    [ (* 0 *) nk_cell 0x20 0 (4 * c) 3 (1 * c) 4 (ascii_bytes "ROOT");
      (* 1 *) offsets_cell [2 * c; 3 * c; 7 * c];
      (* 2 *) vk_cell 3 0x80000004 0x12345678 4 1 (ascii_bytes "dw1");
      (* 3 *) vk_cell 0 10 (8 * c) 7 1 [];
      (* 4 *) list_cell "lf" 2 [5 * c; 111; 6 * c; 222];
      (* 5 *) nk_cell 0x20 0 (10 * c) 1 (12 * c) 10 (ascii_bytes "Properties");
      (* 6 *) nk_cell 0 0 (-1) 1 (12 * c) 4 [0x41; 0; 0x34; 0x12];
      (* 7 *) vk_cell 2 8 (9 * c) 3 1 (ascii_bytes "ft");
      (* 8 *) data_cell [0x41; 0; 0; 0; 0x42; 0; 0; 0; 0; 0];
      (* 9 *) data_cell (le64 126227808000000000);
      (* 10 *) list_cell "li" 2 [11 * c; 13 * c];
      (* 11 *) nk_cell 0x20 0 (-1) 1 (12 * c) 10 (ascii_bytes "Properties");
      (* 12 *) offsets_cell [14 * c];
      (* 13 *) nk_cell 0x20 0 (-1) 1 (12 * c) 7 (ascii_bytes "Sibling");
      (* 14 *) vk_cell 1 0x80000004 42 0xFFFF0006 1 (ascii_bytes "n") ].

(** *** A hive with only keys

    [R] has an [ri] list of two lists: an [li] list of [A] and [B] (followed
    by a third entry its count leaves out, [X]) and an [lf] list of [C] and
    [D]; none of these has values or subkeys. *)
Definition keys_hive : memory :=
  let c := cell_size in
  image 1 3 0
    [ (* 0 *) nk_cell 0x20 0 (1 * c) 0 0 1 (ascii_bytes "R");
      (* 1 *) list_cell "ri" 2 [2 * c; 3 * c];
      (* 2 *) list_cell "li" 2 [4 * c; 5 * c; 8 * c];
      (* 3 *) list_cell "lf" 2 [6 * c; 111; 7 * c; 222];
      (* 4 *) nk_cell 0x20 0 (-1) 0 0 1 (ascii_bytes "A");
      (* 5 *) nk_cell 0x20 0 (-1) 0 0 1 (ascii_bytes "B");
      (* 6 *) nk_cell 0x20 0 (-1) 0 0 1 (ascii_bytes "C");
      (* 7 *) nk_cell 0x20 0 (9 * c) 0 0 1 (ascii_bytes "D");
      (* 8 *) nk_cell 0x20 0 (-1) 0 0 1 (ascii_bytes "X");
      (* 9 *) list_cell "lf" 0 [] ].

(** The state of a walk of [tree_hive] that is about to enter a subkey of
    [/ROOT/Properties]. *)
Definition in_properties : state :=
  mk_state true false (store_str path0 0 "/ROOT/Properties") "".

(** The state of a walk of [keys_hive] that is about to enter a subkey of
    [/R]. *)
Definition in_R : state := mk_state false false (store_str path0 0 "/R") "".

(** *** A hive with an inline value of stated size 8

    The key [K] has the value [x], of type BINARY, whose size field is
    [0x80000008] and whose offset field holds [0x12345678]. *)
Definition inline_hive : memory :=
  let c := cell_size in
  image 1 3 0
    [ (* 0 *) nk_cell 0x20 0 (-1) 1 (1 * c) 1 (ascii_bytes "K");
      (* 1 *) offsets_cell [2 * c];
      (* 2 *) vk_cell 1 0x80000008 0x12345678 3 1 (ascii_bytes "x") ].

(** *** A hive with a big-data value

    The key [K] has the value [big], of type BINARY and size [16344 + 6],
    stored through a [db] cell with two segments; the hive is of version
    1.5. *)
Definition big_hive : memory :=
  let c := cell_size in
  image 1 5 0
    [ (* 0 *) nk_cell 0x20 0 (-1) 1 (1 * c) 1 (ascii_bytes "K");
      (* 1 *) offsets_cell [2 * c];
      (* 2 *) vk_cell 3 16350 (3 * c) 3 1 (ascii_bytes "big");
      (* 3 *) pad_cell (le32 0 ++ ascii_bytes "db" ++ le16 2 ++ le32 (4 * c))%list;
      (* 4 *) offsets_cell [5 * c; 6 * c];
      (* 5 *) data_cell (ascii_bytes "first segment");
      (* 6 *) data_cell (ascii_bytes "Hello!") ].

(** The address of cell number [i] of these hives. *)
Definition cell (i : Z) : Z := root + cell_size * i.

(** * Notions used to state the properties *)

(** The two halves of a raw type code, read as a 32-bit pattern. *)
Definition upper16 (raw : Z) : Z := to_uint raw / 65536.
Definition lower16 (raw : Z) : Z := raw mod 65536.

(** The [n] bytes of the buffer from position [i]. *)
Fixpoint buf_read (b : buffer) (i : Z) (n : nat) : list Z :=
  match n with
  | O => []
  | S n' => b i :: buf_read b (i + 1) n'
  end.

(** [b'] is [b] with [l] written at [out]: nothing before [out] changed. *)
Definition writes (b b' : buffer) (out : Z) (l : list Z) : Prop :=
  (forall j, j < out -> b' j = b j) /\ buf_read b' out (List.length l) = l.

(** Checking a property of every number below a bound by evaluation. *)
Fixpoint all_from (f : Z -> bool) (i : Z) (n : nat) : bool :=
  match n with
  | O => true
  | S n' => f i && all_from f (i + 1) n'
  end.

(** The text of the name, as the specification describes it: a value in
    [32, 126] is itself; another byte is ["<XX>"]; another unit is ["<XX>"]
    below [0x100] and ["<XXXX>"] from there on. *)
Definition hex_digit (d : Z) : Z :=
  nth (Z.to_nat d) (ascii_bytes "0123456789ABCDEF") 0.

Definition escape_byte (c : Z) : list Z :=
  if (32 <=? c) && (c <=? 126) then [c]
  else [code "<"; hex_digit (c / 16); hex_digit (c mod 16); code ">"].

Definition escape_unit (c : Z) : list Z :=
  if (32 <=? c) && (c <=? 126) then [c]
  else if c <? 0x100 then
    [code "<"; hex_digit (c / 16); hex_digit (c mod 16); code ">"]
  else
    [code "<"; hex_digit (c / 4096); hex_digit (c / 256 mod 16);
     hex_digit (c / 16 mod 16); hex_digit (c mod 16); code ">"].

Fixpoint read_units (m : memory) (a : Z) (n : nat) : list Z :=
  match n with
  | O => []
  | S n' => u16 m a :: read_units m (a + 2) n'
  end.

Definition decoded_name (m : memory) (inp len comp : Z) : list Z :=
  if comp =? 0 then flat_map escape_unit (read_units m inp (Z.to_nat (len / 2)))
  else flat_map escape_byte (read_bytes m inp (Z.to_nat len)).

(** From [st] to [st'] the two flags are the same and the buffer is the
    same before [path]. *)
Definition kept (path : Z) (st st' : state) : Prop :=
  properties st' = properties st
  /\ driverpackages st' = driverpackages st
  /\ forall j, j < path -> full st' j = full st j.

(** The number of newline characters of a text. *)
Fixpoint line_count (s : string) : nat :=
  match s with
  | EmptyString => 0
  | String c s' => ((if Ascii.eqb c (ascii_of_N 10) then 1 else 0) + line_count s')%nat
  end.

(** [i], [i + 1], ... : the values a loop counter takes in [n] iterations. *)
Fixpoint zrange (i : Z) (n : nat) : list Z :=
  match n with
  | O => []
  | S n' => i :: zrange (i + 1) n'
  end.

(** The entries of a list cell, read with a stride of [ii] [int]s. *)
Definition entries (m : memory) (item ii : Z) : list Z :=
  map (fun k => i32 m (item + 8 + 4 * ii * k) + root)
    (zrange 0 (Z.to_nat (list_count m item))).

(** The stride as the specification words it: 2 for the bare offsets of an
    [li] list, 1 for hashed entries. *)
Definition stated_stride (m : memory) (item : Z) : Z :=
  if block_type m item 1 =? code "i" then 2 else 1.

(** Byte [i] of a 32-bit field, least significant first. *)
Definition field_byte (field i : Z) : Z := to_uint field / 256 ^ i mod 256.

(** The length as the specification words it: capped at 4. *)
Definition capped_size (m : memory) (val : Z) : Z := Z.min (logical_size m val) 4.

(** What the loop prints for a unit that ends neither a string of a
    MULTI_SZ nor the text. *)
Definition unit_text (c : Z) : string :=
  if printable c then String (chr c) ""
  else "<" ++ fmt_X (if c <? 0x100 then 2 else 4) c ++ ">".

(** The address of the data of segment [i] of a segment list. *)
Definition segment (m : memory) (datalist i : Z) : Z :=
  offsets_at m datalist i + root + 4.

(** The value as the specification describes it: 16344 bytes of each of
    the first [n - 1] segments, then the remaining bytes from the last. *)
Definition reassembled (m : memory) (datalist size n : Z) : list Z :=
  (flat_map (fun i => read_bytes m (segment m datalist i) (Z.to_nat 16344))
     (zrange 0 (Z.to_nat (n - 1))) ++
   read_bytes m (segment m datalist (n - 1))
     (Z.to_nat (size - 16344 * (n - 1))))%list.

(** What the loop copies in [k] iterations from segment [i] on. *)
Fixpoint copied (m : memory) (datalist : Z) (k : nat) (i left : Z) : list Z :=
  match k with
  | O => []
  | S k' =>
      (read_bytes m (segment m datalist i) (Z.to_nat (copy_len left)) ++
       copied m datalist k' (i + 1) (left - 16344))%list
  end.

(** [k'] is one of the key cells [walk] calls itself on for the key [k]. *)
Definition subkey_of (m : memory) (k k' : Z) : Prop :=
  key_subkeys m k <> -1 /\ In k' (subkey_cells m (key_subkeys m k + root)).

(** [k'] is met below [k]: a subkey, or a subkey of one, and so on. *)
Inductive below (m : memory) : Z -> Z -> Prop :=
| below_subkey (k k' : Z) : subkey_of m k k' -> below m k k'
| below_deeper (k k' k'' : Z) : subkey_of m k k' -> below m k' k'' -> below m k k''.

(** *** A hive whose only key is its own subkey *)
Definition loop_hive : memory :=
  let c := cell_size in
  image 1 3 0
    [ (* 0 *) nk_cell 0x20 0 (1 * c) 0 0 1 (ascii_bytes "L");
      (* 1 *) list_cell "li" 1 [0] ].

(** Every character of [s] has a code that satisfies [p]. *)
Fixpoint all_chars (p : Z -> bool) (s : string) : bool :=
  match s with
  | EmptyString => true
  | String c s' => p (code c) && all_chars p s'
  end.

(** What a line of output is made of: printable ASCII, and the newline
    that ends it. *)
Definition output_char (c : Z) : bool := printable c || (c =? 10).

(** The text with the given character codes. *)
Fixpoint text_of (l : list Z) : string :=
  match l with
  | [] => ""
  | c :: l' => String (chr c) (text_of l')
  end.

(** The buffer holds, from position 0, a text of [q] printable characters
    and the NUL that ends it. *)
Definition holds_text (b : buffer) (q : Z) : Prop :=
  0 <= q /\ (forall j, 0 <= j < q -> printable (b j) = true) /\ b q = 0.

(** Before [path] the buffer holds printable characters only: the path of
    the keys above. *)
Definition printable_prefix (b : buffer) (path : Z) : Prop :=
  0 <= path /\ forall j, 0 <= j < path -> printable (b j) = true.

(** Lines of printable ASCII, each ended by its newline. *)
Definition whole_lines (s : string) : Prop :=
  all_chars output_char s = true /\ (s = "" \/ exists t, s = t ++ nl).

(** From [st] to [st'] the output grew by whole lines of printable ASCII. *)
Definition emits (st st' : state) : Prop :=
  exists s, stdout st' = stdout st ++ s /\ whole_lines s.

(** The state of a walk of [tree_hive] that is printing the values of
    [/ROOT]. *)
Definition in_ROOT : state := mk_state false false (store_str path0 0 "/ROOT") "".

(** Two states with the same flags and the same buffer before [path],
    whose outputs are the same once [pre1] is put before the first and
    [pre2] before the second. *)
Definition alike (pre1 pre2 : string) (path : Z) (s1 s2 : state) : Prop :=
  properties s1 = properties s2
  /\ driverpackages s1 = driverpackages s2
  /\ pre1 ++ stdout s1 = pre2 ++ stdout s2
  /\ forall j, 0 <= j < path -> full s1 j = full s2 j.

(** Two buffers that hold the same C string from position 0. *)
Definition same_text (b1 b2 : buffer) : Prop :=
  exists q, 0 <= q /\ (forall j, 0 <= j <= q -> b1 j = b2 j) /\ b1 q mod 256 = 0.

(** What the string loop prints for the [n] units from [i] when it goes
    through all of them. *)
Fixpoint units_text (d : data_ptr) (i : Z) (n : nat) : string :=
  match n with
  | O => ""
  | S n' => unit_text (data_us d i) ++ units_text d (i + 1) n'
  end.

(** The same for units given as a list. *)
Fixpoint list_text (l : list Z) : string :=
  match l with
  | [] => ""
  | c :: rest => unit_text c ++ list_text rest
  end.

(** The units of a MULTI_SZ that holds the strings [strs]: each string is
    followed by its NUL. *)
Fixpoint multi_units (strs : list (list Z)) : list Z :=
  match strs with
  | [] => []
  | s :: rest => (s ++ 0 :: multi_units rest)%list
  end.

(** The strings, separated by ["<>"]. *)
Fixpoint multi_text (strs : list (list Z)) : string :=
  match strs with
  | [] => ""
  | s :: rest =>
      match rest with
      | [] => list_text s
      | _ :: _ => list_text s ++ "<>" ++ multi_text rest
      end
  end.

(** A string of a MULTI_SZ: not empty, and without NUL. *)
Definition proper_string (s : list Z) : Prop :=
  s <> [] /\ forall c, In c s -> c <> 0.

(** The units [A, 0, B, 0, 0] as a list of strings. *)
Definition strings_AB : list (list Z) := [[0x41]; [0x42]].

(** How many of the [n] units from [i] are printable ASCII. *)
Fixpoint printable_units (d : data_ptr) (i : Z) (n : nat) : Z :=
  match n with
  | O => 0
  | S n' => (if printable (data_us d i) then 1 else 0) + printable_units d (i + 1) n'
  end.

(** How many of the [n] bytes from [i] are printable ASCII. *)
Fixpoint printable_chars (d : data_ptr) (i : Z) (n : nat) : Z :=
  match n with
  | O => 0
  | S n' =>
      (if printable (data_char d i) then 1 else 0) + printable_chars d (i + 1) n'
  end.

(** The fields of a [struct tm] are those of a date of the years 1000 to
    9999. *)
Definition civil (x : tm) : bool :=
  (0 <=? tm_sec x) && (tm_sec x <=? 60) && (0 <=? tm_min x) && (tm_min x <=? 59)
  && (0 <=? tm_hour x) && (tm_hour x <=? 23) && (1 <=? tm_mday x)
  && (tm_mday x <=? 31) && (0 <=? tm_mon x) && (tm_mon x <=? 11)
  && (1000 <=? tm_year x + 1900) && (tm_year x + 1900 <=? 9999).

(** The time [print_time] puts before a line when [-t] or [-T] is given. *)
Definition time_column (localtime : Z -> tm) (g : globals) (m : memory) (key : Z)
  : string :=
  if time_sec g || time_full g then
    print_time localtime (key_timestamp m key) (time_full g) true
  else "".

Definition flag_h : globals := mk_globals true false false false false false false.

(** * [main]

    The command line is [argv[1]], [argv[2]], ... as strings (C strings:
    they hold no NUL).  The C library is the environment: [fopen] is a
    function of the name; a file is its bytes, fewer than [2 ^ 31], with
    what [malloc] and the [fread] of the whole file will answer. *)

Record file := mk_file
  { contents : list Z;
    no_memory : bool;     (* [malloc( size )] returns [NULL] *)
    read_error : bool }.  (* [fread( data, size, 1, f )] does not return 1 *)

Inductive fopened : Type :=
| Unopened (reason : string)  (* [fopen] returns [NULL]; what [perror] says *)
| Opened (f : file).

(** What [main] works on: the globals, the state [walk] works on (with
    standard output), standard error and [rc]. *)
Record process := mk_process
  { p_globals : globals; p_state : state; p_stderr : string; p_rc : Z }.

(** The [switch] on an option character: the globals after it, [None] at
    [default:].  The case ['k'] falls through to ['t']. *)
Definition set_option (g : globals) (c : ascii) : option globals :=
  if Ascii.eqb c "h" then
    Some (mk_globals true (only_values g) (only_keys g) (all_string g)
            (time_sec g) (time_full g) (big_data g))
  else if Ascii.eqb c "s" then
    Some (mk_globals (hex_type g) (only_values g) (only_keys g) true
            (time_sec g) (time_full g) (big_data g))
  else if Ascii.eqb c "v" then
    Some (mk_globals (hex_type g) true (only_keys g) (all_string g)
            (time_sec g) (time_full g) (big_data g))
  else if Ascii.eqb c "k" then
    Some (mk_globals (hex_type g) (only_values g) true (all_string g)
            true (time_full g) (big_data g))
  else if Ascii.eqb c "t" then
    Some (mk_globals (hex_type g) (only_values g) (only_keys g) (all_string g)
            true (time_full g) (big_data g))
  else if Ascii.eqb c "T" then
    Some (mk_globals (hex_type g) (only_values g) (only_keys g) (all_string g)
            (time_sec g) true (big_data g))
  else None.

(** The inner [while] with its [switch], over the characters after the
    ['-']: the globals, or those reached and the unknown character. *)
Fixpoint option_chars (s : string) (g : globals) : globals + globals * ascii :=
  match s with
  | EmptyString => inl g
  | String c s' =>
      match set_option g c with
      | Some g' => option_chars s' g'
      | None => inr (g, c)
      end
  end.

(** [while (argc > 1 && *argv[1] == '-') { ...; ++argv; --argc; }]: the
    globals and the arguments that remain, or the unknown character. *)
Fixpoint parse_options (args : list string) (g : globals)
  : globals * list string + globals * ascii :=
  match args with
  | [] => inl (g, [])
  | a :: rest =>
      match a with
      | String c s =>
          if Ascii.eqb c "-" then
            match option_chars s g with
            | inl g' => parse_options rest g'
            | inr e => inr e
            end
          else inl (g, args)
      | EmptyString => inl (g, args)
      end
  end.

(** [argc == 1 || strcmp( argv[1], "/?" ) == 0 || ...] *)
Definition wants_help (args : list string) : bool :=
  match args with
  | [] => true
  | a :: _ => String.eqb a "/?" || String.eqb a "-?" || String.eqb a "--help"
  end.

Definition usage : string :=
  "Dump a registry hive as text, one line per value." ++ nl ++
  "https://github.com/adoxa/regdump" ++ nl ++
  nl ++
  "regdump [-hkstTv] HIVE..." ++ nl ++
  nl ++
  "-h  use hexadecimal for type & size, placed before key" ++ nl ++
  "-k  keys only (implies -t)" ++ nl ++
  "-s  include the entire string data (excluding trailing nulls)" ++ nl ++
  "-t  include key timestamp (seconds)" ++ nl ++
  "-T  include key timestamp (full resolution)" ++ nl ++
  "-v  values only" ++ nl.

Fixpoint store_bytes (b : buffer) (i : Z) (l : list Z) : buffer :=
  match l with
  | [] => b
  | c :: l' => store_bytes (store b i c) (i + 1) l'
  end.

(** [fread( path, 4, 1, f )] at position [pos] of the file: the bytes that
    are there are stored in [path]; the call returns 1 when there are
    four. *)
Definition fread_path (b : buffer) (bytes : list Z) (pos : nat) : buffer * bool :=
  let got := firstn 4 (skipn pos bytes) in
  (store_bytes b 0 got, (List.length got =? 4)%nat).

(** [memcmp( path, s, 4 ) == 0] *)
Definition memcmp_path (b : buffer) (s : string) : bool :=
  forallb (fun p => fst p mod 256 =? snd p)
    (combine (buf_read b 0 4) (ascii_bytes s)).

Section Main.

Variable localtime : Z -> tm.
Variable fopen : string -> fopened.
Variable fuel : nat.

(** [error:] the message, [rc = 1], and on to the next file; [b] is what
    [path] holds by then. *)
Definition fail (p : process) (b : buffer) (name errmsg : string) : process :=
  mk_process (p_globals p) (set_full (p_state p) b)
    (p_stderr p ++ name ++ ": " ++ errmsg ++ "." ++ nl) 1.

(** The body of the loop over the files for [argv[1] = name]; [more] is
    [argc > 2]. *)
Definition dump_file (name : string) (more show_hive : bool) (p : process)
  : outcome process :=
  match fopen name with
  | Unopened reason =>
      Done (mk_process (p_globals p) (p_state p)
              (p_stderr p ++ name ++ ": " ++ reason ++ nl) 1)
  | Opened f =>
      let '(b, ok) := fread_path (full (p_state p)) (contents f) 0 in
      if negb ok || negb (memcmp_path b "regf") then
        Done (fail p b name "invalid file ('regf' signature not found)")
      else
        let '(b, ok) := fread_path b (contents f) (Z.to_nat 0x1000) in
        if negb ok || negb (memcmp_path b "hbin") then
          Done (fail p b name "invalid file ('hbin' signature not found)")
        else if no_memory f then Done (fail p b name "insufficient memory")
        else if read_error f then Done (fail p b name "read error")
        else
          let m := mem_of_bytes (contents f) in
          let g := with_big_data (p_globals p) (main_big_data m) in
          let st := set_full (p_state p) b in
          let st := if show_hive then print st (name ++ nl ++ nl) else st in
          st <- walk localtime g m fuel st 0 (root_cell_offset m + root) ;;
          let st := if show_hive && more then print st nl else st in
          Done (mk_process g st (p_stderr p) (p_rc p))
  end.

(** [for (; argc > 1; ++argv, --argc)] *)
Fixpoint dump_files (files : list string) (show_hive : bool) (p : process)
  : outcome process :=
  match files with
  | [] => Done p
  | name :: rest =>
      p' <- dump_file name (negb (Nat.eqb (List.length rest) 0)) show_hive p ;;
      dump_files rest show_hive p'
  end.

(** [main]: [path] is what the array holds at first. *)
Definition main (args : list string) (path : buffer) : outcome process :=
  let p := mk_process no_flags (initial_state path) "" 0 in
  if wants_help args then
    Done (mk_process no_flags (print (initial_state path) usage) "" 0)
  else
    match parse_options args no_flags with
    | inr (g, c) =>
        Done (mk_process g (initial_state path)
                (String c ": unknown option." ++ nl) 1)
    | inl (g, files) =>
        dump_files files (1 <? List.length files)%nat
          (mk_process g (initial_state path) "" 0)
    end.

End Main.

(** ** Notions for [main] *)

(** An argument that starts with ['-'], and the option characters of
    such arguments. *)
Definition is_option (a : string) : bool :=
  match a with
  | String c _ => Ascii.eqb c "-"
  | EmptyString => false
  end.

Definition letters_of (a : string) : list ascii :=
  match a with
  | String _ s => list_ascii_of_string s
  | EmptyString => []
  end.

Definition letters (opts : list string) : list ascii := flat_map letters_of opts.

(** The character [c] is among the option characters. *)
Definition has (c : ascii) (opts : list string) : bool :=
  existsb (fun x => Ascii.eqb x c) (letters opts).

(** The option characters [main] knows. *)
Definition known (c : ascii) : bool :=
  existsb (Ascii.eqb c) (list_ascii_of_string "hsvktT").

(** The file starts with the four characters [s] at [pos]. *)
Definition has_signature (bytes : list Z) (pos : nat) (s : string) : bool :=
  (List.length (firstn 4 (skipn pos bytes)) =? 4)%nat
  && forallb (fun p => fst p mod 256 =? snd p)
       (combine (firstn 4 (skipn pos bytes)) (ascii_bytes s)).

(** The file can be loaded: it opens, has both signatures, and the
    library gives the memory and the bytes. *)
Definition loadable (fopen : string -> fopened) (name : string) : bool :=
  match fopen name with
  | Unopened _ => false
  | Opened f =>
      has_signature (contents f) 0 "regf"
      && has_signature (contents f) (Z.to_nat 0x1000) "hbin"
      && negb (no_memory f) && negb (read_error f)
  end.

(** A buffer of NULs. *)
Definition blank : buffer := fun _ => 0.

(** What [dump] prints for the hive of a file alone, from a fresh state. *)
Definition hive_text (localtime : Z -> tm) (g : globals) (fuel : nat) (f : file)
  : string :=
  stdout (final (dump localtime g (mem_of_bytes (contents f)) blank fuel)).

(** The output for the files, each on its own: nothing for a file that
    cannot be loaded; with several files the name and an empty line
    before each hive, and an empty line after each but the last
    argument. *)
Fixpoint hives_text (localtime : Z -> tm) (fopen : string -> fopened)
    (fuel : nat) (g : globals) (show_hive : bool) (files : list string) : string :=
  match files with
  | [] => ""
  | name :: rest =>
      (match fopen name with
       | Opened f =>
           if loadable fopen name then
             (if show_hive then name ++ nl ++ nl else "") ++
             hive_text localtime g fuel f ++
             (if show_hive && negb (Nat.eqb (List.length rest) 0) then nl else "")
           else ""
       | Unopened _ => ""
       end) ++ hives_text localtime fopen fuel g show_hive rest
  end.

(** The process in which a run ended, for the examples. *)
Definition ended (o : outcome process) : process :=
  match o with
  | Done p => p
  | _ => mk_process no_flags (initial_state blank) "" (-1)
  end.

(** A hive file with the single key [R], without values or subkeys: the
    base block, the header of the bin at [0x1000], the key cell. *)
Definition small_hive : list Z :=
  (ascii_bytes "regf" ++ repeat 0 16 ++ le32 1 ++ le32 3 ++ repeat 0 8 ++
   le32 32 ++ repeat 0 (Z.to_nat (0x1000 - 40)) ++
   ascii_bytes "hbin" ++ repeat 0 28 ++
   nk_cell 0x20 0 (-1) 0 0 1 (ascii_bytes "R"))%list.

(** A file system with the hive [a.hiv], the file [junk] and nothing
    else. *)
Definition two_files (name : string) : fopened :=
  if String.eqb name "a.hiv" then Opened (mk_file small_hive false false)
  else if String.eqb name "junk" then Opened (mk_file (ascii_bytes "junk") false false)
  else Unopened "No such file or directory".

(** The globals once the option characters [l] are processed from [g]:
    each flag is set by its character, [time_sec] also by ['k']. *)
Definition flags_after (g : globals) (l : list ascii) : globals :=
  let has c := existsb (fun x => Ascii.eqb x c) l in
  mk_globals (hex_type g || has "h"%char) (only_values g || has "v"%char)
    (only_keys g || has "k"%char) (all_string g || has "s"%char)
    (time_sec g || has "t"%char || has "k"%char) (time_full g || has "T"%char)
    (big_data g).


(** The units [A, 0, B] again, in another memory, from address 1. *)
Definition shifted_AB : data_ptr :=
  mk_data (mem_of_bytes [0xFF; 0x41; 0; 0; 0; 0x42; 0; 0xFF]) 1.

(** *** A hive with nested driver packages

    [ROOT] has the subkeys [DriverPackages] and [Other], without values of
    its own; [DriverPackages] has the subkeys [DriverPackages] and
    [Properties].  Every key but [Properties] has the value [s], whose
    type has a high word (65537: the low word is that of SZ) and whose data
    are the units [H, i, 0]; [Properties] has the value [n], of the device
    type UINT32. *)
Definition packages_hive : memory :=
  let c := cell_size in
  image 1 3 0
    [ (* 0 *) nk_cell 0x20 0 (1 * c) 0 0 4 (ascii_bytes "ROOT");
      (* 1 *) list_cell "lf" 2 [2 * c; 111; 3 * c; 222];
      (* 2 *) nk_cell 0x20 0 (4 * c) 1 (7 * c) 14 (ascii_bytes "DriverPackages");
      (* 3 *) nk_cell 0x20 0 (-1) 1 (7 * c) 5 (ascii_bytes "Other");
      (* 4 *) list_cell "li" 2 [5 * c; 6 * c];
      (* 5 *) nk_cell 0x20 0 (-1) 1 (7 * c) 14 (ascii_bytes "DriverPackages");
      (* 6 *) nk_cell 0x20 0 (-1) 1 (10 * c) 10 (ascii_bytes "Properties");
      (* 7 *) offsets_cell [8 * c];
      (* 8 *) vk_cell 1 6 (9 * c) 65537 1 (ascii_bytes "s");
      (* 9 *) data_cell [0x48; 0; 0x69; 0; 0; 0];
      (* 10 *) offsets_cell [11 * c];
      (* 11 *) vk_cell 1 0x80000004 42 0xFFFF0007 1 (ascii_bytes "n") ].




(** * Properties *)

(** ** Machine integers *)

(** Linear arithmetic with division and remainder by constants. *)
Ltac divlia := Z.to_euclidean_division_equations; lia.

Lemma pow2_double (bits : Z) : 0 < bits -> 2 ^ bits = 2 * 2 ^ (bits - 1).
Proof.
  intros Hb. replace bits with (Z.succ (bits - 1)) at 1 by lia.
  now rewrite Z.pow_succ_r by lia.
Qed.

Lemma swrap_id (bits z : Z) :
  0 < bits -> - 2 ^ (bits - 1) <= z < 2 ^ (bits - 1) -> swrap bits z = z.
Proof.
  intros Hb Hz. unfold swrap. pose proof (pow2_double bits Hb).
  rewrite Z.mod_small by lia. lia.
Qed.

Lemma swrap_range (bits z : Z) :
  0 < bits -> - 2 ^ (bits - 1) <= swrap bits z < 2 ^ (bits - 1).
Proof.
  intros Hb. unfold swrap. pose proof (pow2_double bits Hb).
  assert (0 < 2 ^ (bits - 1)) by (apply Z.pow_pos_nonneg; lia).
  pose proof (Z.mod_pos_bound (z + 2 ^ (bits - 1)) (2 ^ bits)). lia.
Qed.

Lemma u8_range (m : memory) (a : Z) : 0 <= u8 m a < 256.
Proof. unfold u8. apply Z.mod_pos_bound. lia. Qed.

Lemma u16_range (m : memory) (a : Z) : 0 <= u16 m a < 65536.
Proof.
  unfold u16. pose proof (u8_range m a). pose proof (u8_range m (a + 1)). lia.
Qed.

Lemma u32_range (m : memory) (a : Z) : 0 <= u32 m a < 4294967296.
Proof.
  unfold u32. pose proof (u16_range m a). pose proof (u16_range m (a + 2)). lia.
Qed.

Lemma u64_range (m : memory) (a : Z) : 0 <= u64 m a < 18446744073709551616.
Proof.
  unfold u64. pose proof (u32_range m a). pose proof (u32_range m (a + 4)). lia.
Qed.

Lemma to_uint_range (z : Z) : 0 <= to_uint z < 4294967296.
Proof. unfold to_uint, wrap. apply Z.mod_pos_bound. reflexivity. Qed.

Lemma testbit_above (u n : Z) : 0 <= u < 2 ^ n -> forall i, n <= i -> Z.testbit u i = false.
Proof.
  intros Hu i Hi. destruct (Z.eq_dec u 0) as [->|Hne].
  - apply Z.bits_0.
  - apply Z.bits_above_log2; [lia|].
    assert (Z.log2 u < n); [|lia].
    apply Z.log2_lt_pow2; lia.
Qed.

(** Masking with [0xFFFF0000] keeps the upper half of a 32-bit pattern. *)
Lemma land_upper_half (u : Z) :
  0 <= u < 4294967296 -> Z.land u 0xFFFF0000 = 65536 * (u / 65536).
Proof.
  intros Hu.
  transitivity (Z.shiftl (Z.shiftr u 16) 16).
  - change 0xFFFF0000 with (Z.shiftl (Z.ones 16) 16).
    apply Z.bits_inj'. intros i Hi.
    rewrite Z.land_spec.
    destruct (Z.lt_ge_cases i 16) as [Hlt|Hge].
    + rewrite !Z.shiftl_spec_low by lia. apply andb_false_r.
    + rewrite !Z.shiftl_spec by lia. rewrite Z.shiftr_spec by lia.
      replace (i - 16 + 16) with i by lia.
      destruct (Z.lt_ge_cases i 32) as [Hlt|Hge'].
      * rewrite Z.ones_spec_low by lia. apply andb_true_r.
      * rewrite Z.ones_spec_high by lia.
        rewrite (testbit_above u 32) by (try lia; exact Hu). reflexivity.
  - rewrite Z.shiftl_mul_pow2, Z.shiftr_div_pow2 by lia.
    change (2 ^ 16) with 65536. lia.
Qed.

Lemma land_lower_half (x : Z) : Z.land x 0xFFFF = x mod 65536.
Proof. change 0xFFFF with (Z.ones 16). now rewrite Z.land_ones by lia. Qed.

(** ** The effective type *)

Lemma device_test (raw : Z) :
  (Z.land (to_uint raw) 0xFFFF0000 =? 0xFFFF0000) = (upper16 raw =? 0xFFFF).
Proof.
  unfold upper16. pose proof (to_uint_range raw) as Hr.
  rewrite land_upper_half by exact Hr.
  destruct (Z.eqb_spec (to_uint raw / 65536) 0xFFFF) as [E|E].
  - rewrite E. reflexivity.
  - apply Z.eqb_neq. lia.
Qed.

Lemma mask_low (raw : Z) : to_int (Z.land raw 0xFFFF) = lower16 raw.
Proof.
  rewrite land_lower_half. unfold lower16, to_int.
  pose proof (Z.mod_pos_bound raw 65536).
  apply swrap_id; [lia|]. change (2 ^ (32 - 1)) with 2147483648. lia.
Qed.

(** C3. The effective type of a value.  Where device-property scope is
    active and the upper 16 bits of the raw code are all set, the lower 16
    bits select the type: INT32 and UINT32 give DWORD; INT64, UINT64 and
    FILETIME give QWORD; STRING and STRING_INDIRECT give SZ; STRING_LIST
    gives MULTI_SZ; any other device code leaves the raw code as it is; all
    this whether or not driver-package scope is active too (device-property
    scope comes first).  Otherwise, under driver-package scope the upper 16
    bits are masked off, so that [0x00010001] resolves to [0x0001], SZ;
    otherwise the raw code is the effective type. *)
Theorem effective_type_resolution (props drv : bool) (raw : Z) :
  (props = true /\ upper16 raw = 0xFFFF ->
     (lower16 raw = 6 \/ lower16 raw = 7 ->
      effective_type props drv raw = REG_DWORD)
     /\ (lower16 raw = 8 \/ lower16 raw = 9 \/ lower16 raw = 0x10 ->
         effective_type props drv raw = REG_QWORD)
     /\ (lower16 raw = 0x12 \/ lower16 raw = 0x19 ->
         effective_type props drv raw = REG_SZ)
     /\ (lower16 raw = 0x2012 -> effective_type props drv raw = REG_MULTI_SZ)
     /\ (~ In (lower16 raw) [6; 7; 8; 9; 0x10; 0x12; 0x19; 0x2012] ->
         effective_type props drv raw = raw))
  /\ (~ (props = true /\ upper16 raw = 0xFFFF) ->
      effective_type props drv raw = if drv then lower16 raw else raw)
  /\ effective_type props true 0x00010001 = 0x0001
  /\ 0x0001 = REG_SZ.
Proof.
  unfold effective_type. rewrite device_test, mask_low, land_lower_half.
  fold (lower16 raw).
  split; [|split; [|split]].
  - intros [-> Hu]. apply Z.eqb_eq in Hu. rewrite Hu. cbn [andb].
    repeat split.
    + intros [H|H]; rewrite H; reflexivity.
    + intros [H|[H|H]]; rewrite H; reflexivity.
    + intros [H|H]; rewrite H; reflexivity.
    + intros H; rewrite H; reflexivity.
    + intros H. cbn [In] in H.
      change DEVPROP_TYPE_STRING_LIST with 0x2012.
      unfold DEVPROP_TYPE_INT32, DEVPROP_TYPE_UINT32, DEVPROP_TYPE_INT64,
        DEVPROP_TYPE_UINT64, DEVPROP_TYPE_FILETIME, DEVPROP_TYPE_STRING,
        DEVPROP_TYPE_STRING_INDIRECT.
      repeat match goal with
             | |- context [?a =? ?b] =>
                 destruct (Z.eqb_spec a b); [exfalso; apply H; lia|]
             end.
      reflexivity.
  - intros H.
    destruct props; cbn [andb]; [|reflexivity].
    destruct (Z.eqb_spec (upper16 raw) 0xFFFF); [exfalso; auto|reflexivity].
  - destruct props; reflexivity.
  - reflexivity.
Qed.

(** ** Strings *)

Lemma append_assoc (a b c : string) : (a ++ b) ++ c = a ++ (b ++ c).
Proof. induction a as [|x a IH]; cbn; [reflexivity|now rewrite IH]. Qed.

Lemma append_nil_r (a : string) : a ++ "" = a.
Proof. induction a as [|x a IH]; cbn; [reflexivity|now rewrite IH]. Qed.

(** ** The 21st century FILETIME *)

Lemma to_int64_unsigned (u : Z) :
  0 <= u < 18446744073709551616 ->
  to_int64 u = if u <? 9223372036854775808 then u else u - 18446744073709551616.
Proof.
  intros Hu. unfold to_int64, swrap.
  change (2 ^ (64 - 1)) with 9223372036854775808.
  change (2 ^ 64) with 18446744073709551616.
  destruct (Z.ltb_spec u 9223372036854775808) as [Hlt|Hge].
  - rewrite Z.mod_small by lia. lia.
  - replace (u + 9223372036854775808)
      with (u - 9223372036854775808 + 1 * 18446744073709551616) by lia.
    rewrite Z.mod_add by lia. rewrite Z.mod_small by lia. lia.
Qed.

(** The signed comparisons of the program decide the same interval on the
    unsigned value. *)
Lemma filetime_test (u : Z) :
  0 <= u < 18446744073709551616 ->
  (to_int64 u >=? filetime_min) && (to_int64 u <? filetime_max) = true <->
  126227808000000000 <= u < 157784544000000000.
Proof.
  intros Hu. rewrite (to_int64_unsigned u Hu).
  unfold filetime_min, filetime_max.
  rewrite andb_true_iff, Z.geb_le, Z.ltb_lt.
  destruct (Z.ltb_spec u 9223372036854775808); lia.
Qed.

Lemma select_rule_size8 (props : bool) (type bintext : Z) (d : data_ptr) :
  type = REG_QWORD \/ type = REG_BINARY \/ type = REG_NONE ->
  select_rule props type 8 bintext d = FileTime <->
  (i64 (d_mem d) (d_at d) >=? filetime_min)
  && (i64 (d_mem d) (d_at d) <? filetime_max) = true.
Proof.
  intros Ht. unfold select_rule.
  change (8 =? 4) with false. change (8 =? 1) with false.
  change (8 =? 2) with false. change (8 =? 8) with true.
  rewrite !andb_false_r. cbn [andb].
  replace ((type =? REG_QWORD) || (type =? REG_BINARY) || (type =? REG_NONE))
    with true by (destruct Ht as [->|[->| ->]]; reflexivity).
  cbn [andb].
  destruct ((i64 (d_mem d) (d_at d) >=? filetime_min)
            && (i64 (d_mem d) (d_at d) <? filetime_max)); [tauto|].
  split; [|discriminate].
  rewrite andb_true_r.
  repeat match goal with |- context [if ?c then _ else _] => destruct c end;
    discriminate.
Qed.

(** C2. A value of size 8 whose effective type is QWORD, BINARY or NONE is
    printed as a date and time exactly when its little-endian 64-bit value
    [v] satisfies [126227808000000000 <= v < 157784544000000000]: the lower
    bound is a date, one below it and the upper bound are not.  The date
    (no brackets, no fraction) is followed by [" (0x<hex>; <decimal>)"] for
    QWORD and by the eight bytes in two-digit hexadecimal, separated by
    commas and in parentheses, otherwise. *)
Theorem filetime_rendering (localtime : Z -> tm) (g : globals) (props : bool)
    (type bintext : Z) (d : data_ptr) :
  type = REG_QWORD \/ type = REG_BINARY \/ type = REG_NONE ->
  let v := u64 (d_mem d) (d_at d) in
  let byte i := fmt_X 2 (u8 (d_mem d) (d_at d + i)) in
  (select_rule props type 8 bintext d = FileTime <->
   126227808000000000 <= v < 157784544000000000)
  /\ (v = 126227808000000000 -> select_rule props type 8 bintext d = FileTime)
  /\ (v = 126227808000000000 - 1 -> select_rule props type 8 bintext d <> FileTime)
  /\ (v = 157784544000000000 -> select_rule props type 8 bintext d <> FileTime)
  /\ (126227808000000000 <= v < 157784544000000000 ->
      render localtime g props type 8 bintext d =
      print_time localtime v false false ++
      (if type =? REG_QWORD then
         " (0x" ++ fmt_X 0 v ++ "; " ++ fmt_d 0 v ++ ")"
       else
         " (" ++ byte 0 ++ "," ++ byte 1 ++ "," ++ byte 2 ++ "," ++ byte 3 ++
         "," ++ byte 4 ++ "," ++ byte 5 ++ "," ++ byte 6 ++ "," ++ byte 7 ++ ")")).
Proof.
  intros Ht v byte.
  pose proof (u64_range (d_mem d) (d_at d)) as Hv. fold v in Hv.
  assert (Hiff : select_rule props type 8 bintext d = FileTime <->
                 126227808000000000 <= v < 157784544000000000).
  { rewrite (select_rule_size8 props type bintext d Ht).
    unfold i64. fold v. apply filetime_test. exact Hv. }
  split; [exact Hiff|].
  split; [intros E; apply Hiff; lia|].
  split; [intros E F; apply Hiff in F; lia|].
  split; [intros E F; apply Hiff in F; lia|].
  intros Hr. unfold render. rewrite (proj2 Hiff Hr).
  assert (Ei : i64 (d_mem d) (d_at d) = v).
  { unfold i64. fold v. rewrite (to_int64_unsigned v Hv).
    destruct (Z.ltb_spec v 9223372036854775808); [reflexivity|lia]. }
  rewrite Ei. f_equal.
  destruct (type =? REG_QWORD).
  - unfold to_uint64, wrap. change (2 ^ 64) with 18446744073709551616.
    rewrite Z.mod_small by lia. reflexivity.
  - change (Z.to_nat 8) with 8%nat. cbn [hex_bytes Z.eqb Z.add Pos.add Pos.succ].
    unfold data_uchar, byte. cbn [append].
    repeat first [rewrite append_assoc | progress cbn [append]].
    reflexivity.
Qed.

Lemma filetime_rendering_witness :
  select_rule false REG_QWORD 8 0 filetime_2001 = FileTime
  /\ render utc no_flags false REG_QWORD 8 0 filetime_2001 =
     "2001-01-01 00:00:00 (0x1C07385C89DC000; 126227808000000000)".
Proof.
  pose proof (filetime_rendering utc no_flags false REG_QWORD 0 filetime_2001
                (or_introl eq_refl)) as (_ & Hmin & _ & _ & Hrender).
  split.
  - apply Hmin. reflexivity.
  - rewrite Hrender; [vm_compute; reflexivity|].
    change (u64 (d_mem filetime_2001) (d_at filetime_2001))
      with 126227808000000000. lia.
Defined.

(** ** The path buffer *)

Lemma buf_read_ext (b b' : buffer) (n : nat) :
  forall i, (forall j, i <= j < i + Z.of_nat n -> b' j = b j) ->
  buf_read b' i n = buf_read b i n.
Proof.
  induction n as [|n IH]; intros i H; cbn [buf_read]; [reflexivity|].
  rewrite H by lia. f_equal. apply IH. intros j Hj. apply H. lia.
Qed.

Lemma buf_read_app (b : buffer) (n1 n2 : nat) :
  forall i, buf_read b i (n1 + n2) =
            (buf_read b i n1 ++ buf_read b (i + Z.of_nat n1) n2)%list.
Proof.
  induction n1 as [|n1 IH]; intros i.
  - cbn. now rewrite Z.add_0_r.
  - cbn [Nat.add buf_read app]. rewrite IH. do 3 f_equal. lia.
Qed.

Lemma writes_nil (b : buffer) (out : Z) : writes b b out [].
Proof. split; [intros; reflexivity|reflexivity]. Qed.

Lemma writes_app (b b1 b2 : buffer) (out : Z) (l1 l2 : list Z) :
  writes b b1 out l1 ->
  writes b1 b2 (out + Z.of_nat (List.length l1)) l2 ->
  writes b b2 out (l1 ++ l2).
Proof.
  intros [F1 R1] [F2 R2]. split.
  - intros j Hj. rewrite F2 by lia. apply F1, Hj.
  - rewrite length_app, buf_read_app, R2. f_equal.
    rewrite <- R1 at 2. apply buf_read_ext. intros j Hj. apply F2. lia.
Qed.

Lemma writes_store (b : buffer) (out c : Z) : writes b (store b out c) out [c].
Proof.
  split.
  - intros j Hj. unfold store. destruct (Z.eqb_spec j out); [lia|reflexivity].
  - cbn. unfold store. now rewrite Z.eqb_refl.
Qed.

Lemma writes_store_str (s : string) :
  forall b out,
    writes b (store_str b out s) out (map code (list_ascii_of_string s))
    /\ store_str b out s (out + Z.of_nat (String.length s)) = 0.
Proof.
  induction s as [|c s IH]; intros b out.
  - cbn. split; [split; [|reflexivity]|].
    + intros j Hj. unfold store. destruct (Z.eqb_spec j out); [lia|reflexivity].
    + unfold store. rewrite Z.add_0_r. now rewrite Z.eqb_refl.
  - cbn [store_str list_ascii_of_string map String.length].
    destruct (IH (store b out (code c)) (out + 1)) as [W Z0]. split.
    + apply (writes_app b (store b out (code c)) _ out [code c]).
      * apply writes_store.
      * exact W.
    + rewrite <- Z0. f_equal. lia.
Qed.

Lemma length_codes (s : string) :
  List.length (map code (list_ascii_of_string s)) = String.length s.
Proof.
  rewrite length_map. induction s as [|c s IH]; cbn; [reflexivity|now rewrite IH].
Qed.

(** ** [make_name] *)

Lemma check_from (f : Z -> bool) (n : nat) :
  forall i, all_from f i n = true ->
  forall c, i <= c < i + Z.of_nat n -> f c = true.
Proof.
  induction n as [|n IH]; intros i H c Hc; [lia|].
  cbn [all_from] in H. apply andb_true_iff in H as [H0 H1].
  destruct (Z.eq_dec c i) as [->|Hne]; [exact H0|].
  apply (IH (i + 1) H1). lia.
Qed.

Lemma check_below (f : Z -> bool) (n : nat) :
  all_from f 0 n = true -> forall c, 0 <= c < Z.of_nat n -> f c = true.
Proof. intros H c Hc. apply (check_from f n 0 H). lia. Qed.

Lemma printable_range (c : Z) : printable c = (32 <=? c) && (c <=? 126).
Proof.
  unfold printable. f_equal.
  destruct (Z.ltb_spec c 127), (Z.leb_spec c 126); lia || reflexivity.
Qed.

Lemma digit_char_code (d : Z) : 0 <= d < 16 -> code (digit_char d) = hex_digit d.
Proof.
  intros Hd. apply Z.eqb_eq.
  apply (check_below (fun d => code (digit_char d) =? hex_digit d) 16);
    [reflexivity|lia].
Qed.

Lemma digits_hex_last (f : nat) (n : Z) (acc : string) :
  0 <= n < 16 -> digits (S f) 16 n acc = String (digit_char n) acc.
Proof.
  intros Hn. cbn [digits]. rewrite Z.mod_small by divlia.
  destruct (Z.ltb_spec n 16); [reflexivity|lia].
Qed.

Lemma digits_hex_next (f : nat) (n : Z) (acc : string) :
  16 <= n ->
  digits (S f) 16 n acc = digits f 16 (n / 16) (String (digit_char (n mod 16)) acc).
Proof.
  intros Hn. cbn [digits]. destruct (Z.ltb_spec n 16); [lia|reflexivity].
Qed.

(** The hexadecimal digits [printf] writes for a 16-bit argument. *)
Lemma hex_digits_16bit (c : Z) :
  0 <= c < 65536 ->
  digits 64 16 c "" =
    if c <? 16 then String (digit_char c) ""
    else if c <? 256 then
      String (digit_char (c / 16)) (String (digit_char (c mod 16)) "")
    else if c <? 4096 then
      String (digit_char (c / 256))
        (String (digit_char (c / 16 mod 16)) (String (digit_char (c mod 16)) ""))
    else
      String (digit_char (c / 4096))
        (String (digit_char (c / 256 mod 16))
           (String (digit_char (c / 16 mod 16))
              (String (digit_char (c mod 16)) ""))).
Proof.
  intros Hc. change 64%nat with (S (S (S (S 60)))).
  destruct (Z.ltb_spec c 16); [apply digits_hex_last; divlia|].
  rewrite digits_hex_next by divlia.
  destruct (Z.ltb_spec c 256); [apply digits_hex_last; divlia|].
  rewrite digits_hex_next by divlia.
  replace (c / 16 / 16) with (c / 256) by divlia.
  destruct (Z.ltb_spec c 4096); [apply digits_hex_last; divlia|].
  rewrite digits_hex_next by divlia.
  replace (c / 256 / 16) with (c / 4096) by divlia.
  apply digits_hex_last; divlia.
Qed.

Lemma escape_byte_sprintf (c : Z) :
  0 <= c < 256 -> printable c = false ->
  map code (list_ascii_of_string ("<" ++ fmt_X 2 c ++ ">")) = escape_byte c.
Proof.
  intros Hc Hp. unfold escape_byte, fmt_X.
  rewrite <- printable_range, Hp, hex_digits_16bit by divlia.
  destruct (Z.ltb_spec c 16).
  - cbv -[code digit_char hex_digit Z.div Z.modulo]. rewrite digit_char_code by divlia.
    replace (c / 16) with 0 by divlia. replace (c mod 16) with c by divlia.
    reflexivity.
  - destruct (Z.ltb_spec c 256); [|divlia].
    cbv -[code digit_char hex_digit Z.div Z.modulo]. rewrite !digit_char_code by divlia. reflexivity.
Qed.

Lemma escape_unit_sprintf (c : Z) :
  0 <= c < 65536 -> printable c = false ->
  map code (list_ascii_of_string
              ("<" ++ fmt_X (if c <? 0x100 then 2 else 4) c ++ ">")) =
  escape_unit c.
Proof.
  intros Hc Hp. unfold escape_unit, fmt_X.
  rewrite <- printable_range, Hp, hex_digits_16bit by divlia.
  destruct (Z.ltb_spec c 16).
  - replace (c <? 0x100) with true by (symmetry; apply Z.ltb_lt; divlia).
    cbv -[code digit_char hex_digit Z.div Z.modulo]. rewrite digit_char_code by divlia.
    replace (c / 16) with 0 by divlia. replace (c mod 16) with c by divlia.
    reflexivity.
  - destruct (Z.ltb_spec c 256).
    + cbv -[code digit_char hex_digit Z.div Z.modulo]. rewrite !digit_char_code by divlia. reflexivity.
    + destruct (Z.ltb_spec c 4096).
      * cbv -[code digit_char hex_digit Z.div Z.modulo]. rewrite !digit_char_code by divlia.
        replace (c / 4096) with 0 by divlia.
        replace (c / 256 mod 16) with (c / 256) by divlia. reflexivity.
      * cbv -[code digit_char hex_digit Z.div Z.modulo]. rewrite !digit_char_code by divlia. reflexivity.
Qed.

Lemma printable_escape_byte (c : Z) : printable c = true -> escape_byte c = [c].
Proof. intros H. unfold escape_byte. now rewrite <- printable_range, H. Qed.

Lemma printable_escape_unit (c : Z) : printable c = true -> escape_unit c = [c].
Proof. intros H. unfold escape_unit. now rewrite <- printable_range, H. Qed.

Lemma make_name_comp_writes (m : memory) (n : nat) :
  forall uc b out,
    writes b (fst (make_name_comp n m uc b out)) out
      (flat_map escape_byte (read_bytes m uc n))
    /\ snd (make_name_comp n m uc b out) =
       out + Z.of_nat (List.length (flat_map escape_byte (read_bytes m uc n))).
Proof.
  induction n as [|n IH]; intros uc b out.
  - cbn. split; [apply writes_nil|lia].
  - cbn [make_name_comp read_bytes flat_map].
    destruct (printable (u8 m uc)) eqn:Hp.
    + rewrite (printable_escape_byte _ Hp).
      destruct (IH (uc + 1) (store b out (u8 m uc)) (out + 1)) as [W E].
      split.
      * eapply writes_app; [apply writes_store|exact W].
      * rewrite E, length_app. cbn [List.length]. lia.
    + unfold sprintf.
      rewrite <- (escape_byte_sprintf _ (u8_range m uc) Hp).
      set (s := "<" ++ fmt_X 2 (u8 m uc) ++ ">").
      destruct (IH (uc + 1) (store_str b out s) (out + Z.of_nat (String.length s)))
        as [W E].
      pose proof (length_codes s) as Hl.
      split.
      * eapply writes_app; [apply writes_store_str|]. rewrite Hl. exact W.
      * rewrite E, length_app, Hl. lia.
Qed.

Lemma make_name_wide_writes (m : memory) (n : nat) :
  forall us b out,
    writes b (fst (make_name_wide n m us b out)) out
      (flat_map escape_unit (read_units m us n))
    /\ snd (make_name_wide n m us b out) =
       out + Z.of_nat (List.length (flat_map escape_unit (read_units m us n))).
Proof.
  induction n as [|n IH]; intros us b out.
  - cbn. split; [apply writes_nil|lia].
  - cbn [make_name_wide read_units flat_map].
    destruct (printable (u16 m us)) eqn:Hp.
    + rewrite (printable_escape_unit _ Hp).
      assert (Hw : wrap 8 (u16 m us) = u16 m us).
      { rewrite printable_range in Hp. apply andb_true_iff in Hp as [H1 H2].
        apply Z.leb_le in H1, H2. unfold wrap. apply Z.mod_small.
        change (2 ^ 8) with 256. lia. }
      rewrite Hw.
      destruct (IH (us + 2) (store b out (u16 m us)) (out + 1)) as [W E].
      split.
      * eapply writes_app; [apply writes_store|exact W].
      * rewrite E, length_app. cbn [List.length]. lia.
    + unfold sprintf.
      rewrite <- (escape_unit_sprintf _ (u16_range m us) Hp).
      set (s := "<" ++ fmt_X (if u16 m us <? 256 then 2 else 4) (u16 m us) ++ ">").
      destruct (IH (us + 2) (store_str b out s) (out + Z.of_nat (String.length s)))
        as [W E].
      pose proof (length_codes s) as Hl.
      split.
      * eapply writes_app; [apply writes_store_str|]. rewrite Hl. exact W.
      * rewrite E, length_app, Hl. lia.
Qed.

Lemma quot2_to_nat (len : Z) : Z.to_nat (Z.quot len 2) = Z.to_nat (len / 2).
Proof.
  destruct (Z.lt_ge_cases len 0) as [Hn|Hp].
  - assert (Z.quot len 2 <= 0) by (apply Z.quot_le_upper_bound; lia).
    assert (len / 2 < 0) by (apply Z.div_lt_upper_bound; lia). lia.
  - now rewrite Z.quot_div_nonneg by lia.
Qed.

(** What [make_name] does to the buffer: the text of the name from [out]
    on, the NUL after it, the returned pointer on that NUL, and nothing
    before [out] touched. *)
Lemma make_name_writes (b : buffer) (out : Z) (m : memory) (inp len comp : Z) :
  writes b (fst (make_name b out m inp len comp)) out (decoded_name m inp len comp)
  /\ snd (make_name b out m inp len comp) =
     out + Z.of_nat (List.length (decoded_name m inp len comp))
  /\ fst (make_name b out m inp len comp) (snd (make_name b out m inp len comp)) = 0.
Proof.
  unfold make_name, decoded_name. rewrite quot2_to_nat.
  assert (Hfinal : forall b' out' text,
             writes b b' out text -> out' = out + Z.of_nat (List.length text) ->
             writes b (store b' out' 0) out text
             /\ out' = out + Z.of_nat (List.length text)
             /\ store b' out' 0 out' = 0).
  { intros b' out' text [F R] E. split; [split|split].
    - intros j Hj. unfold store. destruct (Z.eqb_spec j out'); [lia|]. now apply F.
    - rewrite <- R at 2. apply buf_read_ext. intros j Hj. unfold store.
      destruct (Z.eqb_spec j out'); [lia|reflexivity].
    - exact E.
    - unfold store. now rewrite Z.eqb_refl. }
  destruct (comp =? 0).
  - destruct (make_name_wide_writes m (Z.to_nat (len / 2)) inp b out) as [W E].
    destruct (make_name_wide (Z.to_nat (len / 2)) m inp b out) as [b' out'].
    cbn [fst snd] in *. now apply Hfinal.
  - destruct (make_name_comp_writes m (Z.to_nat len) inp b out) as [W E].
    destruct (make_name_comp (Z.to_nat len) m inp b out) as [b' out'].
    cbn [fst snd] in *. now apply Hfinal.
Qed.

(** C9. The Name Decoder.  [make_name] leaves in the buffer, from [out],
    the text the specification describes, followed by a NUL on which the
    returned pointer stands: for a compressed name, one piece per byte, and
    otherwise one piece per UTF-16LE unit, [len / 2] of them; a byte or unit
    in [32, 126] gives that character itself, any other byte gives ["<XX>"]
    with its two hexadecimal digits, any other unit ["<XX>"] below [0x100]
    and ["<XXXX>"] from there on. *)
Theorem make_name_decodes (b : buffer) (out : Z) (m : memory) (inp len comp : Z) :
  let b' := fst (make_name b out m inp len comp) in
  let out' := snd (make_name b out m inp len comp) in
  let pieces :=
    if comp =? 0 then map escape_unit (read_units m inp (Z.to_nat (len / 2)))
    else map escape_byte (read_bytes m inp (Z.to_nat len)) in
  buf_read b' out (List.length (List.concat pieces)) = List.concat pieces
  /\ out' = out + Z.of_nat (List.length (List.concat pieces))
  /\ b' out' = 0
  /\ (forall c, 32 <= c <= 126 -> escape_byte c = [c] /\ escape_unit c = [c])
  /\ (forall c, 0 <= c < 256 -> ~ 32 <= c <= 126 ->
      escape_byte c = [code "<"; hex_digit (c / 16); hex_digit (c mod 16); code ">"]
      /\ escape_unit c = escape_byte c)
  /\ (forall c, 256 <= c < 65536 ->
      escape_unit c =
        [code "<"; hex_digit (c / 4096); hex_digit (c / 256 mod 16);
         hex_digit (c / 16 mod 16); hex_digit (c mod 16); code ">"]).
Proof.
  intros b' out' pieces.
  assert (Hp : List.concat pieces = decoded_name m inp len comp).
  { unfold pieces, decoded_name. destruct (comp =? 0); now rewrite flat_map_concat_map. }
  rewrite Hp.
  destruct (make_name_writes b out m inp len comp) as ([_ R] & E & N).
  split; [exact R|]. split; [exact E|]. split; [exact N|].
  split; [|split].
  - intros c Hc.
    assert (printable c = true).
    { rewrite printable_range. apply andb_true_iff. split; apply Z.leb_le; lia. }
    split; [now apply printable_escape_byte|now apply printable_escape_unit].
  - intros c Hc Hn. unfold escape_unit, escape_byte.
    destruct ((32 <=? c) && (c <=? 126)) eqn:Hpr.
    + apply andb_true_iff in Hpr as [H1 H2]. apply Z.leb_le in H1, H2. lia.
    + split; [reflexivity|].
      destruct (Z.ltb_spec c 0x100); [reflexivity|lia].
  - intros c Hc. unfold escape_unit.
    destruct ((32 <=? c) && (c <=? 126)) eqn:Hpr.
    + apply andb_true_iff in Hpr as [H1 H2]. apply Z.leb_le in H1, H2. lia.
    + destruct (Z.ltb_spec c 0x100); [lia|reflexivity].
Qed.

(** ** What a call of [walk] leaves unchanged *)

Lemma bind_done {A B : Type} (c : outcome A) (k : A -> outcome B) (b : B) :
  bind c k = Done b -> exists a, c = Done a /\ k a = Done b.
Proof. destruct c; cbn; intros H; try discriminate. eauto. Qed.

Lemma kept_refl (path : Z) (st : state) : kept path st st.
Proof. repeat split. Qed.

Lemma kept_trans (path : Z) (st1 st2 st3 : state) :
  kept path st1 st2 -> kept path st2 st3 -> kept path st1 st3.
Proof.
  intros (P1 & D1 & F1) (P2 & D2 & F2). repeat split; try congruence.
  intros j Hj. rewrite F2, F1 by exact Hj. reflexivity.
Qed.

Lemma kept_print (path : Z) (st : state) (s : string) : kept path st (print st s).
Proof. repeat split. Qed.

Lemma make_name_frame (b : buffer) (out : Z) (m : memory) (inp len comp : Z) :
  out <= snd (make_name b out m inp len comp)
  /\ forall j, j < out -> fst (make_name b out m inp len comp) j = b j.
Proof.
  destruct (make_name_writes b out m inp len comp) as ([F _] & E & _).
  split; [lia|exact F].
Qed.

Lemma store_other (b : buffer) (i c j : Z) : j <> i -> store b i c j = b j.
Proof. intros H. unfold store. destruct (Z.eqb_spec j i); [contradiction|reflexivity]. Qed.

Section Kept.

Variable localtime : Z -> tm.
Variable g : globals.
Variable m : memory.

Lemma value_path_frame (b : buffer) (path val : Z) :
  forall j, j < path -> value_path m b path val j = b j.
Proof.
  intros j Hj. unfold value_path. destruct (val_name_len m val =? 0).
  - rewrite !store_other by lia. reflexivity.
  - rewrite (proj2 (make_name_frame _ _ _ _ _ _)) by lia.
    apply store_other. lia.
Qed.

Lemma print_value_kept (st st' : state) (path key val : Z) :
  print_value localtime g m st path key val = Done st' -> kept path st st'.
Proof.
  unfold print_value. intros H. apply bind_done in H as (data & _ & H).
  injection H as <-. repeat split. cbn [full print set_full].
  apply value_path_frame.
Qed.

Lemma print_values_kept (n : nat) (path key : Z) :
  forall o st st',
    print_values localtime g m n o st path key = Done st' -> kept path st st'.
Proof.
  induction n as [|n IH]; intros o st st' H; cbn [print_values] in H.
  - injection H as <-. apply kept_refl.
  - apply bind_done in H as (st1 & H1 & H2).
    eapply kept_trans; [eapply print_value_kept; exact H1|eapply IH; exact H2].
Qed.

Lemma name_is_len (s : string) (key : Z) :
  name_is m s key = true -> key_len m key = Z.of_nat (String.length s).
Proof. unfold name_is. intros H. apply andb_true_iff in H as [H _]. now apply Z.eqb_eq. Qed.

Lemma name_is_exclusive (key : Z) :
  name_is m "Properties" key = true -> name_is m "DriverPackages" key = false.
Proof.
  intros H. apply name_is_len in H.
  destruct (name_is m "DriverPackages" key) eqn:E; [|reflexivity].
  apply name_is_len in E. rewrite H in E. discriminate.
Qed.

(** [enter_key] leaves the buffer and the output alone, and [leave] undoes
    what it did to the flags. *)
Lemma enter_key_leave (st : state) (key : Z) :
  full (fst (enter_key m st key)) = full st
  /\ stdout (fst (enter_key m st key)) = stdout st
  /\ forall s,
       properties s = properties (fst (enter_key m st key)) ->
       driverpackages s = driverpackages (fst (enter_key m st key)) ->
       properties (leave (snd (enter_key m st key)) s) = properties st
       /\ driverpackages (leave (snd (enter_key m st key)) s) = driverpackages st
       /\ full (leave (snd (enter_key m st key)) s) = full s
       /\ stdout (leave (snd (enter_key m st key)) s) = stdout s.
Proof.
  unfold enter_key.
  pose proof (name_is_exclusive key) as Hx.
  destruct st as [p d f o]. cbn [properties driverpackages full stdout].
  destruct p, d, (name_is m "Properties" key), (name_is m "DriverPackages" key);
    cbn [negb fst snd properties driverpackages full stdout leave];
    try (specialize (Hx eq_refl); discriminate);
    (split; [reflexivity|split; [reflexivity|]]);
    intros [p' d' f' o']; cbn [properties driverpackages full stdout];
    intros -> ->; repeat split.
Qed.

Lemma walk_cells_kept (w : state -> Z -> Z -> outcome state) (path : Z) :
  (forall st key st', w st path key = Done st' -> kept path st st') ->
  forall cells st st', walk_cells w cells st path = Done st' -> kept path st st'.
Proof.
  intros Hw cells. induction cells as [|key rest IH]; intros st st' H; cbn in H.
  - injection H as <-. apply kept_refl.
  - apply bind_done in H as (st1 & H1 & H2).
    eapply kept_trans; [eapply Hw; exact H1|eapply IH; exact H2].
Qed.

(** A call of [walk] that returns leaves the two flags as it found them,
    and the path before its own position too. *)
Lemma walk_kept (fuel : nat) :
  forall st path key st',
    walk localtime g m fuel st path key = Done st' -> kept path st st'.
Proof.
  induction fuel as [|fuel IH]; intros st path key st' H; [discriminate|].
  cbn [walk] in H.
  pose proof (make_name_frame (store (full st) path (code "/")) (path + 1) m
                (key_name key) (key_len m key)
                (Z.land (key_flags m key) KEY_COMP_NAME)) as [Hle Hfr].
  destruct (make_name (store (full st) path (code "/")) (path + 1) m (key_name key)
              (key_len m key) (Z.land (key_flags m key) KEY_COMP_NAME))
    as [b path'].
  cbn [fst snd] in Hle, Hfr.
  assert (Hb : forall j, j < path -> b j = full st j).
  { intros j Hj. rewrite Hfr by lia. apply store_other. lia. }
  apply bind_done in H as ([[st2 leave_key] empty_key] & H1 & H).
  apply bind_done in H as ([st3 empty_key'] & H2 & H).
  injection H as <-.
  assert (K23 : kept path' st2 st3).
  { destruct (key_subkeys m key =? -1).
    - injection H2 as <- _. apply kept_refl.
    - apply bind_done in H2 as (st4 & H2 & H3). injection H3 as <- _.
      eapply walk_cells_kept; [|exact H2]. intros s k s' Hs.
      apply (IH _ _ _ _ Hs). }
  destruct (only_keys g).
  - injection H1 as <- <- _.
    destruct K23 as (P & D & F). cbn [leave].
    assert (K : kept path st st3).
    { repeat split; [exact P|exact D|].
      intros j Hj. rewrite F by lia. cbn [full print set_full]. now apply Hb. }
    destruct (empty_key' && negb (only_values g)); [|exact K].
    eapply kept_trans; [exact K|apply kept_print].
  - destruct (enter_key_leave (set_full st b) key) as (Ef & _ & El).
    destruct (enter_key m (set_full st b) key) as [st1 lk].
    cbn [fst snd] in Ef, El.
    apply bind_done in H1 as (st2' & H1 & H1').
    injection H1' as <- <- _.
    apply print_values_kept in H1.
    pose proof (kept_trans _ _ _ _ H1 K23) as (P & D & F).
    set (st5 := if empty_key' && negb (only_values g)
                then print st3 (key_line localtime g m key (full st3)) else st3).
    assert (P5 : properties st5 = properties st1)
      by (unfold st5; destruct (empty_key' && negb (only_values g)); exact P).
    assert (D5 : driverpackages st5 = driverpackages st1)
      by (unfold st5; destruct (empty_key' && negb (only_values g)); exact D).
    assert (F5 : full st5 = full st3)
      by (unfold st5; destruct (empty_key' && negb (only_values g)); reflexivity).
    destruct (El st5 P5 D5) as (Pl & Dl & Fl & _).
    repeat split; [exact Pl|exact Dl|].
    intros j Hj. rewrite Fl, F5, F by lia. rewrite Ef. cbn [full set_full].
    now apply Hb.
Qed.



End Kept.

(** C10. A call of [walk] that returns has left every byte of the path
    buffer before the position it was given as it found it: what the parent
    wrote is still there for the subtrees that follow. *)
Theorem walk_preserves_path_prefix (localtime : Z -> tm) (g : globals)
    (m : memory) (fuel : nat) (st st' : state) (path key : Z) :
  walk localtime g m fuel st path key = Done st' ->
  forall j, j < path -> full st' j = full st j.
Proof. intros H. apply (walk_kept localtime g m fuel st path key st' H). Qed.

Lemma walk_preserves_path_prefix_witness :
  walk utc no_flags tree_hive 1 in_properties 16 (cell 13) =
    Done (final (walk utc no_flags tree_hive 1 in_properties 16 (cell 13)))
  /\ full (final (walk utc no_flags tree_hive 1 in_properties 16 (cell 13))) 15 =
     full in_properties 15.
Proof.
  assert (E : walk utc no_flags tree_hive 1 in_properties 16 (cell 13) =
              Done (final (walk utc no_flags tree_hive 1 in_properties 16 (cell 13))))
    by (vm_compute; reflexivity).
  split; [exact E|].
  apply (walk_preserves_path_prefix _ _ _ _ _ _ _ _ E). lia.
Defined.

(** The same for the loop over the subkeys: each call starts from the
    prefix the first one started from. *)
Lemma walk_cells_preserves_path_prefix (localtime : Z -> tm) (g : globals)
    (m : memory) (fuel : nat) (cells : list Z) (st st' : state) (path : Z) :
  walk_cells (walk localtime g m fuel) cells st path = Done st' ->
  forall j, j < path -> full st' j = full st j.
Proof.
  intros H.
  apply (walk_cells_kept (walk localtime g m fuel) path
           (fun s k s' => walk_kept localtime g m fuel s path k s') cells st st' H).
Qed.

Lemma state_eq (s : state) (p d : bool) (f : buffer) (o : string) :
  properties s = p -> driverpackages s = d -> full s = f -> stdout s = o ->
  s = mk_state p d f o.
Proof. destruct s; cbn; intros; subst; reflexivity. Qed.

(** What [enter_key] does to the two flags, and what it remembers. *)
Lemma enter_key_flags (m : memory) (st : state) (key : Z) :
  properties (fst (enter_key m st key)) =
    properties st || name_is m "Properties" key
  /\ driverpackages (fst (enter_key m st key)) =
       driverpackages st || name_is m "DriverPackages" key
  /\ (snd (enter_key m st key) = Some Properties <->
      properties st = false /\ name_is m "Properties" key = true)
  /\ (snd (enter_key m st key) = Some DriverPackages <->
      driverpackages st = false /\ name_is m "DriverPackages" key = true).
Proof.
  unfold enter_key.
  pose proof (name_is_exclusive m key) as Hx.
  destruct st as [p d f o]. cbn [properties driverpackages].
  destruct p, d, (name_is m "Properties" key), (name_is m "DriverPackages" key);
    cbn [negb fst snd properties driverpackages orb];
    try (specialize (Hx eq_refl); discriminate);
    repeat split; intros; try reflexivity; try discriminate;
    match goal with
    | H : _ /\ _ |- _ => destruct H; discriminate
    end.
Qed.

(** C7. The two flags of the special subtrees.  On entering a key, each
    flag is set exactly when it was not set and the name of the key is the
    10 bytes [Properties], respectively the 14 bytes [DriverPackages], and
    [leave_key] remembers the flag only in that case: a key of that name
    met while the flag is set changes nothing and remembers nothing.  On
    return the remembered flag, and no other, is cleared.  This is what
    [walk] does with them: the values of the key are printed, and its
    subkeys walked, with each flag as the caller had it or set by the name
    of the key, every value taking its type from the two flags as they are
    then; and the call returns with both flags as the caller had them, set
    for the rest of the subtree when a nested call returns, clear when the
    call that set it returns.  In keys-only mode the flags are not
    touched. *)
Theorem special_subtree_flags (localtime : Z -> tm) (g : globals) (m : memory) :
  (forall key,
      (name_is m "Properties" key = true <->
       key_len m key = 10
       /\ read_bytes m (key_name key) 10 = ascii_bytes "Properties")
      /\ (name_is m "DriverPackages" key = true <->
          key_len m key = 14
          /\ read_bytes m (key_name key) 14 = ascii_bytes "DriverPackages"))
  /\ (forall st key,
         properties (fst (enter_key m st key)) =
           properties st || name_is m "Properties" key
         /\ driverpackages (fst (enter_key m st key)) =
              driverpackages st || name_is m "DriverPackages" key
         /\ (snd (enter_key m st key) = Some Properties <->
             properties st = false /\ name_is m "Properties" key = true)
         /\ (snd (enter_key m st key) = Some DriverPackages <->
             driverpackages st = false /\ name_is m "DriverPackages" key = true))
  /\ (forall st,
         leave None st = st
         /\ properties (leave (Some Properties) st) = false
         /\ driverpackages (leave (Some Properties) st) = driverpackages st
         /\ driverpackages (leave (Some DriverPackages) st) = false
         /\ properties (leave (Some DriverPackages) st) = properties st)
  /\ (forall fuel st path key st',
         walk localtime g m fuel st path key = Done st' ->
         properties st' = properties st
         /\ driverpackages st' = driverpackages st)
  /\ (forall fuel st path key,
         only_keys g = false ->
         let r :=
           make_name (store (full st) path (code "/")) (path + 1) m (key_name key)
             (key_len m key) (Z.land (key_flags m key) KEY_COMP_NAME) in
         let inside :=
           mk_state (properties st || name_is m "Properties" key)
             (driverpackages st || name_is m "DriverPackages" key)
             (fst r) (stdout st) in
         walk localtime g m (S fuel) st path key =
         (st1 <- print_values localtime g m (Z.to_nat (key_value_count m key)) 0
                   inside (snd r) key ;;
          st2 <- (if key_subkeys m key =? -1 then Done st1
                  else walk_cells (walk localtime g m fuel)
                         (subkey_cells m (key_subkeys m key + root)) st1 (snd r)) ;;
          let empty_key :=
            (key_value_count m key =? 0)
            && ((key_subkeys m key =? -1)
                || (list_count m (key_subkeys m key + root) =? 0)) in
          let st3 :=
            if empty_key && negb (only_values g)
            then print st2 (key_line localtime g m key (full st2)) else st2 in
          Done (mk_state (properties st) (driverpackages st) (full st3)
                  (stdout st3))))
  /\ (forall st path key val st',
         print_value localtime g m st path key val = Done st' ->
         exists data,
           materialize g m val (logical_size m val) = Done data
           /\ properties st' = properties st
           /\ driverpackages st' = driverpackages st
           /\ stdout st' =
              stdout st ++
              value_header localtime g m (value_path m (full st) path val) key val ++
              render localtime g (properties st)
                (effective_type (properties st) (driverpackages st)
                   (val_value_type m val))
                (logical_size m val)
                (bintext_of
                   (effective_type (properties st) (driverpackages st)
                      (val_value_type m val))
                   (logical_size m val) data)
                data ++ nl)
  /\ (forall fuel st path key,
         only_keys g = true ->
         let r :=
           make_name (store (full st) path (code "/")) (path + 1) m (key_name key)
             (key_len m key) (Z.land (key_flags m key) KEY_COMP_NAME) in
         let st1 :=
           print (set_full st (fst r))
             (print_time localtime (key_timestamp m key) (time_full g) true ++
              full_string (fst r) ++ nl) in
         walk localtime g m (S fuel) st path key =
         if key_subkeys m key =? -1 then Done st1
         else walk_cells (walk localtime g m fuel)
                (subkey_cells m (key_subkeys m key + root)) st1 (snd r)).
Proof.
  assert (Hname : forall s key,
             name_is m s key = true <->
             key_len m key = Z.of_nat (String.length s)
             /\ read_bytes m (key_name key) (String.length s) = ascii_bytes s).
  { intros s key. unfold name_is, ascii_bytes.
    rewrite andb_true_iff, Z.eqb_eq.
    assert (Hl : List.length (read_bytes m (key_name key) (String.length s)) =
                 List.length (map code (list_ascii_of_string s))).
    { rewrite length_codes. generalize (key_name key).
      induction (String.length s) as [|n IH]; intros a; cbn; [reflexivity|].
      now rewrite IH. }
    revert Hl. generalize (read_bytes m (key_name key) (String.length s)).
    generalize (map code (list_ascii_of_string s)).
    intros l1. induction l1 as [|x l1 IH]; intros [|y l2] Hl; try discriminate.
    - cbn. tauto.
    - cbn [combine forallb fst snd]. rewrite andb_true_iff, Z.eqb_eq.
      injection Hl as Hl. specialize (IH l2 Hl).
      split.
      + intros (Hk & -> & Hr). split; [exact Hk|]. f_equal. apply IH. tauto.
      + intros (Hk & E). injection E as -> ->. repeat split; try assumption.
        apply IH. tauto. }
  split; [|split; [|split; [|split; [|split; [|split]]]]].
  - intros key. split; [apply (Hname "Properties")|apply (Hname "DriverPackages")].
  - intros st key. apply enter_key_flags.
  - intros st. repeat split.
  - intros fuel st path key st' H.
    destruct (walk_kept localtime g m fuel st path key st' H) as (P & D & _).
    split; assumption.
  - intros fuel st path key Hk r inside. cbn [walk]. fold r.
    destruct r as [b path'] eqn:Er. cbn [fst snd] in inside |- *. rewrite Hk.
    destruct (enter_key_leave m (set_full st b) key) as (Ef & Eo & El).
    destruct (enter_key_flags m (set_full st b) key) as (Pe & De & _).
    destruct (enter_key m (set_full st b) key) as [st0 lk].
    cbn [fst snd properties driverpackages full stdout set_full] in Ef, Eo, El, Pe, De.
    assert (E0 : st0 = inside) by (apply state_eq; assumption).
    subst st0.
    destruct (print_values localtime g m (Z.to_nat (key_value_count m key)) 0 inside
                path' key) as [st1| |] eqn:Epv; cbn [bind]; try reflexivity.
    apply print_values_kept in Epv. destruct Epv as (P1 & D1 & _).
    assert (Hend : forall (e : bool) (st2 : state),
               properties st2 = properties inside ->
               driverpackages st2 = driverpackages inside ->
               leave lk (if e then print st2 (key_line localtime g m key (full st2))
                         else st2) =
               mk_state (properties st) (driverpackages st)
                 (full (if e then print st2 (key_line localtime g m key (full st2))
                        else st2))
                 (stdout (if e then print st2 (key_line localtime g m key (full st2))
                          else st2))).
    { intros e st2 P2 D2.
      destruct (El (if e then print st2 (key_line localtime g m key (full st2))
                    else st2)
                  ltac:(destruct e; exact P2) ltac:(destruct e; exact D2))
        as (Pl & Dl & Fl & Ol).
      apply state_eq; assumption. }
    destruct (key_subkeys m key =? -1); cbn [bind orb].
    + rewrite andb_true_r. f_equal. apply Hend; assumption.
    + destruct (walk_cells (walk localtime g m fuel)
                  (subkey_cells m (key_subkeys m key + root)) st1 path')
        as [st2| |] eqn:Ewc; cbn [bind]; try reflexivity.
      apply (walk_cells_kept (walk localtime g m fuel) path'
               (fun s k s' => walk_kept localtime g m fuel s path' k s')) in Ewc.
      destruct Ewc as (P2 & D2 & _).
      replace (if list_count m (key_subkeys m key + root) =? 0
               then key_value_count m key =? 0 else false)
        with ((key_value_count m key =? 0)
              && (list_count m (key_subkeys m key + root) =? 0))
        by (destruct (key_value_count m key =? 0),
                     (list_count m (key_subkeys m key + root) =? 0); reflexivity).
      f_equal. apply Hend; congruence.
  - intros st path key val st' H. unfold print_value in H.
    apply bind_done in H as (data & Hm & H). injection H as <-.
    exists data. split; [exact Hm|]. split; [reflexivity|]. split; [reflexivity|].
    cbn [stdout properties driverpackages print set_full].
    now rewrite append_assoc.
  - intros fuel st path key Hk r st1. cbn [walk]. fold r.
    destruct r as [b path'] eqn:Er. cbn [fst snd] in st1 |- *. rewrite Hk.
    cbn [bind]. fold st1.
    destruct (key_subkeys m key =? -1); cbn [bind andb leave]; [reflexivity|].
    destruct (walk_cells (walk localtime g m fuel)
                (subkey_cells m (key_subkeys m key + root)) st1 path');
      cbn [bind]; [|reflexivity|reflexivity].
    destruct (list_count m (key_subkeys m key + root) =? 0);
      cbn [andb leave]; reflexivity.
Qed.

(** The walk of [tree_hive] from its root cell, without options. *)
Abbreviation tree_walk :=
  (walk utc no_flags tree_hive 4 (initial_state path0) 0 (cell 0)).

(** The walk of [packages_hive] from its root cell, without options. *)
Abbreviation packages_walk :=
  (walk utc no_flags packages_hive 4 (initial_state path0) 0 (cell 0)).

Lemma special_subtree_flags_witness :
  tree_walk = Done (final tree_walk)
  /\ (properties (final tree_walk) = properties (initial_state path0)
      /\ driverpackages (final tree_walk) = driverpackages (initial_state path0))
  /\ stdout (final tree_walk) =
     "/ROOT/dw1 [4:4] = 0x12345678 (305419896)" ++ nl ++
     "/ROOT/@ [7:10] = A<>B" ++ nl ++
     "/ROOT/ft [3:8] = 2001-01-01 00:00:00 (00,C0,9D,C8,85,73,C0,01)" ++ nl ++
     "/ROOT/Properties/n [-65530:4] = 0x2A (42)" ++ nl ++
     "/ROOT/Properties/Properties/n [-65530:4] = 0x2A (42)" ++ nl ++
     "/ROOT/Properties/Sibling/n [-65530:4] = 0x2A (42)" ++ nl ++
     "/ROOT/A<1234>/n [-65530:4] = 2A,00,00,00" ++ nl
  /\ packages_walk = Done (final packages_walk)
  /\ (properties (final packages_walk) = properties (initial_state path0)
      /\ driverpackages (final packages_walk) =
         driverpackages (initial_state path0))
  /\ name_is packages_hive "DriverPackages" (cell 2) = true
  /\ stdout (final packages_walk) =
     "/ROOT/DriverPackages/s [65537:6] = Hi" ++ nl ++
     "/ROOT/DriverPackages/DriverPackages/s [65537:6] = Hi" ++ nl ++
     "/ROOT/DriverPackages/Properties/n [-65529:4] = 0x2A (42)" ++ nl ++
     "/ROOT/Other/s [65537:6] = 48,00,69,00,00,00" ++ nl.
Proof.
  assert (E : tree_walk = Done (final tree_walk)) by (vm_compute; reflexivity).
  assert (E' : packages_walk = Done (final packages_walk))
    by (vm_compute; reflexivity).
  split; [exact E|]. split; [|split; [|split; [exact E'|split; [|split]]]].
  - exact (proj1 (proj2 (proj2 (proj2 (special_subtree_flags utc no_flags tree_hive))))
             4%nat (initial_state path0) 0 (cell 0) (final tree_walk) E).
  - vm_compute. reflexivity.
  - exact (proj1 (proj2 (proj2 (proj2
                    (special_subtree_flags utc no_flags packages_hive))))
             4%nat (initial_state path0) 0 (cell 0) (final packages_walk) E').
  - vm_compute. reflexivity.
  - vm_compute. reflexivity.
Defined.

(** ** Lines of output *)

Lemma line_count_app (a b : string) :
  line_count (a ++ b) = (line_count a + line_count b)%nat.
Proof. induction a as [|c a IH]; cbn; [reflexivity|rewrite IH; lia]. Qed.

Lemma chr_newline (c : Z) :
  Ascii.eqb (chr c) (ascii_of_N 10) = false <-> c mod 256 <> 10.
Proof.
  unfold chr. pose proof (Z.mod_pos_bound c 256 eq_refl) as Hc.
  rewrite Ascii.eqb_neq. split.
  - intros Hne E. apply Hne. rewrite E. reflexivity.
  - intros Hne E. apply Hne.
    apply (f_equal N_of_ascii) in E.
    rewrite !N_ascii_embedding in E by lia. lia.
Qed.

Lemma line_count_digits (fuel : nat) :
  forall n acc, line_count (digits fuel 10 n acc) = line_count acc.
Proof.
  induction fuel as [|fuel IH]; intros n acc; cbn [digits]; [reflexivity|].
  assert (Hd : line_count (String (digit_char (n mod 10)) acc) = line_count acc).
  { cbn [line_count]. pose proof (Z.mod_pos_bound n 10 eq_refl) as Hm.
    unfold digit_char. destruct (Z.ltb_spec (n mod 10) 10); [|lia].
    rewrite (proj2 (chr_newline _)); [reflexivity|].
    rewrite Z.mod_small by lia. lia. }
  destruct (n <? 10); [exact Hd|]. rewrite IH. exact Hd.
Qed.

Lemma line_count_zeros (n : nat) : line_count (zeros n) = 0%nat.
Proof. induction n as [|n IH]; cbn; [reflexivity|exact IH]. Qed.

Lemma line_count_spaces (n : nat) : line_count (spaces n) = 0%nat.
Proof. induction n as [|n IH]; cbn; [reflexivity|exact IH]. Qed.

Lemma line_count_fmt_d (width n : Z) : line_count (fmt_d width n) = 0%nat.
Proof.
  unfold fmt_d, pad0.
  destruct (n <? 0); rewrite ?line_count_app, line_count_zeros, line_count_digits;
    reflexivity.
Qed.

Lemma line_count_print_time (localtime : Z -> tm) (t : Z) (full brackets : bool) :
  line_count (print_time localtime t full brackets) = 0%nat.
Proof.
  unfold print_time. rewrite !line_count_app, !line_count_fmt_d.
  destruct full, brackets; rewrite ?line_count_app, ?line_count_fmt_d; reflexivity.
Qed.

(** A C string without newline up to its NUL prints without newline. *)
Lemma line_count_cstring (b : buffer) (e : Z) (fuel : nat) :
  forall i, i <= e -> (forall j, i <= j < e -> b j mod 256 <> 10) ->
            b e mod 256 = 0 -> line_count (cstring fuel b i) = 0%nat.
Proof.
  induction fuel as [|fuel IH]; intros i Hi Hb He; cbn [cstring]; [reflexivity|].
  destruct (Z.eqb_spec (b i mod 256) 0) as [E|E]; [reflexivity|].
  assert (i < e) by (destruct (Z.eq_dec i e); [congruence|lia]).
  cbn [line_count]. rewrite (proj2 (chr_newline _)) by (apply Hb; lia).
  apply IH; [lia| |exact He]. intros j Hj. apply Hb. lia.
Qed.

Lemma buf_read_nth (b : buffer) (n : nat) :
  forall i l, buf_read b i n = l ->
              forall k, (k < n)%nat -> b (i + Z.of_nat k) = nth k l 0.
Proof.
  induction n as [|n IH]; intros i l E k Hk; [lia|].
  cbn [buf_read] in E. subst l. destruct k as [|k].
  - cbn. f_equal. lia.
  - cbn [nth]. rewrite <- (IH (i + 1) _ eq_refl k) by lia. f_equal. lia.
Qed.

Lemma hex_digit_no_newline (d : Z) : hex_digit d mod 256 <> 10.
Proof.
  unfold hex_digit.
  destruct (nth_in_or_default (Z.to_nat d) (ascii_bytes "0123456789ABCDEF") 0)
    as [Hin|Hd]; [|rewrite Hd; discriminate].
  revert Hin. generalize (nth (Z.to_nat d) (ascii_bytes "0123456789ABCDEF") 0).
  intros x Hin. cbv in Hin.
  repeat (destruct Hin as [<-|Hin]; [discriminate|]). contradiction.
Qed.

Lemma escape_byte_no_newline (c x : Z) : In x (escape_byte c) -> x mod 256 <> 10.
Proof.
  unfold escape_byte. destruct ((32 <=? c) && (c <=? 126)) eqn:Hp.
  - apply andb_true_iff in Hp as [H1 H2]. apply Z.leb_le in H1, H2.
    intros [<-|[]]. rewrite Z.mod_small; lia.
  - intros [<-|[<-|[<-|[<-|[]]]]];
      try apply hex_digit_no_newline; discriminate.
Qed.

Lemma escape_unit_no_newline (c x : Z) : In x (escape_unit c) -> x mod 256 <> 10.
Proof.
  unfold escape_unit. destruct ((32 <=? c) && (c <=? 126)) eqn:Hp.
  - apply andb_true_iff in Hp as [H1 H2]. apply Z.leb_le in H1, H2.
    intros [<-|[]]. rewrite Z.mod_small; lia.
  - destruct (c <? 256).
    + intros [<-|[<-|[<-|[<-|[]]]]];
        try apply hex_digit_no_newline; discriminate.
    + intros [<-|[<-|[<-|[<-|[<-|[<-|[]]]]]]];
        try apply hex_digit_no_newline; discriminate.
Qed.

Lemma decoded_name_no_newline (m : memory) (inp len comp x : Z) :
  In x (decoded_name m inp len comp) -> x mod 256 <> 10.
Proof.
  unfold decoded_name. destruct (comp =? 0); intros H;
    apply in_flat_map in H as (c & _ & H).
  - eapply escape_unit_no_newline, H.
  - eapply escape_byte_no_newline, H.
Qed.

(** The path [walk] prints for a key has no newline when the part of the
    path it was given has none. *)
Lemma key_path_no_newline (m : memory) (b0 : buffer) (path key : Z) :
  0 <= path ->
  (forall j, 0 <= j < path -> b0 j mod 256 <> 10) ->
  line_count
    (full_string
       (fst (make_name (store b0 path (code "/")) (path + 1) m (key_name key)
               (key_len m key) (Z.land (key_flags m key) KEY_COMP_NAME)))) = 0%nat.
Proof.
  intros Hp Hb0.
  destruct (make_name_writes (store b0 path (code "/")) (path + 1) m (key_name key)
              (key_len m key) (Z.land (key_flags m key) KEY_COMP_NAME))
    as ([F R] & E & N).
  set (r := make_name (store b0 path (code "/")) (path + 1) m (key_name key)
              (key_len m key) (Z.land (key_flags m key) KEY_COMP_NAME)) in *.
  set (text := decoded_name m (key_name key) (key_len m key)
                 (Z.land (key_flags m key) KEY_COMP_NAME)) in *.
  unfold full_string.
  apply (line_count_cstring (fst r) (snd r)); [lia| |rewrite N; reflexivity].
  intros j Hj.
  destruct (Z.lt_ge_cases j (path + 1)) as [Hlt|Hge].
  - rewrite F by exact Hlt. unfold store.
    destruct (Z.eqb_spec j path); [discriminate|]. apply Hb0. lia.
  - replace j with (path + 1 + Z.of_nat (Z.to_nat (j - (path + 1)))) by lia.
    rewrite (buf_read_nth _ _ _ _ R) by lia.
    apply (decoded_name_no_newline m (key_name key) (key_len m key)
             (Z.land (key_flags m key) KEY_COMP_NAME)).
    apply nth_In. fold text. lia.
Qed.

Lemma line_count_key_line (localtime : Z -> tm) (g : globals) (m : memory)
    (key : Z) (b : buffer) :
  line_count (full_string b) = 0%nat ->
  line_count (key_line localtime g m key b) = 1%nat.
Proof.
  intros H. unfold key_line.
  rewrite !line_count_app, H.
  destruct (time_sec g || time_full g), (hex_type g);
    rewrite ?line_count_print_time, ?line_count_spaces; reflexivity.
Qed.

(** ** The bounds of the path array *)

Lemma store_str_above (s : string) :
  forall b out j,
    out + Z.of_nat (String.length s) < j -> store_str b out s j = b j.
Proof.
  induction s as [|c s IH]; intros b out j Hj; cbn [store_str String.length] in *.
  - apply store_other. lia.
  - rewrite IH by lia. apply store_other. lia.
Qed.

Lemma make_name_comp_above (m : memory) (n : nat) :
  forall uc b out j,
    snd (make_name_comp n m uc b out) < j ->
    fst (make_name_comp n m uc b out) j = b j.
Proof.
  induction n as [|n IH]; intros uc b out j Hj; [reflexivity|].
  cbn [make_name_comp] in Hj |- *.
  destruct (printable (u8 m uc)).
  - pose proof (proj2 (make_name_comp_writes m n (uc + 1) (store b out (u8 m uc))
                         (out + 1))) as E.
    rewrite IH by exact Hj. apply store_other. lia.
  - unfold sprintf in Hj |- *.
    set (s := "<" ++ fmt_X 2 (u8 m uc) ++ ">") in *.
    pose proof (proj2 (make_name_comp_writes m n (uc + 1) (store_str b out s)
                         (out + Z.of_nat (String.length s)))) as E.
    rewrite IH by exact Hj. apply store_str_above. lia.
Qed.

Lemma make_name_wide_above (m : memory) (n : nat) :
  forall us b out j,
    snd (make_name_wide n m us b out) < j ->
    fst (make_name_wide n m us b out) j = b j.
Proof.
  induction n as [|n IH]; intros us b out j Hj; [reflexivity|].
  cbn [make_name_wide] in Hj |- *.
  destruct (printable (u16 m us)).
  - pose proof (proj2 (make_name_wide_writes m n (us + 2)
                         (store b out (wrap 8 (u16 m us))) (out + 1))) as E.
    rewrite IH by exact Hj. apply store_other. lia.
  - unfold sprintf in Hj |- *.
    set (s := "<" ++ fmt_X (if u16 m us <? 256 then 2 else 4) (u16 m us) ++ ">") in *.
    pose proof (proj2 (make_name_wide_writes m n (us + 2) (store_str b out s)
                         (out + Z.of_nat (String.length s)))) as E.
    rewrite IH by exact Hj. apply store_str_above. lia.
Qed.

(** [make_name] writes nothing after the NUL it ends with. *)
Lemma make_name_above (b : buffer) (out : Z) (m : memory) (inp len comp : Z) :
  forall j,
    snd (make_name b out m inp len comp) < j ->
    fst (make_name b out m inp len comp) j = b j.
Proof.
  intros j. unfold make_name. destruct (comp =? 0).
  - pose proof (make_name_wide_above m (Z.to_nat (Z.quot len 2)) inp b out j) as H.
    destruct (make_name_wide (Z.to_nat (Z.quot len 2)) m inp b out) as [b' out'].
    cbn [fst snd] in *. intros Hj. rewrite store_other by lia. now apply H.
  - pose proof (make_name_comp_above m (Z.to_nat len) inp b out j) as H.
    destruct (make_name_comp (Z.to_nat len) m inp b out) as [b' out'].
    cbn [fst snd] in *. intros Hj. rewrite store_other by lia. now apply H.
Qed.

(** A name written at [path] that ends inside the array leaves what is
    after the array alone. *)
Lemma name_within (b : buffer) (path : Z) (m : memory) (inp len comp : Z) :
  0 <= path ->
  path + 1 + Z.of_nat (List.length (decoded_name m inp len comp)) < 0x4000 ->
  snd (make_name (store b path (code "/")) (path + 1) m inp len comp) < 0x4000
  /\ forall j,
       0x4000 <= j ->
       fst (make_name (store b path (code "/")) (path + 1) m inp len comp) j = b j.
Proof.
  intros Hp Hfit.
  destruct (make_name_writes (store b path (code "/")) (path + 1) m inp len comp)
    as (_ & E & _).
  split; [lia|]. intros j Hj.
  rewrite make_name_above by lia. apply store_other. lia.
Qed.

(** C8. A key without values and without subkeys.  When not in keys-only
    mode, and when the path of the key with its NUL fits the [0x4000]
    bytes of the array [main] gives, the call of [walk] for it returns,
    having printed the line of the empty key and nothing else, or nothing
    at all in values-only mode, and having written nothing outside the
    array; the line is one line (it ends with its only newline) when the
    path the call was given has no newline in it; for the call of [main],
    at position 0, that asks nothing. *)
Theorem empty_key_line (localtime : Z -> tm) (g : globals) (m : memory)
    (fuel : nat) (st : state) (path key : Z) :
  key_value_count m key = 0 ->
  key_subkeys m key = -1 \/ list_count m (key_subkeys m key + root) = 0 ->
  only_keys g = false ->
  0 <= path ->
  path + 1 +
  Z.of_nat (List.length (decoded_name m (key_name key) (key_len m key)
                           (Z.land (key_flags m key) KEY_COMP_NAME))) < 0x4000 ->
  let b :=
    fst (make_name (store (full st) path (code "/")) (path + 1) m (key_name key)
           (key_len m key) (Z.land (key_flags m key) KEY_COMP_NAME)) in
  let line :=
    (if time_sec g || time_full g then
       print_time localtime (key_timestamp m key) (time_full g) true
     else "") ++
    (if hex_type g then spaces 20 else "") ++ full_string b ++ nl in
  walk localtime g m (S fuel) st path key =
    Done (mk_state (properties st) (driverpackages st) b
            (stdout st ++ if only_values g then "" else line))
  /\ (forall j, 0x4000 <= j -> b j = full st j)
  /\ ((forall j, 0 <= j < path -> full st j mod 256 <> 10) ->
      line_count line = 1%nat)
  /\ line_count "" = 0%nat.
Proof.
  intros Hv Hs Hk Hp Hfit b line.
  split; [|split; [|split; [|reflexivity]]].
  - cbn [walk]. fold b.
    destruct (make_name (store (full st) path (code "/")) (path + 1) m (key_name key)
                (key_len m key) (Z.land (key_flags m key) KEY_COMP_NAME))
      as [b' path'] eqn:Emn.
    cbn [fst] in b. subst b. rewrite Hk.
    destruct (enter_key_leave m (set_full st b') key) as (Ef & Eo & El).
    destruct (enter_key m (set_full st b') key) as [st1 lk].
    cbn [fst snd] in Ef, Eo, El.
    rewrite Hv. change (Z.to_nat 0) with 0%nat. cbn [print_values bind].
    change (0 =? 0) with true.
    assert (Hc : (if key_subkeys m key =? -1 then Done (st1, true)
                  else
                    st0 <- walk_cells (walk localtime g m fuel)
                             (subkey_cells m (key_subkeys m key + root)) st1 path' ;;
                    Done (st0,
                          if list_count m (key_subkeys m key + root) =? 0
                          then true else false)) = Done (st1, true)).
    { destruct (key_subkeys m key =? -1) eqn:E1; [reflexivity|].
      destruct Hs as [Hs|Hs]; [rewrite Hs in E1; discriminate|].
      unfold subkey_cells, leaf_cells. rewrite Hs.
      change (Z.to_nat 0) with 0%nat. cbn [list_cells index_cells].
      destruct (block_type m (key_subkeys m key + root) 0 =? code "l"); reflexivity. }
    rewrite Hc. cbn [bind andb]. f_equal.
    destruct (only_values g); cbn [negb].
    + destruct (El st1 eq_refl eq_refl) as (P & D & F & O).
      apply state_eq; [exact P|exact D|now rewrite F, Ef|].
      rewrite O, Eo. cbn [stdout set_full]. now rewrite append_nil_r.
    + destruct (El (print st1 (key_line localtime g m key (full st1)))
                  eq_refl eq_refl) as (P & D & F & O).
      apply state_eq; [exact P|exact D|rewrite F; cbn [full print]; now rewrite Ef|].
      rewrite O. cbn [stdout print]. rewrite Eo, Ef. reflexivity.
  - apply (name_within (full st) path m (key_name key) (key_len m key)
             (Z.land (key_flags m key) KEY_COMP_NAME) Hp Hfit).
  - intros Hb. apply (line_count_key_line localtime g m key b).
    apply key_path_no_newline; assumption.
Qed.

Lemma empty_key_line_witness :
  (walk utc no_flags keys_hive 1 in_R 2 (cell 4) =
     Done (mk_state (properties in_R) (driverpackages in_R)
             (fst (make_name (store (full in_R) 2 (code "/")) (2 + 1) keys_hive
                     (key_name (cell 4)) (key_len keys_hive (cell 4))
                     (Z.land (key_flags keys_hive (cell 4)) KEY_COMP_NAME)))
             (stdout in_R ++
              (if only_values no_flags then ""
               else
                 (if time_sec no_flags || time_full no_flags then
                    print_time utc (key_timestamp keys_hive (cell 4))
                      (time_full no_flags) true
                  else "") ++
                 (if hex_type no_flags then spaces 20 else "") ++
                 full_string
                   (fst (make_name (store (full in_R) 2 (code "/")) (2 + 1) keys_hive
                           (key_name (cell 4)) (key_len keys_hive (cell 4))
                           (Z.land (key_flags keys_hive (cell 4)) KEY_COMP_NAME)))
                 ++ nl))))
  /\ (forall j,
        0x4000 <= j ->
        fst (make_name (store (full in_R) 2 (code "/")) (2 + 1) keys_hive
               (key_name (cell 4)) (key_len keys_hive (cell 4))
               (Z.land (key_flags keys_hive (cell 4)) KEY_COMP_NAME)) j =
        full in_R j)
  /\ stdout (final (walk utc no_flags keys_hive 1 in_R 2 (cell 4))) = "/R/A" ++ nl
  /\ stdout (final (walk utc flag_v keys_hive 1 in_R 2 (cell 4))) = "".
Proof.
  assert (H := empty_key_line utc no_flags keys_hive 0 in_R 2 (cell 4)
                 eq_refl (or_introl eq_refl) eq_refl ltac:(lia)
                 ltac:(vm_compute; reflexivity)).
  cbv zeta in H. destruct H as (H1 & H2 & _).
  split; [exact H1|]. split; [exact H2|].
  split; vm_compute; reflexivity.
Defined.

(** ** The subkey lists *)

Lemma list_cells_map (m : memory) (item ii : Z) (n : nat) :
  forall i, list_cells m n i item ii =
            map (fun k => list_offsets m item (k * ii) + root) (zrange i n).
Proof.
  induction n as [|n IH]; intros i; cbn [list_cells zrange map]; [reflexivity|].
  now rewrite IH.
Qed.

Lemma index_cells_flat_map (m : memory) (item : Z) (n : nat) :
  forall i, index_cells m n i item =
            flat_map (fun k => leaf_cells m (list_offsets m item k + root))
              (zrange i n).
Proof.
  induction n as [|n IH]; intros i; cbn [index_cells zrange flat_map]; [reflexivity|].
  now rewrite IH.
Qed.

Lemma flat_map_of_map {A B C : Type} (f : B -> list C) (h : A -> B) (l : list A) :
  flat_map f (map h l) = flat_map (fun x => f (h x)) l.
Proof. induction l as [|x l IH]; cbn; [reflexivity|now rewrite IH]. Qed.

Lemma leaf_cells_entries (m : memory) (item : Z) :
  leaf_cells m item = entries m item (stride m item).
Proof.
  unfold leaf_cells, entries. rewrite list_cells_map.
  apply map_ext. intros k. unfold list_offsets. do 2 f_equal. lia.
Qed.

Lemma bind_bind {A B C : Type} (c : outcome A) (k : A -> outcome B)
    (h : B -> outcome C) :
  bind (bind c k) h = bind c (fun a => bind (k a) h).
Proof. destruct c; reflexivity. Qed.

(** C5, as the program has it.  The list cell of a key is read by its tag.
    When the tag starts with [l], the cell is a leaf list: its [count]
    entries are read with a stride of 1 [int] when the second character is
    [i] (the bare offsets of [li]) and of 2 [int]s otherwise (the offset
    and hash pairs of [lf] and [lh]).  Any other cell is read as an [ri]
    list: its entries, with stride 1, are lists, each read as a leaf list
    by its own second character.  [walk] calls itself on the cells so
    found, in this order. *)
Theorem subkey_list_traversal (localtime : Z -> tm) (g : globals) (m : memory) :
  (forall item,
      block_type m item 1 = code "i" -> leaf_cells m item = entries m item 1)
  /\ (forall item,
         block_type m item 1 <> code "i" -> leaf_cells m item = entries m item 2)
  /\ (forall item,
         block_type m item 0 = code "l" -> subkey_cells m item = leaf_cells m item)
  /\ (forall item,
         block_type m item 0 <> code "l" ->
         subkey_cells m item = flat_map (leaf_cells m) (entries m item 1))
  /\ (forall fuel st path key,
         only_keys g = true -> key_subkeys m key <> -1 ->
         let b :=
           fst (make_name (store (full st) path (code "/")) (path + 1) m (key_name key)
                  (key_len m key) (Z.land (key_flags m key) KEY_COMP_NAME)) in
         let path' :=
           snd (make_name (store (full st) path (code "/")) (path + 1) m (key_name key)
                  (key_len m key) (Z.land (key_flags m key) KEY_COMP_NAME)) in
         walk localtime g m (S fuel) st path key =
           walk_cells (walk localtime g m fuel)
             (subkey_cells m (key_subkeys m key + root))
             (print (set_full st b)
                (print_time localtime (key_timestamp m key) (time_full g) true
                 ++ full_string b ++ nl))
             path')
  /\ (forall fuel st path key st',
         only_keys g = false -> key_subkeys m key <> -1 ->
         walk localtime g m (S fuel) st path key = Done st' ->
         let b :=
           fst (make_name (store (full st) path (code "/")) (path + 1) m (key_name key)
                  (key_len m key) (Z.land (key_flags m key) KEY_COMP_NAME)) in
         let path' :=
           snd (make_name (store (full st) path (code "/")) (path + 1) m (key_name key)
                  (key_len m key) (Z.land (key_flags m key) KEY_COMP_NAME)) in
         exists st1 st2,
           print_values localtime g m (Z.to_nat (key_value_count m key)) 0
             (fst (enter_key m (set_full st b) key)) path' key = Done st1
           /\ walk_cells (walk localtime g m fuel)
                (subkey_cells m (key_subkeys m key + root)) st1 path' = Done st2
           /\ full st' = full st2).
Proof.
  split; [|split; [|split; [|split; [|split]]]].
  - intros item H. rewrite leaf_cells_entries. unfold stride. now rewrite H.
  - intros item H. rewrite leaf_cells_entries. unfold stride.
    destruct (Z.eqb_spec (block_type m item 1) (code "i")); [contradiction|reflexivity].
  - intros item H. unfold subkey_cells. now rewrite H.
  - intros item H. unfold subkey_cells.
    destruct (Z.eqb_spec (block_type m item 0) (code "l")); [contradiction|].
    rewrite index_cells_flat_map. unfold entries. rewrite flat_map_of_map.
    apply flat_map_ext. intros k. unfold list_offsets. do 3 f_equal; lia.
  - intros fuel st path key Hk Hs b path'. cbn [walk].
    subst b path'.
    destruct (make_name (store (full st) path (code "/")) (path + 1) m (key_name key)
                (key_len m key) (Z.land (key_flags m key) KEY_COMP_NAME))
      as [b path'].
    cbn [fst snd]. rewrite Hk. cbn [bind].
    destruct (Z.eqb_spec (key_subkeys m key) (-1)); [contradiction|].
    rewrite bind_bind.
    match goal with
    | |- bind ?c _ = _ => destruct c
    end; cbn [bind]; [|reflexivity|reflexivity].
    destruct (list_count m (key_subkeys m key + root) =? 0); reflexivity.
  - intros fuel st path key st' Hk Hs H b path'. cbn [walk] in H.
    subst b path'.
    destruct (make_name (store (full st) path (code "/")) (path + 1) m (key_name key)
                (key_len m key) (Z.land (key_flags m key) KEY_COMP_NAME))
      as [b path'].
    cbn [fst snd]. rewrite Hk in H.
    destruct (enter_key_leave m (set_full st b) key) as (_ & _ & El).
    destruct (enter_key m (set_full st b) key) as [st0 lk]. cbn [fst snd] in *.
    apply bind_done in H as ([[st1 lk'] e] & H1 & H).
    apply bind_done in H1 as (st1' & H1 & H1'). injection H1' as <- <- <-.
    apply bind_done in H as ([st2 e'] & H2 & H).
    destruct (Z.eqb_spec (key_subkeys m key) (-1)); [contradiction|].
    apply bind_done in H2 as (st2' & H2 & H2'). injection H2' as <- <-.
    injection H as <-.
    exists st1', st2'. split; [exact H1|]. split; [exact H2|].
    match goal with
    | |- full (leave _ ?s) = _ =>
        transitivity (full s);
        [destruct lk as [[|]|]; reflexivity|]
    end.
    match goal with
    | |- context [if ?c then _ else _] => destruct c
    end; reflexivity.
Qed.

(** The dump of [keys_hive] in keys-only mode. *)
Abbreviation keys_walk :=
  (walk utc flag_k keys_hive 3 (initial_state path0) 0 (cell 0)).

(** C5, as stated, fails on [keys_hive]: its [li] list (cell 2) holds the
    entries [A], [B], [X] with a count of 2; [walk] visits [A] and [B],
    where a stride of 2 would visit [A] and [X]. *)
Lemma subkey_stride_counterexample :
  block_type keys_hive (cell 2) 0 = code "l"
  /\ block_type keys_hive (cell 2) 1 = code "i"
  /\ leaf_cells keys_hive (cell 2) = [cell 4; cell 5]
  /\ entries keys_hive (cell 2) (stated_stride keys_hive (cell 2)) = [cell 4; cell 8]
  /\ leaf_cells keys_hive (cell 2) <>
     entries keys_hive (cell 2) (stated_stride keys_hive (cell 2))
  /\ leaf_cells keys_hive (cell 3) <>
     entries keys_hive (cell 3) (stated_stride keys_hive (cell 3))
  /\ stdout (final keys_walk) =
     "[1601-01-01 00:00:00] /R" ++ nl ++
     "[1601-01-01 00:00:00] /R/A" ++ nl ++
     "[1601-01-01 00:00:00] /R/B" ++ nl ++
     "[1601-01-01 00:00:00] /R/C" ++ nl ++
     "[1601-01-01 00:00:00] /R/D" ++ nl.
Proof.
  repeat split; try (vm_compute; reflexivity); vm_compute; discriminate.
Qed.

(** ** Inline data *)

Lemma to_int_unsigned (u : Z) : 0 <= u < 4294967296 -> to_uint (to_int u) = u.
Proof.
  intros Hu. unfold to_uint, to_int, wrap, swrap.
  change (2 ^ (32 - 1)) with 2147483648. change (2 ^ 32) with 4294967296.
  divlia.
Qed.

Lemma to_int_range (z : Z) : -2147483648 <= to_int z < 2147483648.
Proof. apply (swrap_range 32 z). lia. Qed.

Lemma sign_bit (s : Z) :
  -2147483648 <= s < 2147483648 -> Z.testbit s 31 = (s <? 0).
Proof.
  intros Hs. destruct (Z.ltb_spec s 0) as [Hn|Hp].
  - replace 31 with (0 + 31) by reflexivity.
    rewrite <- Z.shiftr_spec by lia. rewrite Z.bit0_odd, Z.shiftr_div_pow2 by lia.
    change (2 ^ 31) with 2147483648.
    replace (s / 2147483648) with (-1) by divlia. reflexivity.
  - apply (testbit_above s 31); [|lia]. change (2 ^ 31) with 2147483648. lia.
Qed.

Lemma land_sign (s : Z) :
  -2147483648 <= s < 2147483648 ->
  Z.land s (to_int (Z.shiftl 1 31)) = if s <? 0 then -2147483648 else 0.
Proof.
  intros Hs. change (to_int (Z.shiftl 1 31)) with (Z.lnot (Z.ones 31)).
  change (Z.land s (Z.lnot (Z.ones 31))) with (Z.ldiff s (Z.ones 31)).
  rewrite Z.ldiff_ones_r by lia.
  rewrite Z.shiftl_mul_pow2, Z.shiftr_div_pow2 by lia.
  change (2 ^ 31) with 2147483648.
  destruct (Z.ltb_spec s 0); divlia.
Qed.

Lemma to_uint_bit (s i : Z) :
  0 <= i < 32 -> Z.testbit (to_uint s) i = Z.testbit s i.
Proof. intros Hi. unfold to_uint, wrap. apply Z.mod_pow2_bits_low. lia. Qed.

Lemma is_inline_sign (m : memory) (val : Z) :
  is_inline m val = Z.testbit (val_size m val) 31.
Proof.
  unfold is_inline. pose proof (to_int_range (u32 m (val + 8))) as Hr.
  fold (i32 m (val + 8)) in Hr. fold (val_size m val) in Hr.
  rewrite land_sign, sign_bit by exact Hr.
  destruct (val_size m val <? 0); reflexivity.
Qed.

Lemma logical_size_value (m : memory) (val : Z) :
  logical_size m val = val_size m val mod 2147483648.
Proof.
  unfold logical_size. change 0x7fffffff with (Z.ones 31).
  now rewrite Z.land_ones by lia.
Qed.

Lemma i32_bytes (m : memory) (a i : Z) :
  0 <= i < 4 -> field_byte (i32 m a) i = u8 m (a + i).
Proof.
  intros Hi. unfold field_byte, i32. rewrite to_int_unsigned by apply u32_range.
  unfold u32, u16.
  pose proof (u8_range m a). pose proof (u8_range m (a + 1)).
  pose proof (u8_range m (a + 2)). pose proof (u8_range m (a + 2 + 1)).
  assert (Hc : i = 0 \/ i = 1 \/ i = 2 \/ i = 3) by lia.
  destruct Hc as [->|[->|[->| ->]]].
  - change (256 ^ 0) with 1. rewrite Z.add_0_r. divlia.
  - change (256 ^ 1) with 256. divlia.
  - change (256 ^ 2) with 65536. divlia.
  - change (256 ^ 3) with 16777216.
    replace (a + 3) with (a + 2 + 1) by lia. divlia.
Qed.

(** C6, as the program has it.  For a value whose size field has bit 31
    set, [data] is the address of the offset field of the value cell: its
    first four bytes are the four raw bytes of that field.  The length used
    to print the value is the size field with bit 31 cleared; the program
    does not cap it (a length above 4 reads on after the offset field). *)
Theorem inline_value_data (localtime : Z -> tm) (g : globals) (m : memory)
    (st : state) (path key val : Z) :
  Z.testbit (to_uint (val_size m val)) 31 = true ->
  let size := logical_size m val in
  let data := mk_data m (val_offset_field val) in
  materialize g m val size = Done data
  /\ (forall i, 0 <= i < 4 -> data_uchar data i = field_byte (val_offset m val) i)
  /\ size = to_uint (val_size m val) - 2147483648
  /\ 0 <= size < 2147483648
  /\ (forall i, 0 <= i < 31 ->
      Z.testbit size i = Z.testbit (to_uint (val_size m val)) i)
  /\ Z.testbit size 31 = false
  /\ print_value localtime g m st path key val =
     (let b := value_path m (full st) path val in
      let type :=
        effective_type (properties st) (driverpackages st) (val_value_type m val) in
      Done (print (print (set_full st b) (value_header localtime g m b key val))
              (render localtime g (properties st) type size
                 (bintext_of type size data) data ++ nl))).
Proof.
  intros Hbit size data.
  rewrite to_uint_bit in Hbit by lia.
  assert (Hm : materialize g m val size = Done data).
  { unfold materialize. now rewrite is_inline_sign, Hbit. }
  pose proof (to_int_range (u32 m (val + 8))) as Hr.
  fold (i32 m (val + 8)) in Hr. fold (val_size m val) in Hr.
  rewrite (sign_bit _ Hr) in Hbit. apply Z.ltb_lt in Hbit.
  assert (Hsize : 0 <= size < 2147483648)
    by (unfold size; rewrite logical_size_value; divlia).
  split; [exact Hm|]. split; [|split; [|split; [|split; [|split]]]].
  - intros i Hi. unfold val_offset. rewrite i32_bytes by exact Hi. reflexivity.
  - unfold size. rewrite logical_size_value. unfold to_uint, wrap.
    change (2 ^ 32) with 4294967296. divlia.
  - exact Hsize.
  - intros i Hi. rewrite to_uint_bit by lia.
    unfold size, logical_size. change 0x7fffffff with (Z.ones 31).
    rewrite Z.land_spec, Z.ones_spec_low by lia. apply andb_true_r.
  - apply (testbit_above size 31); [exact Hsize|lia].
  - unfold print_value. fold size. rewrite Hm. reflexivity.
Qed.

Lemma inline_value_data_witness :
  materialize no_flags tree_hive (cell 2) (logical_size tree_hive (cell 2)) =
    Done (mk_data tree_hive (val_offset_field (cell 2)))
  /\ logical_size tree_hive (cell 2) = 4
  /\ map (data_uchar (mk_data tree_hive (val_offset_field (cell 2)))) [0; 1; 2; 3] =
     [0x78; 0x56; 0x34; 0x12].
Proof.
  split; [|split; reflexivity].
  apply (inline_value_data utc no_flags tree_hive (initial_state path0) 5
           (cell 0) (cell 2)).
  reflexivity.
Defined.

(** The dump of [inline_hive], without options. *)
Abbreviation inline_walk :=
  (walk utc no_flags inline_hive 1 (initial_state path0) 0 (cell 0)).

(** C6, as stated, fails on [inline_hive]: bit 31 of the size field is set
    and the length used is 8, not capped at 4; the eight bytes printed are
    the offset field and the type field after it. *)
Lemma inline_cap_counterexample :
  Z.testbit (to_uint (val_size inline_hive (cell 2))) 31 = true
  /\ logical_size inline_hive (cell 2) = 8
  /\ logical_size inline_hive (cell 2) <> capped_size inline_hive (cell 2)
  /\ stdout (final inline_walk) = "/K/x [3:8] = 78,56,34,12,03,00,00,00" ++ nl.
Proof.
  repeat split; try (vm_compute; reflexivity). vm_compute. discriminate.
Qed.

(** ** Strings *)

Lemma quot2_minus2 (size : Z) : 2 <= size -> Z.quot (size - 2) 2 = Z.quot size 2 - 1.
Proof.
  intros H. rewrite !Z.quot_div_nonneg by lia. divlia.
Qed.

(** Without the heuristic, a last unit that is 0 is not part of what is
    printed. *)
Lemma text16_drop_last (all_str : bool) (type size : Z) (d : data_ptr) :
  2 <= size -> data_us d (Z.quot size 2 - 1) = 0 ->
  text16 all_str type 0 size d = text16 all_str type 0 (size - 2) d.
Proof.
  intros Hs H0. unfold text16. rewrite quot2_minus2 by exact Hs.
  change (0 =? 0) with true. cbv iota.
  assert (Hq : 1 <= Z.quot size 2) by (rewrite Z.quot_div_nonneg by lia; divlia).
  replace (Z.to_nat (Z.quot size 2)) with (S (Z.to_nat (Z.quot size 2 - 1))) by lia.
  cbn [drop_nuls]. rewrite H0.
  destruct (Z.gtb_spec (Z.quot size 2) 0); [|lia]. reflexivity.
Qed.

(** When the heuristic fired, the loop prints every unit. *)
Lemma text_units_snoc (all_str : bool) (type bintext : Z) (d : data_ptr) (n : nat) :
  type <> REG_MULTI_SZ -> bintext <> 0 ->
  forall i size size',
    text_units (S n) i all_str type bintext size d =
    text_units n i all_str type bintext size' d ++
    unit_text (data_us d (i + Z.of_nat n)).
Proof.
  intros Ht Hb.
  assert (Hstep : forall k i size,
             text_units (S k) i all_str type bintext size d =
             unit_text (data_us d i) ++
             text_units k (i + 1) all_str type bintext size d).
  { intros k i size. cbn [text_units]. unfold unit_text.
    destruct (printable (data_us d i)); [reflexivity|].
    destruct (Z.eqb_spec type REG_MULTI_SZ); [contradiction|].
    destruct (Z.eqb_spec bintext 0); [contradiction|].
    rewrite !andb_false_r. cbn [andb].
    generalize (fmt_X (if data_us d i <? 256 then 2 else 4) (data_us d i)).
    generalize (text_units k (i + 1) all_str type bintext size d).
    intros rest digits. cbn [append]. now rewrite !append_assoc. }
  induction n as [|n IH]; intros i size size'.
  - rewrite Hstep. cbn [text_units]. rewrite append_nil_r, Z.add_0_r. reflexivity.
  - rewrite Hstep. rewrite (IH (i + 1) size size'). rewrite (Hstep n i size').
    rewrite append_assoc.
    replace (i + 1 + Z.of_nat n) with (i + Z.of_nat (S n)) by lia. reflexivity.
Qed.

(** C4, as the program has it.  In the string branch the units that are 0
    at the end are dropped before printing unless the UTF-16 heuristic
    fired, in full-string mode as well as without it; when the heuristic
    fired they are printed, as ["<00>"].  So the MULTI_SZ value [A, 0, B,
    0, 0] is printed as ["A<>B"] in both modes. *)
Theorem trailing_nuls (localtime : Z -> tm) (g : globals) :
  (forall all_str type d n k,
      0 <= n ->
      (forall i, n <= i < n + Z.of_nat k -> data_us d i = 0) ->
      text16 all_str type 0 (2 * (n + Z.of_nat k)) d = text16 all_str type 0 (2 * n) d)
  /\ (forall all_str type d size,
         type = REG_BINARY \/ type = REG_NONE ->
         2 <= size -> data_us d (Z.quot size 2 - 1) = 0 ->
         text16 all_str type 16 size d = text16 all_str type 16 (size - 2) d ++ "<00>")
  /\ (forall props, select_rule props REG_MULTI_SZ 10 0 multi_sz_AB = Text16)
  /\ bintext_of REG_MULTI_SZ 10 multi_sz_AB = 0
  /\ text16 false REG_MULTI_SZ 0 10 multi_sz_AB = "A<>B"
  /\ text16 true REG_MULTI_SZ 0 10 multi_sz_AB = "A<>B"
  /\ (forall props,
         render localtime g props REG_MULTI_SZ 10
           (bintext_of REG_MULTI_SZ 10 multi_sz_AB) multi_sz_AB = "A<>B").
Proof.
  split; [|split; [|split; [|split; [|split; [|split]]]]].
  - intros all_str type d n k Hn. induction k as [|k IH]; intros Hz.
    + now rewrite Z.add_0_r.
    + rewrite <- IH by (intros i Hi; apply Hz; lia).
      replace (2 * (n + Z.of_nat k)) with (2 * (n + Z.of_nat (S k)) - 2) by lia.
      apply text16_drop_last; [lia|].
      apply Hz. rewrite Z.quot_div_nonneg by lia. divlia.
  - intros all_str type d size Ht Hs H0. unfold text16.
    rewrite quot2_minus2 by exact Hs. change (16 =? 0) with false. cbv iota.
    assert (Hq : 1 <= Z.quot size 2) by (rewrite Z.quot_div_nonneg by lia; divlia).
    replace (Z.to_nat (Z.quot size 2)) with (S (Z.to_nat (Z.quot size 2 - 1))) by lia.
    rewrite (text_units_snoc all_str type 16 d _
               ltac:(destruct Ht as [->| ->]; discriminate) ltac:(discriminate)
               0 (Z.quot size 2) (Z.quot size 2 - 1)).
    f_equal. replace (0 + Z.of_nat (Z.to_nat (Z.quot size 2 - 1)))
      with (Z.quot size 2 - 1) by lia.
    rewrite H0. reflexivity.
  - intros [|]; reflexivity.
  - reflexivity.
  - vm_compute. reflexivity.
  - vm_compute. reflexivity.
  - intros props. unfold render.
    replace (select_rule props REG_MULTI_SZ 10
               (bintext_of REG_MULTI_SZ 10 multi_sz_AB) multi_sz_AB)
      with Text16 by (destruct props; reflexivity).
    destruct (all_string g); vm_compute; reflexivity.
Qed.

(** C4, as stated, fails: without full-string mode the MULTI_SZ value [A,
    0, B, 0, 0] is printed as ["A<>B"], not as ["A<>B <...>"]; the units
    that are 0 at the end are dropped in full-string mode too. *)
Lemma trailing_nuls_counterexample :
  render utc no_flags false REG_MULTI_SZ 10
    (bintext_of REG_MULTI_SZ 10 multi_sz_AB) multi_sz_AB = "A<>B"
  /\ render utc no_flags false REG_MULTI_SZ 10
       (bintext_of REG_MULTI_SZ 10 multi_sz_AB) multi_sz_AB <> "A<>B <...>"
  /\ all_string flag_s = true
  /\ render utc flag_s false REG_MULTI_SZ 10
       (bintext_of REG_MULTI_SZ 10 multi_sz_AB) multi_sz_AB =
     render utc flag_s false REG_MULTI_SZ 6
       (bintext_of REG_MULTI_SZ 6 multi_sz_AB) multi_sz_AB.
Proof.
  repeat split; try (vm_compute; reflexivity). vm_compute. discriminate.
Qed.

(** ** Big data *)

Lemma length_read_bytes (m : memory) (n : nat) :
  forall a, List.length (read_bytes m a n) = n.
Proof. induction n as [|n IH]; intros a; cbn; [reflexivity|now rewrite IH]. Qed.

Lemma skipn_repeat {A : Type} (x : A) (n k : nat) :
  skipn k (repeat x n) = repeat x (n - k).
Proof.
  revert k. induction n as [|n IH]; intros [|k]; cbn; try reflexivity. apply IH.
Qed.

Lemma copy_len_cases (left : Z) :
  (16344 < left /\ copy_len left = 16344) \/ (left <= 16344 /\ copy_len left = left).
Proof. unfold copy_len. destruct (Z.gtb_spec left 16344); [left|right]; lia. Qed.

(** One [memcpy] of the loop on a block filled up to [pos]. *)
Lemma memcpy_fills (m : memory) (filled : list Z) (left src : Z) :
  0 < left ->
  memcpy (map Some filled ++ repeat None (Z.to_nat left))%list
    (Z.of_nat (List.length filled)) m src (copy_len left) =
  Done (map Some (filled ++ read_bytes m src (Z.to_nat (copy_len left))) ++
        repeat None (Z.to_nat (left - 16344)))%list.
Proof.
  intros Hl. unfold memcpy.
  assert (Hc : 0 < copy_len left <= left) by (destruct (copy_len_cases left); lia).
  rewrite length_app, length_map, repeat_length.
  replace ((0 <=? copy_len left) && (0 <=? Z.of_nat (List.length filled))
           && (Z.of_nat (List.length filled) + copy_len left <=?
               Z.of_nat (List.length filled + Z.to_nat left)))
    with true
    by (symmetry; rewrite !andb_true_iff, !Z.leb_le; lia).
  f_equal. rewrite Nat2Z.id.
  rewrite firstn_app, length_map, Nat.sub_diag, firstn_O, app_nil_r.
  rewrite firstn_all2 by (rewrite length_map; lia).
  rewrite map_app, <- app_assoc. do 2 f_equal.
  rewrite skipn_app, length_map.
  rewrite skipn_all2 by (rewrite length_map; lia). cbn [app].
  rewrite skipn_repeat. f_equal.
  destruct (copy_len_cases left) as [[H1 H2]|[H1 H2]]; rewrite H2; lia.
Qed.

Lemma copy_segments_fills (m : memory) (datalist : Z) (k : nat) :
  forall i filled pos left,
    16344 * (Z.of_nat k - 1) < left <= 16344 * Z.of_nat k ->
    (k <> 0%nat -> pos = Z.of_nat (List.length filled)) ->
    copy_segments k i m datalist
      (map Some filled ++ repeat None (Z.to_nat left))%list pos left =
    Done (map Some (filled ++ copied m datalist k i left)%list).
Proof.
  induction k as [|k IH]; intros i filled pos left Hl Hp.
  - cbn [copy_segments copied]. replace (Z.to_nat left) with 0%nat by lia.
    cbn [repeat]. now rewrite !app_nil_r.
  - cbn [copy_segments copied]. rewrite (Hp ltac:(discriminate)).
    fold (segment m datalist i).
    rewrite memcpy_fills by lia. cbn [bind].
    rewrite IH.
    + now rewrite <- app_assoc.
    + lia.
    + intros Hk. rewrite length_app, length_read_bytes.
      destruct (copy_len_cases left) as [[H1 H2]|[H1 H2]]; rewrite H2; lia.
Qed.

Lemma length_copied (m : memory) (datalist : Z) (k : nat) :
  forall i left,
    16344 * (Z.of_nat k - 1) < left <= 16344 * Z.of_nat k ->
    List.length (copied m datalist k i left) = Z.to_nat left.
Proof.
  induction k as [|k IH]; intros i left Hl; cbn [copied].
  - cbn. lia.
  - rewrite length_app, length_read_bytes, IH by lia.
    destruct (copy_len_cases left) as [[H1 H2]|[H1 H2]]; rewrite H2; lia.
Qed.

Lemma copied_segments (m : memory) (datalist : Z) (k : nat) :
  forall i left,
    16344 * Z.of_nat k < left <= 16344 * (Z.of_nat k + 1) ->
    copied m datalist (S k) i left =
    (flat_map (fun j => read_bytes m (segment m datalist j) (Z.to_nat 16344))
       (zrange i k) ++
     read_bytes m (segment m datalist (i + Z.of_nat k))
       (Z.to_nat (left - 16344 * Z.of_nat k)))%list.
Proof.
  induction k as [|k IH]; intros i left Hl.
  - cbn [copied zrange flat_map app]. rewrite app_nil_r.
    destruct (copy_len_cases left) as [[H1 H2]|[H1 H2]]; [lia|].
    rewrite H2. do 2 f_equal; lia.
  - change (copied m datalist (S (S k)) i left)
      with (read_bytes m (segment m datalist i) (Z.to_nat (copy_len left)) ++
            copied m datalist (S k) (i + 1) (left - 16344))%list.
    rewrite IH by lia. cbn [zrange flat_map]. rewrite <- app_assoc.
    destruct (copy_len_cases left) as [[H1 H2]|[H1 H2]]; [|lia].
    rewrite H2. do 3 f_equal; [f_equal; lia|lia].
Qed.

Lemma i8_is (m : memory) (a c : Z) : 0 <= c < 128 -> (i8 m a =? c) = (u8 m a =? c).
Proof.
  intros Hc. unfold i8, to_char, swrap. pose proof (u8_range m a) as Hu.
  change (2 ^ (8 - 1)) with 128. change (2 ^ 8) with 256.
  destruct (Z.eqb_spec (u8 m a) c) as [E|E].
  - apply Z.eqb_eq. rewrite E. divlia.
  - apply Z.eqb_neq. divlia.
Qed.

(** C1. A value that is not stored inline is reassembled exactly when its
    logical size exceeds 16344, the version of the hive is above 1.3 (major
    above 1 or minor above 3) and its data region starts with [db].  Then,
    for a logical size [S] whose [db] cell counts [n = ceil(S/16344)]
    segments, the block allocated has [S] bytes and is filled entirely:
    16344 bytes from each of the first [n - 1] segments, and [S - 16344 *
    (n - 1)] bytes from the last. *)
Theorem big_data_reassembly (g : globals) (m : memory) (val : Z) :
  is_inline m val = false ->
  let g' := with_big_data g (main_big_data m) in
  let size := logical_size m val in
  let data := val_offset m val + root + 4 in
  let datalist := list_offsets m (data - 4) 0 + root in
  let n := (size + 16343) / 16344 in
  (is_big_data g' m size data = true <->
   size > 16344 /\ (major_version m > 1 \/ minor_version m > 3)
   /\ u8 m data = code "d" /\ u8 m (data + 1) = code "b")
  /\ materialize g' m val size =
     (if is_big_data g' m size data then
        blk <- reassemble m size data ;; Done (mk_data (block_mem blk) 0)
      else Done (mk_data m data))
  /\ (size > 16344 -> list_count m (data - 4) = n ->
      reassemble m size data = Done (map Some (reassembled m datalist size n))
      /\ Z.of_nat (List.length (malloc size)) = size
      /\ Z.of_nat (List.length (reassembled m datalist size n)) = size
      /\ (forall i, 0 <= i < n - 1 -> copy_len (size - 16344 * i) = 16344)
      /\ copy_len (size - 16344 * (n - 1)) = size - 16344 * (n - 1)).
Proof.
  intros Hin g' size data datalist n.
  split; [|split].
  - unfold is_big_data, g', main_big_data. cbn [big_data with_big_data].
    rewrite !i8_is by (cbv; split; [discriminate|reflexivity]).
    rewrite !andb_true_iff, orb_true_iff, !Z.eqb_eq, !Z.gtb_gt.
    change (code "d") with 100. change (code "b") with 98. tauto.
  - unfold materialize. rewrite Hin. reflexivity.
  - intros Hsize Hn.
    assert (H1 : 1 <= n) by (unfold n; divlia).
    assert (Hb : 16344 * (n - 1) < size <= 16344 * n) by (unfold n; divlia).
    assert (Hk : Z.to_nat n = Datatypes.S (Z.to_nat (n - 1))) by lia.
    assert (Hc : copied m datalist (Z.to_nat n) 0 size = reassembled m datalist size n).
    { rewrite Hk, copied_segments by lia. unfold reassembled.
      do 3 f_equal; lia. }
    split; [|split; [|split; [|split]]].
    + unfold reassemble. fold datalist. rewrite Hn. unfold malloc.
      pose proof (copy_segments_fills m datalist (Z.to_nat n) 0 [] 0 size
                    ltac:(lia) ltac:(reflexivity)) as Hfill.
      cbn [map app] in Hfill. rewrite Hfill, Hc. reflexivity.
    + unfold malloc. rewrite repeat_length. lia.
    + rewrite <- Hc, length_copied by lia. lia.
    + intros i Hi. destruct (copy_len_cases (size - 16344 * i)) as [[_ H]|[H _]]; lia.
    + destruct (copy_len_cases (size - 16344 * (n - 1))) as [[H _]|[_ H]]; lia.
Qed.

Lemma big_data_reassembly_witness :
  is_big_data (with_big_data no_flags (main_big_data big_hive)) big_hive
    (logical_size big_hive (cell 2)) (val_offset big_hive (cell 2) + root + 4) = true
  /\ reassemble big_hive (logical_size big_hive (cell 2))
       (val_offset big_hive (cell 2) + root + 4) =
     Done (map Some
             (reassembled big_hive
                (list_offsets big_hive (val_offset big_hive (cell 2) + root + 4 - 4) 0
                 + root)
                (logical_size big_hive (cell 2))
                ((logical_size big_hive (cell 2) + 16343) / 16344))).
Proof.
  pose proof (big_data_reassembly no_flags big_hive (cell 2) eq_refl) as T.
  cbv zeta in T. destruct T as (Hiff & _ & Hre). split.
  - apply Hiff. split; [vm_compute; reflexivity|].
    split; [right; vm_compute; reflexivity|].
    split; vm_compute; reflexivity.
  - apply Hre; vm_compute; reflexivity.
Defined.

(** ** Hives that are not trees *)

Lemma walk_cells_calls (w : state -> Z -> Z -> outcome state) (path k : Z) :
  forall cells st st',
    walk_cells w cells st path = Done st' -> In k cells ->
    exists st1 st1', w st1 path k = Done st1'.
Proof.
  induction cells as [|key rest IH]; intros st st' H Hin; [contradiction|].
  cbn [walk_cells] in H. apply bind_done in H as (st1 & H1 & H2).
  destruct Hin as [->|Hin]; [eauto|]. eapply IH; eauto.
Qed.

Section Cycles.

Variable localtime : Z -> tm.
Variable g : globals.
Variable m : memory.

(** A call that returns has seen the calls for its subkeys return. *)
Lemma walk_returns_subkey (fuel : nat) (st st' : state) (path k k' : Z) :
  walk localtime g m (S fuel) st path k = Done st' -> subkey_of m k k' ->
  exists st1 path1 st1', walk localtime g m fuel st1 path1 k' = Done st1'.
Proof.
  intros H [Hs Hin]. cbn [walk] in H.
  destruct (make_name (store (full st) path (code "/")) (path + 1) m (key_name k)
              (key_len m k) (Z.land (key_flags m k) KEY_COMP_NAME))
    as [b path'].
  apply bind_done in H as ([[st2 leave_key] empty_key] & _ & H).
  apply bind_done in H as ([st3 empty_key'] & H2 & _).
  destruct (Z.eqb_spec (key_subkeys m k) (-1)); [contradiction|].
  apply bind_done in H2 as (st4 & H2 & _).
  destruct (walk_cells_calls _ _ k' _ _ _ H2 Hin) as (st1 & st1' & H1).
  eauto.
Qed.

Lemma walk_returns_below (k k' : Z) :
  below m k k' ->
  forall fuel st st' path,
    walk localtime g m fuel st path k = Done st' ->
    exists fuel' st1 path1 st1',
      (fuel' < fuel)%nat /\ walk localtime g m fuel' st1 path1 k' = Done st1'.
Proof.
  induction 1 as [k k' Hs|k k' k'' Hs Hb IH]; intros fuel st st' path H;
    (destruct fuel as [|fuel]; [discriminate|]);
    destruct (walk_returns_subkey _ _ _ _ _ _ H Hs) as (st1 & path1 & st1' & H1).
  - exists fuel, st1, path1, st1'. split; [lia|exact H1].
  - destruct (IH _ _ _ _ H1) as (fuel' & st2 & path2 & st2' & Hlt & H2).
    exists fuel', st2, path2, st2'. split; [lia|exact H2].
Qed.

(** X1. [walk] has no guard against a hive that is not a tree: for a key
    that is met again below itself, no call of [walk] returns, whatever the
    depth allowed (in C the recursion goes on until the path buffer or the
    stack is overrun). *)
Theorem walk_never_returns_on_cycle (k : Z) :
  below m k k ->
  forall fuel st path st', walk localtime g m fuel st path k <> Done st'.
Proof.
  intros Hb fuel. induction fuel as [fuel IH] using lt_wf_ind.
  intros st path st' H.
  destruct (walk_returns_below k k Hb _ _ _ _ H)
    as (fuel' & st1 & path1 & st1' & Hlt & H1).
  exact (IH fuel' Hlt _ _ _ H1).
Qed.

End Cycles.

Lemma walk_never_returns_on_cycle_witness :
  below loop_hive (cell 0) (cell 0)
  /\ walk utc no_flags loop_hive 50 (initial_state path0) 0 (cell 0) <>
     Done (initial_state path0).
Proof.
  assert (Hb : below loop_hive (cell 0) (cell 0)).
  { apply below_subkey. split; [discriminate|]. left. reflexivity. }
  split; [exact Hb|].
  apply (walk_never_returns_on_cycle utc no_flags loop_hive (cell 0) Hb).
Defined.

(** ** Characters of the output *)

Lemma code_chr (c : Z) : code (chr c) = c mod 256.
Proof.
  unfold code, chr. pose proof (Z.mod_pos_bound c 256 eq_refl).
  rewrite N_ascii_embedding by lia. lia.
Qed.

Lemma all_chars_app (p : Z -> bool) (a b : string) :
  all_chars p (a ++ b) = all_chars p a && all_chars p b.
Proof.
  induction a as [|c a IH]; cbn; [reflexivity|]. now rewrite IH, andb_assoc.
Qed.

Lemma all_chars_weaken (p q : Z -> bool) (s : string) :
  (forall c, p c = true -> q c = true) ->
  all_chars p s = true -> all_chars q s = true.
Proof.
  intros Hpq. induction s as [|c s IH]; cbn; [reflexivity|].
  rewrite !andb_true_iff. intros [H1 H2]. split; [apply Hpq, H1|apply IH, H2].
Qed.

Lemma printable_output (c : Z) : printable c = true -> output_char c = true.
Proof. intros H. unfold output_char. now rewrite H. Qed.

Lemma printable_digit_char (d : Z) :
  0 <= d < 16 -> printable (code (digit_char d)) = true.
Proof.
  intros Hd.
  apply (check_below (fun d => printable (code (digit_char d))) 16);
    [reflexivity|lia].
Qed.

Lemma all_chars_digits (base : Z) (fuel : nat) :
  0 < base <= 16 ->
  forall n acc,
    all_chars printable acc = true ->
    all_chars printable (digits fuel base n acc) = true.
Proof.
  intros Hb. induction fuel as [|fuel IH]; intros n acc Hacc; cbn [digits];
    [exact Hacc|].
  assert (Hd : all_chars printable (String (digit_char (n mod base)) acc) = true).
  { cbn [all_chars]. rewrite Hacc, andb_true_r. apply printable_digit_char.
    pose proof (Z.mod_pos_bound n base). lia. }
  destruct (n <? base); [exact Hd|]. apply IH, Hd.
Qed.

Lemma all_chars_zeros (n : nat) : all_chars printable (zeros n) = true.
Proof. induction n as [|n IH]; cbn; [reflexivity|exact IH]. Qed.

Lemma all_chars_spaces (n : nat) : all_chars printable (spaces n) = true.
Proof. induction n as [|n IH]; cbn; [reflexivity|exact IH]. Qed.

Lemma all_chars_fmt_X (width n : Z) : all_chars printable (fmt_X width n) = true.
Proof.
  unfold fmt_X, pad0. rewrite all_chars_app, all_chars_zeros.
  apply all_chars_digits; [lia|reflexivity].
Qed.

Lemma all_chars_fmt_u (n : Z) : all_chars printable (fmt_u n) = true.
Proof. apply all_chars_digits; [lia|reflexivity]. Qed.

Lemma all_chars_fmt_d (width n : Z) : all_chars printable (fmt_d width n) = true.
Proof.
  unfold fmt_d, pad0. destruct (n <? 0).
  - rewrite !all_chars_app, all_chars_zeros.
    cbn [all_chars andb]. apply all_chars_digits; [lia|reflexivity].
  - rewrite all_chars_app, all_chars_zeros.
    apply all_chars_digits; [lia|reflexivity].
Qed.

Lemma all_chars_print_time (localtime : Z -> tm) (t : Z) (full brackets : bool) :
  all_chars printable (print_time localtime t full brackets) = true.
Proof.
  unfold print_time. rewrite !all_chars_app, !all_chars_fmt_d.
  destruct full, brackets; rewrite ?all_chars_app, ?all_chars_fmt_d; reflexivity.
Qed.

(** ** The text of a name *)

Lemma hex_digit_printable (d : Z) : 0 <= d < 16 -> printable (hex_digit d) = true.
Proof.
  intros Hd.
  apply (check_below (fun d => printable (hex_digit d)) 16); [reflexivity|lia].
Qed.

Lemma escape_byte_printable (c x : Z) :
  0 <= c < 256 -> In x (escape_byte c) -> printable x = true.
Proof.
  intros Hc. unfold escape_byte. rewrite <- printable_range.
  destruct (printable c) eqn:Hp.
  - intros [<-|[]]. exact Hp.
  - intros [<-|[<-|[<-|[<-|[]]]]]; try reflexivity;
      apply hex_digit_printable; divlia.
Qed.

Lemma escape_unit_printable (c x : Z) :
  0 <= c < 65536 -> In x (escape_unit c) -> printable x = true.
Proof.
  intros Hc. unfold escape_unit. rewrite <- printable_range.
  destruct (printable c) eqn:Hp.
  - intros [<-|[]]. exact Hp.
  - destruct (Z.ltb_spec c 256).
    + intros [<-|[<-|[<-|[<-|[]]]]]; try reflexivity;
        apply hex_digit_printable; divlia.
    + intros [<-|[<-|[<-|[<-|[<-|[<-|[]]]]]]]; try reflexivity;
        apply hex_digit_printable; divlia.
Qed.

Lemma read_bytes_range (m : memory) (n : nat) :
  forall a c, In c (read_bytes m a n) -> 0 <= c < 256.
Proof.
  induction n as [|n IH]; intros a c; cbn; [contradiction|].
  intros [<-|H]; [apply u8_range|eapply IH, H].
Qed.

Lemma read_units_range (m : memory) (n : nat) :
  forall a c, In c (read_units m a n) -> 0 <= c < 65536.
Proof.
  induction n as [|n IH]; intros a c; cbn; [contradiction|].
  intros [<-|H]; [apply u16_range|eapply IH, H].
Qed.

Lemma decoded_name_printable (m : memory) (inp len comp x : Z) :
  In x (decoded_name m inp len comp) -> printable x = true.
Proof.
  unfold decoded_name. destruct (comp =? 0); intros H;
    apply in_flat_map in H as (c & Hc & H).
  - eapply escape_unit_printable; [eapply read_units_range, Hc|exact H].
  - eapply escape_byte_printable; [eapply read_bytes_range, Hc|exact H].
Qed.

Lemma forallb_In {A : Type} (p : A -> bool) (l : list A) :
  (forall x, In x l -> p x = true) -> forallb p l = true.
Proof. intros H. apply forallb_forall, H. Qed.

(** X2. Whatever the bytes of a name, its text in the path is printable
    ASCII: [make_name] writes only characters from 32 to 126 before the NUL
    it ends with, so that the text is a C string of just that length. *)
Theorem make_name_ascii (b : buffer) (out : Z) (m : memory) (inp len comp : Z) :
  let b' := fst (make_name b out m inp len comp) in
  let out' := snd (make_name b out m inp len comp) in
  out <= out'
  /\ forallb printable (buf_read b' out (Z.to_nat (out' - out))) = true
  /\ b' out' = 0.
Proof.
  intros b' out'.
  destruct (make_name_writes b out m inp len comp) as ([_ R] & E & N).
  fold b' in R, N. fold out' in E, N.
  split; [lia|]. split; [|exact N].
  replace (Z.to_nat (out' - out))
    with (List.length (decoded_name m inp len comp)) by lia.
  rewrite R. apply forallb_In. intros x. apply decoded_name_printable.
Qed.

Lemma length_flat_map_bounds {A B : Type} (f : A -> list B) (lo hi : nat) (l : list A) :
  (forall x, (lo <= List.length (f x) <= hi)%nat) ->
  (lo * List.length l <= List.length (flat_map f l) <= hi * List.length l)%nat.
Proof.
  intros H. induction l as [|x l IH]; cbn [flat_map List.length]; [lia|].
  rewrite length_app. specialize (H x). lia.
Qed.

Lemma length_read_units (m : memory) (n : nat) :
  forall a, List.length (read_units m a n) = n.
Proof. induction n as [|n IH]; intros a; cbn; [reflexivity|now rewrite IH]. Qed.

(** X3. The text of a name has at least one character for each of its
    bytes (or 16-bit units, when it is not compressed) and at most four for
    a byte and six for a unit: [make_name] advances the pointer by that
    many positions, and by nothing for a length that is zero or negative. *)
Theorem make_name_length (b : buffer) (out : Z) (m : memory) (inp len comp : Z) :
  let out' := snd (make_name b out m inp len comp) in
  (comp <> 0 -> out + Z.max len 0 <= out' <= out + 4 * Z.max len 0)
  /\ (comp = 0 ->
      out + Z.max (len / 2) 0 <= out' <= out + 6 * Z.max (len / 2) 0).
Proof.
  intros out'.
  destruct (make_name_writes b out m inp len comp) as (_ & E & _).
  fold out' in E. rewrite E. unfold decoded_name. split; intros Hc.
  - destruct (Z.eqb_spec comp 0); [contradiction|].
    pose proof (length_flat_map_bounds escape_byte 1 4
                  (read_bytes m inp (Z.to_nat len))) as Hb.
    rewrite length_read_bytes in Hb.
    assert (He : forall x, (1 <= List.length (escape_byte x) <= 4)%nat).
    { intros x. unfold escape_byte.
      destruct ((32 <=? x) && (x <=? 126)); cbn; lia. }
    specialize (Hb He). lia.
  - subst comp. cbn [Z.eqb].
    pose proof (length_flat_map_bounds escape_unit 1 6
                  (read_units m inp (Z.to_nat (len / 2)))) as Hb.
    rewrite length_read_units in Hb.
    assert (He : forall x, (1 <= List.length (escape_unit x) <= 6)%nat).
    { intros x. unfold escape_unit.
      destruct ((32 <=? x) && (x <=? 126)); [cbn; lia|].
      destruct (x <? 256); cbn; lia. }
    specialize (Hb He). lia.
Qed.

(** ** Paths *)

Lemma printable_nonzero (c : Z) : printable c = true -> c mod 256 <> 0.
Proof.
  rewrite printable_range, andb_true_iff, !Z.leb_le. intros [H1 H2].
  rewrite Z.mod_small; lia.
Qed.

Lemma printable_code_chr (c : Z) : printable c = true -> printable (code (chr c)) = true.
Proof.
  intros H. rewrite code_chr.
  pose proof H as H'. rewrite printable_range, andb_true_iff, !Z.leb_le in H'.
  rewrite Z.mod_small by lia. exact H.
Qed.

(** What ["%s"] prints for a buffer that holds a text. *)
Lemma cstring_text (b : buffer) (q : Z) (fuel : nat) :
  forall i,
    0 <= i <= q -> (forall j, i <= j < q -> b j mod 256 <> 0) -> b q mod 256 = 0 ->
    q - i < Z.of_nat fuel ->
    cstring fuel b i = text_of (buf_read b i (Z.to_nat (q - i))).
Proof.
  induction fuel as [|fuel IH]; intros i Hi Hb Hq Hf; [lia|].
  cbn [cstring]. destruct (Z.eq_dec i q) as [->|Hne].
  - rewrite Hq. cbn. now rewrite Z.sub_diag.
  - destruct (Z.eqb_spec (b i mod 256) 0) as [E|_]; [exfalso; apply (Hb i); [lia|exact E]|].
    replace (Z.to_nat (q - i)) with (S (Z.to_nat (q - (i + 1)))) by lia.
    cbn [buf_read text_of]. f_equal.
    apply IH; [lia| |exact Hq|lia]. intros j Hj. apply Hb. lia.
Qed.

Lemma cstring_printable (b : buffer) (q : Z) (fuel : nat) :
  forall i,
    i <= q -> (forall j, i <= j < q -> printable (b j) = true) -> b q = 0 ->
    all_chars printable (cstring fuel b i) = true.
Proof.
  induction fuel as [|fuel IH]; intros i Hi Hb Hq; cbn [cstring]; [reflexivity|].
  destruct (Z.eqb_spec (b i mod 256) 0) as [E|E]; [reflexivity|].
  assert (i < q).
  { destruct (Z.eq_dec i q) as [->|]; [rewrite Hq in E; contradiction|lia]. }
  cbn [all_chars]. rewrite printable_code_chr by (apply Hb; lia).
  apply IH; [lia| |exact Hq]. intros j Hj. apply Hb. lia.
Qed.

Lemma full_string_printable (b : buffer) (q : Z) :
  holds_text b q -> all_chars printable (full_string b) = true.
Proof.
  intros (Hq & Hb & H0). apply (cstring_printable b q); [exact Hq| |exact H0].
  intros j Hj. apply Hb. lia.
Qed.

Lemma buf_read_split (b : buffer) (i : Z) (n1 n2 : nat) :
  buf_read b i (n1 + n2) =
  (buf_read b i n1 ++ buf_read b (i + Z.of_nat n1) n2)%list.
Proof. apply buf_read_app. Qed.

Lemma length_buf_read (b : buffer) (n : nat) :
  forall i, List.length (buf_read b i n) = n.
Proof. induction n as [|n IH]; intros i; cbn; [reflexivity|now rewrite IH]. Qed.

Lemma text_of_app (l1 l2 : list Z) : text_of (l1 ++ l2) = text_of l1 ++ text_of l2.
Proof. induction l1 as [|c l1 IH]; cbn; [reflexivity|now rewrite IH]. Qed.

(** The buffer once ["/"] and a name are written at [path]. *)
Lemma name_at_path (b : buffer) (path : Z) (m : memory) (inp len comp : Z) :
  let r := make_name (store b path (code "/")) (path + 1) m inp len comp in
  path + 1 <= snd r
  /\ (forall j, j < path -> fst r j = b j)
  /\ fst r path = code "/"
  /\ buf_read (fst r) (path + 1) (Z.to_nat (snd r - (path + 1))) =
     decoded_name m inp len comp
  /\ fst r (snd r) = 0.
Proof.
  intros r.
  destruct (make_name_writes (store b path (code "/")) (path + 1) m inp len comp)
    as ([F R] & E & N).
  fold r in F, R, E, N.
  split; [lia|]. split; [|split; [|split; [|exact N]]].
  - intros j Hj. rewrite F by lia. apply store_other. lia.
  - rewrite F by lia. unfold store. now rewrite Z.eqb_refl.
  - replace (Z.to_nat (snd r - (path + 1)))
      with (List.length (decoded_name m inp len comp)) by lia.
    exact R.
Qed.

Lemma name_at_path_holds (b : buffer) (path : Z) (m : memory) (inp len comp : Z) :
  printable_prefix b path ->
  holds_text (fst (make_name (store b path (code "/")) (path + 1) m inp len comp))
    (snd (make_name (store b path (code "/")) (path + 1) m inp len comp)).
Proof.
  intros [Hp Hb].
  destruct (name_at_path b path m inp len comp) as (Hle & F & Hs & R & N).
  cbv zeta in Hle, F, Hs, R, N.
  set (r := make_name (store b path (code "/")) (path + 1) m inp len comp) in *.
  split; [lia|]. split; [|exact N].
  intros j Hj.
  destruct (Z.lt_ge_cases j path) as [Hlt|Hge].
  - rewrite F by exact Hlt. apply Hb. lia.
  - destruct (Z.eq_dec j path) as [->|Hne]; [rewrite Hs; reflexivity|].
    replace j with (path + 1 + Z.of_nat (Z.to_nat (j - (path + 1)))) by lia.
    rewrite (buf_read_nth _ _ _ _ R) by lia.
    apply (decoded_name_printable m inp len comp).
    apply nth_In. rewrite <- R, length_buf_read. lia.
Qed.

(** The text of a buffer that is a parent path, ["/"] and a name. *)
Lemma path_text (b b' : buffer) (path : Z) (l : list Z) :
  0 <= path ->
  (forall j, 0 <= j < path -> b j mod 256 <> 0) ->
  (forall j, j < path -> b' j = b j) ->
  b' path = code "/" ->
  buf_read b' (path + 1) (List.length l) = l ->
  (forall x, In x l -> printable x = true) ->
  b' (path + 1 + Z.of_nat (List.length l)) = 0 ->
  path + 1 + Z.of_nat (List.length l) < 0x4000 ->
  full_string b' = text_of (buf_read b 0 (Z.to_nat path)) ++ "/" ++ text_of l.
Proof.
  intros Hp Hb F Hs R Hl N Hfit.
  set (q := path + 1 + Z.of_nat (List.length l)) in *.
  unfold full_string.
  rewrite (cstring_text b' q).
  - replace (Z.to_nat (q - 0)) with (Z.to_nat path + (1 + List.length l))%nat
      by (unfold q; lia).
    rewrite buf_read_app, text_of_app. f_equal.
    + f_equal. apply buf_read_ext. intros j Hj. apply F. lia.
    + rewrite buf_read_app, text_of_app.
      replace (0 + Z.of_nat (Z.to_nat path)) with path by lia.
      cbn [buf_read text_of Z.of_nat]. rewrite Hs.
      replace (path + Z.pos (Pos.of_succ_nat 0)) with (path + 1) by lia.
      rewrite R. reflexivity.
  - unfold q. lia.
  - intros j Hj.
    destruct (Z.lt_ge_cases j path) as [Hlt|Hge]; [rewrite F by lia; apply Hb; lia|].
    destruct (Z.eq_dec j path) as [->|Hne]; [rewrite Hs; discriminate|].
    apply printable_nonzero.
    replace j with (path + 1 + Z.of_nat (Z.to_nat (j - (path + 1)))) by lia.
    rewrite (buf_read_nth _ _ _ _ R) by (unfold q in Hj; lia).
    apply Hl, nth_In. unfold q in Hj. lia.
  - rewrite N. reflexivity.
  - change (Z.of_nat path_size) with 0x4000. lia.
Qed.

(** X4. How paths are built.  When the buffer holds the path of the parent
    before [path] (no NUL in it), the text printed for a key is that path,
    ["/"] and the text of the key's name; the text printed for a value is
    the path it was given, ["/"] and the text of the value's name, or
    ["/@"] for a value without name.  This holds as long as the text fits
    the [0x4000] bytes of the buffer. *)
Theorem path_of_key_and_value (m : memory) (b : buffer) (path key val : Z) :
  0 <= path ->
  (forall j, 0 <= j < path -> b j mod 256 <> 0) ->
  let parent := text_of (buf_read b 0 (Z.to_nat path)) in
  let key_text :=
    decoded_name m (key_name key) (key_len m key)
      (Z.land (key_flags m key) KEY_COMP_NAME) in
  let val_text :=
    decoded_name m (val_name val) (val_name_len m val)
      (Z.land (val_flags m val) VALUE_COMP_NAME) in
  (path + 1 + Z.of_nat (List.length key_text) < 0x4000 ->
   full_string
     (fst (make_name (store b path (code "/")) (path + 1) m (key_name key)
             (key_len m key) (Z.land (key_flags m key) KEY_COMP_NAME))) =
   parent ++ "/" ++ text_of key_text)
  /\ (val_name_len m val = 0 -> path + 2 < 0x4000 ->
      full_string (value_path m b path val) = parent ++ "/@")
  /\ (val_name_len m val <> 0 ->
      path + 1 + Z.of_nat (List.length val_text) < 0x4000 ->
      full_string (value_path m b path val) = parent ++ "/" ++ text_of val_text).
Proof.
  intros Hp Hb parent key_text val_text. split; [|split].
  - intros Hfit.
    destruct (name_at_path b path m (key_name key) (key_len m key)
                (Z.land (key_flags m key) KEY_COMP_NAME)) as (Hle & F & Hs & R & N).
    cbv zeta in Hle, F, Hs, R, N. fold key_text in R.
    assert (Hlen : Z.to_nat
                     (snd (make_name (store b path (code "/")) (path + 1) m
                             (key_name key) (key_len m key)
                             (Z.land (key_flags m key) KEY_COMP_NAME)) -
                      (path + 1)) = List.length key_text).
    { rewrite <- R. now rewrite length_buf_read. }
    rewrite Hlen in R.
    apply (path_text b _ path key_text Hp Hb F Hs R).
    + intros x. apply decoded_name_printable.
    + replace (path + 1 + Z.of_nat (List.length key_text))
        with (snd (make_name (store b path (code "/")) (path + 1) m
                     (key_name key) (key_len m key)
                     (Z.land (key_flags m key) KEY_COMP_NAME))) by lia.
      exact N.
    + exact Hfit.
  - intros H0 Hfit. unfold value_path. rewrite H0. cbn [Z.eqb].
    apply (path_text b _ path [code "@"] Hp Hb).
    + intros j Hj. rewrite !store_other by lia. reflexivity.
    + rewrite !store_other by lia. unfold store. now rewrite Z.eqb_refl.
    + cbn [List.length buf_read]. rewrite store_other by lia.
      unfold store. now rewrite Z.eqb_refl.
    + intros x [<-|[]]. reflexivity.
    + cbn [List.length]. unfold store.
      replace (path + 1 + Z.of_nat 1 =? path + 2) with true
        by (symmetry; apply Z.eqb_eq; lia).
      reflexivity.
    + cbn [List.length]. lia.
  - intros H0 Hfit. unfold value_path.
    destruct (Z.eqb_spec (val_name_len m val) 0); [contradiction|].
    destruct (name_at_path b path m (val_name val) (val_name_len m val)
                (Z.land (val_flags m val) VALUE_COMP_NAME)) as (Hle & F & Hs & R & N).
    cbv zeta in Hle, F, Hs, R, N. fold val_text in R.
    assert (Hlen : Z.to_nat
                     (snd (make_name (store b path (code "/")) (path + 1) m
                             (val_name val) (val_name_len m val)
                             (Z.land (val_flags m val) VALUE_COMP_NAME)) -
                      (path + 1)) = List.length val_text).
    { rewrite <- R. now rewrite length_buf_read. }
    rewrite Hlen in R.
    apply (path_text b _ path val_text Hp Hb F Hs R).
    + intros x. apply decoded_name_printable.
    + replace (path + 1 + Z.of_nat (List.length val_text))
        with (snd (make_name (store b path (code "/")) (path + 1) m
                     (val_name val) (val_name_len m val)
                     (Z.land (val_flags m val) VALUE_COMP_NAME))) by lia.
      exact N.
    + exact Hfit.
Qed.

Lemma path_of_key_and_value_witness :
  full_string
    (fst (make_name (store (full in_properties) 16 (code "/")) (16 + 1) tree_hive
            (key_name (cell 13)) (key_len tree_hive (cell 13))
            (Z.land (key_flags tree_hive (cell 13)) KEY_COMP_NAME))) =
  text_of (buf_read (full in_properties) 0 (Z.to_nat 16)) ++ "/" ++
  text_of (decoded_name tree_hive (key_name (cell 13)) (key_len tree_hive (cell 13))
             (Z.land (key_flags tree_hive (cell 13)) KEY_COMP_NAME)).
Proof.
  apply (path_of_key_and_value tree_hive (full in_properties) 16 (cell 13) (cell 14)).
  - lia.
  - intros j Hj.
    assert (Hc : In j (zrange 0 16)) by (cbn; lia).
    cbn [zrange Z.add Pos.add Pos.succ In] in Hc.
    repeat (destruct Hc as [<-|Hc]; [discriminate|]). contradiction.
  - vm_compute. reflexivity.
Defined.

(** ** The output is lines of printable ASCII *)

Lemma all_chars_hex_bytes (d : data_ptr) (n : nat) :
  forall i, all_chars printable (hex_bytes n i d) = true.
Proof.
  induction n as [|n IH]; intros i; cbn [hex_bytes]; [reflexivity|].
  rewrite !all_chars_app, all_chars_fmt_X, IH. destruct (i =? 0); reflexivity.
Qed.

Lemma all_chars_text_bytes (d : data_ptr) (n : nat) :
  forall i, all_chars printable (text_bytes n i d) = true.
Proof.
  induction n as [|n IH]; intros i; cbn [text_bytes]; [reflexivity|].
  rewrite all_chars_app, IH, andb_true_r.
  destruct (printable (data_char d i)) eqn:Hp.
  - cbn [all_chars]. now rewrite printable_code_chr.
  - rewrite !all_chars_app, all_chars_fmt_X. reflexivity.
Qed.

Lemma all_chars_text_units (all_str : bool) (type bintext size : Z) (d : data_ptr)
    (n : nat) :
  forall i, all_chars printable (text_units n i all_str type bintext size d) = true.
Proof.
  induction n as [|n IH]; intros i; cbn [text_units]; [reflexivity|].
  destruct (printable (data_us d i)) eqn:Hp.
  - cbn [all_chars]. now rewrite printable_code_chr, IH.
  - destruct ((data_us d i =? 0) && (type =? REG_MULTI_SZ) && (i + 1 <? size)
              && negb (data_us d (i + 1) =? 0)).
    + rewrite all_chars_app, IH. reflexivity.
    + destruct ((data_us d i =? 0) && negb all_str && (bintext =? 0));
        [reflexivity|].
      rewrite !all_chars_app, all_chars_fmt_X, IH. reflexivity.
Qed.

(** Whatever the value, what is printed for its data is printable ASCII. *)
Lemma all_chars_render (localtime : Z -> tm) (g : globals) (props : bool)
    (type size bintext : Z) (d : data_ptr) :
  all_chars printable (render localtime g props type size bintext d) = true.
Proof.
  unfold render. destruct (select_rule props type size bintext d).
  - rewrite !all_chars_app, all_chars_fmt_X, all_chars_fmt_d. reflexivity.
  - destruct (data_char d 0 =? -1); [reflexivity|].
    destruct (data_char d 0 =? 0); [reflexivity|apply all_chars_fmt_X].
  - destruct (Z.land type 65535 =? DEVPROP_TYPE_UINT16);
      rewrite !all_chars_app, all_chars_fmt_X, ?all_chars_fmt_u, ?all_chars_fmt_d;
      reflexivity.
  - rewrite all_chars_app, all_chars_print_time.
    destruct (type =? REG_QWORD);
      rewrite !all_chars_app, ?all_chars_fmt_X, ?all_chars_fmt_d,
        ?all_chars_hex_bytes; reflexivity.
  - rewrite !all_chars_app, all_chars_fmt_X, all_chars_fmt_d. reflexivity.
  - unfold text16. apply all_chars_text_units.
  - apply all_chars_text_bytes.
  - apply all_chars_hex_bytes.
Qed.

Lemma line_count_printable (s : string) :
  all_chars printable s = true -> line_count s = 0%nat.
Proof.
  induction s as [|c s IH]; cbn; [reflexivity|].
  rewrite andb_true_iff. intros [Hc Hs]. rewrite (IH Hs).
  match goal with
  | |- context [Ascii.eqb c ?x] => destruct (Ascii.eqb_spec c x) as [->|]
  end; [discriminate|reflexivity].
Qed.

Lemma whole_lines_nil : whole_lines "".
Proof. split; [reflexivity|now left]. Qed.

Lemma whole_lines_line (t : string) :
  all_chars printable t = true -> whole_lines (t ++ nl).
Proof.
  intros H. split; [|right; now exists t].
  rewrite all_chars_app. rewrite (all_chars_weaken _ _ _ printable_output H).
  reflexivity.
Qed.

Lemma whole_lines_app (a b : string) :
  whole_lines a -> whole_lines b -> whole_lines (a ++ b).
Proof.
  intros [Ha Ea] [Hb Eb]. split; [now rewrite all_chars_app, Ha, Hb|].
  destruct Eb as [->|[t ->]].
  - rewrite append_nil_r. exact Ea.
  - right. exists (a ++ t). now rewrite append_assoc.
Qed.

Lemma emits_refl (st : state) : emits st st.
Proof. exists "". split; [now rewrite append_nil_r|apply whole_lines_nil]. Qed.

Lemma emits_trans (st1 st2 st3 : state) : emits st1 st2 -> emits st2 st3 -> emits st1 st3.
Proof.
  intros (s1 & E1 & W1) (s2 & E2 & W2). exists (s1 ++ s2). split.
  - now rewrite E2, E1, append_assoc.
  - now apply whole_lines_app.
Qed.

Lemma emits_line (st : state) (t : string) :
  all_chars printable t = true -> emits st (print st (t ++ nl)).
Proof. intros H. exists (t ++ nl). split; [reflexivity|now apply whole_lines_line]. Qed.

Lemma emits_line2 (st : state) (a b : string) :
  all_chars printable a = true -> all_chars printable b = true ->
  emits st (print st (a ++ b ++ nl)).
Proof.
  intros Ha Hb. rewrite <- append_assoc. apply emits_line.
  now rewrite all_chars_app, Ha, Hb.
Qed.

Lemma emits_line3 (st : state) (a b c : string) :
  all_chars printable a = true -> all_chars printable b = true ->
  all_chars printable c = true ->
  emits st (print st (a ++ b ++ c ++ nl)).
Proof.
  intros Ha Hb Hc. rewrite <- (append_assoc b c nl). apply emits_line2; [exact Ha|].
  now rewrite all_chars_app, Hb, Hc.
Qed.

Lemma emits_flags (st st' : state) (lk : option flag) :
  emits st st' -> emits st (leave lk st').
Proof. intros H. destruct lk as [[|]|]; exact H. Qed.

Section Output.

Variable localtime : Z -> tm.
Variable g : globals.
Variable m : memory.

Lemma value_path_holds (b : buffer) (path val : Z) :
  printable_prefix b path -> exists q, holds_text (value_path m b path val) q.
Proof.
  intros Hp. unfold value_path. destruct (val_name_len m val =? 0).
  - destruct Hp as [Hp Hb]. exists (path + 2). split; [lia|]. split.
    + intros j Hj. destruct (Z.lt_ge_cases j path) as [Hlt|Hge].
      * rewrite !store_other by lia. apply Hb. lia.
      * destruct (Z.eq_dec j path) as [->|Hne].
        -- rewrite !store_other by lia. unfold store. now rewrite Z.eqb_refl.
        -- replace j with (path + 1) by lia. rewrite store_other by lia.
           unfold store. now rewrite Z.eqb_refl.
    + unfold store. now rewrite Z.eqb_refl.
  - eexists. apply name_at_path_holds, Hp.
Qed.

Lemma all_chars_value_header (b : buffer) (q key val : Z) :
  holds_text b q ->
  all_chars printable (value_header localtime g m b key val) = true.
Proof.
  intros Hb. unfold value_header.
  rewrite all_chars_app.
  replace (all_chars printable
             (if time_sec g || time_full g
              then print_time localtime (key_timestamp m key) (time_full g) true
              else "")) with true
    by (destruct (time_sec g || time_full g);
        [now rewrite all_chars_print_time|reflexivity]).
  destruct (hex_type g);
    rewrite !all_chars_app, ?all_chars_fmt_X, ?all_chars_fmt_d,
      (full_string_printable b q Hb); reflexivity.
Qed.

(** What one value adds to the output and leaves in the buffer. *)
Lemma print_value_line (st st' : state) (path key val : Z) :
  printable_prefix (full st) path ->
  print_value localtime g m st path key val = Done st' ->
  exists t,
    stdout st' = stdout st ++ t ++ nl
    /\ all_chars printable t = true
    /\ exists q, holds_text (full st') q.
Proof.
  intros Hp H. unfold print_value in H.
  apply bind_done in H as (data & _ & H). injection H as <-.
  destruct (value_path_holds (full st) path val Hp) as [q Hq].
  eexists. split; [|split].
  - cbn [stdout print set_full]. rewrite append_assoc, <- (append_assoc _ _ nl).
    reflexivity.
  - rewrite all_chars_app, (all_chars_value_header _ q key val Hq).
    apply all_chars_render.
  - exists q. exact Hq.
Qed.

Lemma prefix_kept (path : Z) (st st' : state) :
  kept path st st' -> printable_prefix (full st) path ->
  printable_prefix (full st') path.
Proof.
  intros (_ & _ & F) [Hp Hb]. split; [exact Hp|].
  intros j Hj. rewrite F by lia. apply Hb, Hj.
Qed.

Lemma print_values_lines (n : nat) (path key : Z) :
  forall o st st',
    printable_prefix (full st) path ->
    (exists q, holds_text (full st) q) ->
    print_values localtime g m n o st path key = Done st' ->
    emits st st' /\ exists q, holds_text (full st') q.
Proof.
  induction n as [|n IH]; intros o st st' Hp Hq H; cbn [print_values] in H.
  - injection H as <-. split; [apply emits_refl|exact Hq].
  - apply bind_done in H as (st1 & H1 & H2).
    destruct (print_value_line _ _ _ _ _ Hp H1) as (t & E & Ht & Hq1).
    apply print_value_kept in H1.
    destruct (IH _ _ _ (prefix_kept _ _ _ H1 Hp) Hq1 H2) as [Em Hq2].
    split; [|exact Hq2].
    eapply emits_trans; [|exact Em].
    exists (t ++ nl). split; [exact E|now apply whole_lines_line].
Qed.

Lemma walk_cells_lines (w : state -> Z -> Z -> outcome state) (path : Z) :
  (forall st key st',
      w st path key = Done st' -> printable_prefix (full st) path ->
      kept path st st' /\ emits st st' /\ exists q, holds_text (full st') q) ->
  forall cells st st',
    printable_prefix (full st) path ->
    (exists q, holds_text (full st) q) ->
    walk_cells w cells st path = Done st' ->
    emits st st' /\ exists q, holds_text (full st') q.
Proof.
  intros Hw cells. induction cells as [|key rest IH]; intros st st' Hp Hq H;
    cbn [walk_cells] in H.
  - injection H as <-. split; [apply emits_refl|exact Hq].
  - apply bind_done in H as (st1 & H1 & H2).
    destruct (Hw _ _ _ H1 Hp) as (K & Em1 & Hq1).
    destruct (IH _ _ (prefix_kept _ _ _ K Hp) Hq1 H2) as [Em2 Hq2].
    split; [eapply emits_trans; eassumption|exact Hq2].
Qed.

Lemma walk_lines (fuel : nat) :
  forall st path key st',
    walk localtime g m fuel st path key = Done st' ->
    printable_prefix (full st) path ->
    emits st st' /\ exists q, holds_text (full st') q.
Proof.
  induction fuel as [|fuel IH]; intros st path key st' H Hp; [discriminate|].
  cbn [walk] in H.
  pose proof (name_at_path_holds (full st) path m (key_name key) (key_len m key)
                (Z.land (key_flags m key) KEY_COMP_NAME) Hp) as Hb.
  pose proof (name_at_path (full st) path m (key_name key) (key_len m key)
                (Z.land (key_flags m key) KEY_COMP_NAME)) as (Hle & _).
  cbv zeta in Hle.
  destruct (make_name (store (full st) path (code "/")) (path + 1) m (key_name key)
              (key_len m key) (Z.land (key_flags m key) KEY_COMP_NAME))
    as [b path'].
  cbn [fst snd] in Hb, Hle.
  assert (Hp' : printable_prefix b path').
  { destruct Hb as (Hq & Hb & _). split; [lia|exact Hb]. }
  apply bind_done in H as ([[st2 leave_key] empty_key] & H1 & H).
  apply bind_done in H as ([st3 empty_key'] & H2 & H).
  injection H as <-.
  (* The values. *)
  assert (V : emits st st2 /\ printable_prefix (full st2) path'
              /\ exists q, holds_text (full st2) q).
  { destruct (only_keys g).
    - assert (E2 : st2 = print (set_full st b)
                             (print_time localtime (key_timestamp m key)
                                (time_full g) true ++ full_string b ++ nl))
        by congruence.
      rewrite E2. split; [|split; [exact Hp'|eauto]].
      apply (emits_line2 (set_full st b));
        [apply all_chars_print_time|apply (full_string_printable b path' Hb)].
    - destruct (enter_key_leave m (set_full st b) key) as (Ef & Eo & _).
      destruct (enter_key m (set_full st b) key) as [st1 lk]. cbn [fst snd] in *.
      apply bind_done in H1 as (st2' & H1 & H1'). injection H1' as <- _ _.
      assert (Hp1 : printable_prefix (full st1) path') by (rewrite Ef; exact Hp').
      assert (Hq1 : exists q, holds_text (full st1) q) by (rewrite Ef; eauto).
      destruct (print_values_lines _ _ _ _ _ _ Hp1 Hq1 H1) as [(s & E & W) Hq2].
      split; [|split; [|exact Hq2]].
      + exists s. split; [|exact W]. rewrite E, Eo. reflexivity.
      + apply print_values_kept in H1. apply (prefix_kept _ _ _ H1 Hp1). }
  destruct V as (Em2 & Hp2 & Hq2).
  (* The subkeys. *)
  assert (C : emits st2 st3 /\ exists q, holds_text (full st3) q).
  { destruct (key_subkeys m key =? -1).
    - injection H2 as <- _. split; [apply emits_refl|exact Hq2].
    - apply bind_done in H2 as (st4 & H2 & H3). injection H3 as <- _.
      refine (walk_cells_lines (walk localtime g m fuel) path' _ _ _ _ Hp2 Hq2 H2).
      intros s k s' Hs Hps. split; [apply (walk_kept _ _ _ _ _ _ _ _ Hs)|].
      apply (IH _ _ _ _ Hs Hps). }
  destruct C as (Em3 & q3 & Hq3).
  (* The line of the key. *)
  split.
  - apply emits_flags.
    eapply emits_trans; [exact Em2|]. eapply emits_trans; [exact Em3|].
    destruct (empty_key' && negb (only_values g)); [|apply emits_refl].
    unfold key_line. apply emits_line3.
    + destruct (time_sec g || time_full g);
        [apply all_chars_print_time|reflexivity].
    + destruct (hex_type g); [apply all_chars_spaces|reflexivity].
    + apply (full_string_printable _ q3 Hq3).
  - exists q3.
    destruct (empty_key' && negb (only_values g)), leave_key as [[|]|]; exact Hq3.
Qed.

End Output.

(** X5. One line per value.  When the path of the key is printable ASCII,
    what [walk] prints for one value of the key is exactly one line: a text
    of printable ASCII characters, whatever the bytes of the name and of
    the data, and the newline that ends it. *)
Theorem one_line_per_value (localtime : Z -> tm) (g : globals) (m : memory)
    (st st' : state) (path key val : Z) :
  printable_prefix (full st) path ->
  print_value localtime g m st path key val = Done st' ->
  exists t,
    stdout st' = stdout st ++ t ++ nl
    /\ all_chars printable t = true
    /\ line_count (t ++ nl) = 1%nat.
Proof.
  intros Hp H.
  destruct (print_value_line localtime g m st st' path key val Hp H)
    as (t & E & Ht & _).
  exists t. split; [exact E|]. split; [exact Ht|].
  rewrite line_count_app, (line_count_printable t Ht). reflexivity.
Qed.

Lemma in_ROOT_prefix : printable_prefix (full in_ROOT) 5.
Proof.
  split; [lia|]. intros j Hj.
  assert (Hc : In j (zrange 0 5)) by (cbn; lia).
  cbn [zrange Z.add Pos.add Pos.succ In] in Hc.
  repeat (destruct Hc as [<-|Hc]; [reflexivity|]). contradiction.
Qed.

Lemma one_line_per_value_witness :
  print_value utc no_flags tree_hive in_ROOT 5 (cell 0) (cell 2) =
    Done (final (print_value utc no_flags tree_hive in_ROOT 5 (cell 0) (cell 2)))
  /\ (exists t,
        stdout (final (print_value utc no_flags tree_hive in_ROOT 5 (cell 0) (cell 2)))
          = stdout in_ROOT ++ t ++ nl
        /\ all_chars printable t = true
        /\ line_count (t ++ nl) = 1%nat)
  /\ stdout (final (print_value utc no_flags tree_hive in_ROOT 5 (cell 0) (cell 2)))
     = "/ROOT/dw1 [4:4] = 0x12345678 (305419896)" ++ nl.
Proof.
  assert (E : print_value utc no_flags tree_hive in_ROOT 5 (cell 0) (cell 2) =
              Done (final (print_value utc no_flags tree_hive in_ROOT 5 (cell 0)
                             (cell 2))))
    by (vm_compute; reflexivity).
  split; [exact E|]. split; [|vm_compute; reflexivity].
  exact (one_line_per_value utc no_flags tree_hive in_ROOT _ 5 (cell 0) (cell 2)
           in_ROOT_prefix E).
Defined.

(** X6. Everything [walk] prints is lines of printable ASCII.  A call that
    returns, given a path of printable ASCII (none, for the call of
    [main]), has only added to the output, and what it added is made of
    characters from 32 to 126 and of newlines, and ends with a newline
    unless it is empty: key names, value names and data never put another
    byte on the output. *)
Theorem walk_prints_ascii_lines (localtime : Z -> tm) (g : globals) (m : memory)
    (fuel : nat) (st st' : state) (path key : Z) :
  printable_prefix (full st) path ->
  walk localtime g m fuel st path key = Done st' ->
  exists s,
    stdout st' = stdout st ++ s
    /\ all_chars output_char s = true
    /\ (s = "" \/ exists t, s = t ++ nl).
Proof.
  intros Hp H.
  destruct (walk_lines localtime g m fuel st path key st' H Hp)
    as [(s & E & W & L) _].
  exists s. repeat split; assumption.
Qed.

Lemma walk_prints_ascii_lines_witness :
  tree_walk = Done (final tree_walk)
  /\ exists s,
       stdout (final tree_walk) = stdout (initial_state path0) ++ s
       /\ all_chars output_char s = true
       /\ (s = "" \/ exists t, s = t ++ nl).
Proof.
  assert (E : tree_walk = Done (final tree_walk)) by (vm_compute; reflexivity).
  split; [exact E|].
  refine (walk_prints_ascii_lines utc no_flags tree_hive 4 (initial_state path0) _
            0 (cell 0) _ E).
  split; [lia|]. intros j Hj. lia.
Defined.

(** ** What is left in the path buffer does not matter *)

Lemma cstring_same (b1 b2 : buffer) (q : Z) (fuel : nat) :
  forall i,
    i <= q -> (forall j, i <= j <= q -> b1 j = b2 j) -> b1 q mod 256 = 0 ->
    cstring fuel b1 i = cstring fuel b2 i.
Proof.
  induction fuel as [|fuel IH]; intros i Hi Hb Hq; cbn [cstring]; [reflexivity|].
  rewrite <- (Hb i) by lia.
  destruct (Z.eqb_spec (b1 i mod 256) 0) as [E|E]; [reflexivity|].
  assert (i < q) by (destruct (Z.eq_dec i q) as [->|]; [contradiction|lia]).
  f_equal. apply IH; [lia| |exact Hq]. intros j Hj. apply Hb. lia.
Qed.

Lemma full_string_same (b1 b2 : buffer) :
  same_text b1 b2 -> full_string b1 = full_string b2.
Proof. intros (q & Hq & Hb & H0). now apply (cstring_same b1 b2 q). Qed.

(** Writing ["/"] and a name at [path] in two buffers that agree before
    [path] leaves them agreeing up to the NUL of the name. *)
Lemma name_at_path_same (b1 b2 : buffer) (path : Z) (m : memory) (inp len comp : Z) :
  0 <= path ->
  (forall j, 0 <= j < path -> b1 j = b2 j) ->
  let r1 := make_name (store b1 path (code "/")) (path + 1) m inp len comp in
  let r2 := make_name (store b2 path (code "/")) (path + 1) m inp len comp in
  snd r1 = snd r2
  /\ path + 1 <= snd r1
  /\ (forall j, 0 <= j <= snd r1 -> fst r1 j = fst r2 j)
  /\ fst r1 (snd r1) = 0.
Proof.
  intros Hp Hb r1 r2.
  destruct (name_at_path b1 path m inp len comp) as (Hle1 & F1 & S1 & R1 & N1).
  destruct (name_at_path b2 path m inp len comp) as (Hle2 & F2 & S2 & R2 & N2).
  cbv zeta in *. fold r1 in Hle1, F1, S1, R1, N1. fold r2 in Hle2, F2, S2, R2, N2.
  assert (E : snd r1 = snd r2).
  { apply (f_equal (@List.length Z)) in R1, R2. rewrite length_buf_read in R1, R2.
    lia. }
  split; [exact E|]. split; [exact Hle1|]. split; [|exact N1].
  intros j Hj.
  destruct (Z.lt_ge_cases j path) as [Hlt|Hge]; [rewrite F1, F2 by lia; apply Hb; lia|].
  destruct (Z.eq_dec j path) as [->|Hne]; [now rewrite S1, S2|].
  destruct (Z.eq_dec j (snd r1)) as [->|Hne']; [rewrite N1, E, N2; reflexivity|].
  replace j with (path + 1 + Z.of_nat (Z.to_nat (j - (path + 1)))) by lia.
  rewrite (buf_read_nth _ _ _ _ R1) by lia.
  rewrite (buf_read_nth _ _ _ _ R2) by lia. reflexivity.
Qed.

Lemma alike_below (pre1 pre2 : string) (path path' : Z) (s1 s2 : state) :
  path <= path' -> alike pre1 pre2 path' s1 s2 -> alike pre1 pre2 path s1 s2.
Proof.
  intros Hle (P & D & O & F). repeat split; try assumption.
  intros j Hj. apply F. lia.
Qed.

Section Stale.

Variable localtime : Z -> tm.
Variable g : globals.
Variable m : memory.
Variables pre1 pre2 : string.

Lemma print_same (path : Z) (s1 s2 : state) (t : string) :
  alike pre1 pre2 path s1 s2 -> alike pre1 pre2 path (print s1 t) (print s2 t).
Proof.
  intros (P & D & O & F).
  repeat split; cbn [properties driverpackages stdout full print]; try assumption.
  now rewrite <- !append_assoc, O.
Qed.

Lemma value_path_same (b1 b2 : buffer) (path val : Z) :
  0 <= path -> (forall j, 0 <= j < path -> b1 j = b2 j) ->
  same_text (value_path m b1 path val) (value_path m b2 path val).
Proof.
  intros Hp Hb. unfold value_path. destruct (val_name_len m val =? 0).
  - exists (path + 2). split; [lia|]. split.
    + intros j Hj. unfold store.
      destruct (Z.eqb_spec j (path + 2)), (Z.eqb_spec j (path + 1)),
        (Z.eqb_spec j path); try reflexivity.
      apply Hb. lia.
    + unfold store. now rewrite Z.eqb_refl.
  - destruct (name_at_path_same b1 b2 path m (val_name val) (val_name_len m val)
                (Z.land (val_flags m val) VALUE_COMP_NAME) Hp Hb)
      as (E & Hle & F & N).
    cbv zeta in E, Hle, F, N.
    eexists. split; [|split; [exact F|rewrite N; reflexivity]]. lia.
Qed.

Lemma print_value_same (s1 s2 s1' : state) (path key val : Z) :
  0 <= path -> alike pre1 pre2 path s1 s2 ->
  print_value localtime g m s1 path key val = Done s1' ->
  exists s2',
    print_value localtime g m s2 path key val = Done s2'
    /\ alike pre1 pre2 path s1' s2' /\ same_text (full s1') (full s2').
Proof.
  intros Hp (P & D & O & F) H. unfold print_value in H |- *.
  apply bind_done in H as (data & Hm & H). injection H as <-.
  rewrite Hm. cbn [bind].
  pose proof (value_path_same (full s1) (full s2) path val Hp F) as Hs.
  pose proof (full_string_same _ _ Hs) as Hf.
  eexists. split; [reflexivity|]. split; [|exact Hs].
  repeat split; cbn [properties driverpackages stdout full print set_full].
  - exact P.
  - exact D.
  - unfold value_header. rewrite Hf, P, D.
    match goal with
    | |- pre1 ++ ((_ ++ ?h) ++ ?r) = _ => generalize h, r
    end.
    intros h r. now rewrite <- !append_assoc, O.
  - intros j Hj. rewrite !value_path_frame by lia. apply F, Hj.
Qed.

Lemma print_values_same (n : nat) (path key : Z) :
  forall o s1 s2 s1',
    0 <= path -> alike pre1 pre2 path s1 s2 -> same_text (full s1) (full s2) ->
    print_values localtime g m n o s1 path key = Done s1' ->
    exists s2',
      print_values localtime g m n o s2 path key = Done s2'
      /\ alike pre1 pre2 path s1' s2' /\ same_text (full s1') (full s2').
Proof.
  induction n as [|n IH]; intros o s1 s2 s1' Hp Ha Hs H; cbn [print_values] in H |- *.
  - injection H as <-. eauto.
  - apply bind_done in H as (t1 & H1 & H2).
    destruct (print_value_same _ _ _ _ _ _ Hp Ha H1) as (t2 & E2 & Ha2 & Hs2).
    rewrite E2. cbn [bind]. eapply IH; eassumption.
Qed.

Lemma walk_cells_same (w : state -> Z -> Z -> outcome state) (path : Z) :
  (forall s1 s2 key s1',
      alike pre1 pre2 path s1 s2 -> w s1 path key = Done s1' ->
      exists s2', w s2 path key = Done s2'
                  /\ alike pre1 pre2 path s1' s2' /\ same_text (full s1') (full s2')) ->
  forall cells s1 s2 s1',
    alike pre1 pre2 path s1 s2 -> same_text (full s1) (full s2) ->
    walk_cells w cells s1 path = Done s1' ->
    exists s2',
      walk_cells w cells s2 path = Done s2'
      /\ alike pre1 pre2 path s1' s2' /\ same_text (full s1') (full s2').
Proof.
  intros Hw cells. induction cells as [|key rest IH]; intros s1 s2 s1' Ha Hs H;
    cbn [walk_cells] in H |- *.
  - injection H as <-. eauto.
  - apply bind_done in H as (t1 & H1 & H2).
    destruct (Hw _ _ _ _ Ha H1) as (t2 & E2 & Ha2 & Hs2).
    rewrite E2. cbn [bind]. eapply IH; eassumption.
Qed.

Lemma enter_key_same (path key : Z) (s1 s2 : state) :
  alike pre1 pre2 path s1 s2 ->
  snd (enter_key m s1 key) = snd (enter_key m s2 key)
  /\ alike pre1 pre2 path (fst (enter_key m s1 key)) (fst (enter_key m s2 key))
  /\ full (fst (enter_key m s1 key)) = full s1
  /\ full (fst (enter_key m s2 key)) = full s2.
Proof.
  intros (P & D & O & F). unfold enter_key.
  destruct s1 as [p1 d1 f1 o1], s2 as [p2 d2 f2 o2].
  cbn [properties driverpackages stdout full] in *. subst p2 d2.
  destruct p1, d1, (name_is m "Properties" key), (name_is m "DriverPackages" key);
    cbn [negb fst snd properties driverpackages full stdout];
    repeat split; assumption.
Qed.

Lemma leave_same (path : Z) (lk : option flag) (s1 s2 : state) :
  alike pre1 pre2 path s1 s2 -> alike pre1 pre2 path (leave lk s1) (leave lk s2).
Proof.
  intros (P & D & O & F).
  destruct lk as [[|]|]; repeat split; cbn; assumption.
Qed.

Lemma key_line_same (path key : Z) (c : bool) (s1 s2 : state) :
  alike pre1 pre2 path s1 s2 -> same_text (full s1) (full s2) ->
  alike pre1 pre2 path
    (if c then print s1 (key_line localtime g m key (full s1)) else s1)
    (if c then print s2 (key_line localtime g m key (full s2)) else s2)
  /\ same_text
       (full (if c then print s1 (key_line localtime g m key (full s1)) else s1))
       (full (if c then print s2 (key_line localtime g m key (full s2)) else s2)).
Proof.
  intros Ha Hs. destruct c; [|now split].
  split; [|exact Hs].
  unfold key_line. rewrite (full_string_same _ _ Hs). apply print_same, Ha.
Qed.

Lemma full_leave (lk : option flag) (s : state) : full (leave lk s) = full s.
Proof. destruct lk as [[|]|]; reflexivity. Qed.

Lemma walk_same (fuel : nat) :
  forall s1 s2 path key s1',
    0 <= path -> alike pre1 pre2 path s1 s2 ->
    walk localtime g m fuel s1 path key = Done s1' ->
    exists s2',
      walk localtime g m fuel s2 path key = Done s2'
      /\ alike pre1 pre2 path s1' s2' /\ same_text (full s1') (full s2').
Proof.
  induction fuel as [|fuel IH]; intros s1 s2 path key s1' Hp Ha H; [discriminate|].
  cbn [walk] in H |- *.
  destruct Ha as (P & D & O & F).
  destruct (name_at_path_same (full s1) (full s2) path m (key_name key)
              (key_len m key) (Z.land (key_flags m key) KEY_COMP_NAME) Hp F)
    as (E & Hle & Fb & N).
  cbv zeta in E, Hle, Fb, N.
  destruct (make_name (store (full s1) path (code "/")) (path + 1) m (key_name key)
              (key_len m key) (Z.land (key_flags m key) KEY_COMP_NAME))
    as [b1 path'].
  destruct (make_name (store (full s2) path (code "/")) (path + 1) m (key_name key)
              (key_len m key) (Z.land (key_flags m key) KEY_COMP_NAME))
    as [b2 path2].
  cbn [fst snd] in E, Hle, Fb, N. subst path2.
  assert (Hp' : 0 <= path') by lia.
  assert (Hsb : same_text b1 b2).
  { exists path'. split; [lia|]. split; [exact Fb|rewrite N; reflexivity]. }
  assert (Hab : alike pre1 pre2 path' (set_full s1 b1) (set_full s2 b2)).
  { repeat split; cbn [properties driverpackages stdout full set_full];
      try assumption.
    intros j Hj. apply Fb. lia. }
  apply bind_done in H as ([[t1 leave_key] empty_key] & H1 & H).
  apply bind_done in H as ([u1 empty_key'] & H2 & H).
  injection H as <-.
  (* The values. *)
  assert (V : exists t2,
             (if only_keys g
              then Done (print (set_full s2 b2)
                           (print_time localtime (key_timestamp m key)
                              (time_full g) true ++ full_string b2 ++ nl),
                         None, false)
              else let '(st, leave_key) := enter_key m (set_full s2 b2) key in
                   st <- print_values localtime g m
                           (Z.to_nat (key_value_count m key)) 0 st path' key ;;
                   Done (st, leave_key, key_value_count m key =? 0))
             = Done (t2, leave_key, empty_key)
             /\ alike pre1 pre2 path' t1 t2 /\ same_text (full t1) (full t2)).
  { destruct (only_keys g).
    - assert (E1 : t1 = print (set_full s1 b1)
                           (print_time localtime (key_timestamp m key)
                              (time_full g) true ++ full_string b1 ++ nl)
                   /\ leave_key = None /\ empty_key = false).
      { repeat split; congruence. }
      destruct E1 as (-> & -> & ->).
      eexists. split; [reflexivity|]. split; [|exact Hsb].
      rewrite (full_string_same _ _ Hsb). apply print_same, Hab.
    - destruct (enter_key_same path' key _ _ Hab) as (Elk & Hae & Ef1 & Ef2).
      destruct (enter_key m (set_full s1 b1) key) as [e1 lk1].
      destruct (enter_key m (set_full s2 b2) key) as [e2 lk2].
      cbn [fst snd] in *. subst lk2.
      apply bind_done in H1 as (t1' & H1 & H1').
      assert (E1 : t1' = t1 /\ lk1 = leave_key
                   /\ (key_value_count m key =? 0) = empty_key).
      { repeat split; congruence. }
      destruct E1 as (-> & -> & <-).
      assert (Hse : same_text (full e1) (full e2)) by (rewrite Ef1, Ef2; exact Hsb).
      destruct (print_values_same _ _ _ _ _ _ _ Hp' Hae Hse H1)
        as (t2 & E2 & Ha2 & Hs2).
      exists t2. rewrite E2. cbn [bind]. split; [reflexivity|split; assumption]. }
  destruct V as (t2 & EV & Hat & Hst). rewrite EV. cbn [bind].
  (* The subkeys. *)
  assert (C : exists u2,
             (if key_subkeys m key =? -1 then Done (t2, empty_key)
              else
                st <- walk_cells (walk localtime g m fuel)
                        (subkey_cells m (key_subkeys m key + root)) t2 path' ;;
                Done (st,
                      if list_count m (key_subkeys m key + root) =? 0
                      then empty_key else false))
             = Done (u2, empty_key')
             /\ alike pre1 pre2 path' u1 u2 /\ same_text (full u1) (full u2)).
  { destruct (key_subkeys m key =? -1).
    - assert (E1 : t1 = u1 /\ empty_key = empty_key') by (split; congruence).
      destruct E1 as [<- <-]. eauto.
    - apply bind_done in H2 as (u1' & H2 & H2').
      assert (E1 : u1' = u1
                   /\ (if list_count m (key_subkeys m key + root) =? 0
                       then empty_key else false) = empty_key')
        by (split; congruence).
      destruct E1 as [-> <-].
      destruct (walk_cells_same (walk localtime g m fuel) path'
                  (fun a b k a' Hab' Hw => IH a b path' k a' Hp' Hab' Hw)
                  _ _ _ _ Hat Hst H2) as (u2 & E2 & Ha2 & Hs2).
      exists u2. rewrite E2. cbn [bind]. split; [reflexivity|split; assumption]. }
  destruct C as (u2 & EC & Hau & Hsu). rewrite EC. cbn [bind].
  eexists. split; [reflexivity|].
  destruct (key_line_same path' key (empty_key' && negb (only_values g)) _ _ Hau Hsu)
    as [Hak Hsk].
  split.
  - apply leave_same. apply (alike_below pre1 pre2 path path'); [lia|exact Hak].
  - rewrite !full_leave. exact Hsk.
Qed.

End Stale.

(** X7. What was left in the path buffer does not matter.  [walk] is given
    a position in a buffer that [main] never clears; two calls that differ
    only in what the buffer holds from that position on both return or
    both do not, with the same output and the same flags: no line ever
    shows bytes that an earlier key, value or file left behind. *)
Theorem walk_ignores_stale_path (localtime : Z -> tm) (g : globals) (m : memory)
    (fuel : nat) (st st' : state) (path key : Z) (junk : buffer) :
  0 <= path ->
  (forall j, 0 <= j < path -> junk j = full st j) ->
  walk localtime g m fuel st path key = Done st' ->
  exists st'',
    walk localtime g m fuel (set_full st junk) path key = Done st''
    /\ stdout st'' = stdout st'
    /\ properties st'' = properties st'
    /\ driverpackages st'' = driverpackages st'.
Proof.
  intros Hp Hj H.
  assert (Ha : alike "" "" path st (set_full st junk)).
  { repeat split. intros j Hjr. cbn. symmetry. apply Hj, Hjr. }
  destruct (walk_same localtime g m "" "" fuel _ _ _ _ _ Hp Ha H)
    as (st'' & E & (P & D & O & _) & _).
  exists st''. repeat split; [exact E|symmetry; exact O|congruence..].
Qed.

Lemma walk_ignores_stale_path_witness :
  tree_walk = Done (final tree_walk)
  /\ exists st'',
       walk utc no_flags tree_hive 4 (set_full (initial_state path0) (fun _ => 88))
         0 (cell 0) = Done st''
       /\ stdout st'' = stdout (final tree_walk)
       /\ properties st'' = properties (final tree_walk)
       /\ driverpackages st'' = driverpackages (final tree_walk).
Proof.
  assert (E : tree_walk = Done (final tree_walk)) by (vm_compute; reflexivity).
  split; [exact E|].
  refine (walk_ignores_stale_path utc no_flags tree_hive 4 (initial_state path0) _
            0 (cell 0) (fun _ => 88) _ _ E).
  - lia.
  - intros j Hj. lia.
Defined.

(** ** Where a string stops *)

Lemma text_units_step (all_str : bool) (type bintext size : Z) (d : data_ptr)
    (n : nat) (i : Z) :
  data_us d i <> 0 ->
  text_units (S n) i all_str type bintext size d =
  unit_text (data_us d i) ++ text_units n (i + 1) all_str type bintext size d.
Proof.
  intros Hc. cbn [text_units]. unfold unit_text.
  destruct (printable (data_us d i)); [reflexivity|].
  destruct (Z.eqb_spec (data_us d i) 0); [contradiction|]. cbn [andb].
  generalize (fmt_X (if data_us d i <? 256 then 2 else 4) (data_us d i)).
  generalize (text_units n (i + 1) all_str type bintext size d).
  intros rest digits. cbn [append]. now rewrite !append_assoc.
Qed.

(** With [-s], or when the heuristic fired, a NUL of a type other than
    MULTI_SZ is printed like any other unit. *)
Lemma text_units_step_all (all_str : bool) (type bintext size : Z) (d : data_ptr)
    (n : nat) (i : Z) :
  type <> REG_MULTI_SZ -> all_str = true \/ bintext <> 0 ->
  text_units (S n) i all_str type bintext size d =
  unit_text (data_us d i) ++ text_units n (i + 1) all_str type bintext size d.
Proof.
  intros Ht Ha. cbn [text_units]. unfold unit_text.
  destruct (printable (data_us d i)); [reflexivity|].
  destruct (Z.eqb_spec type REG_MULTI_SZ); [contradiction|].
  rewrite !andb_false_r. cbn [andb].
  replace ((data_us d i =? 0) && negb all_str && (bintext =? 0)) with false.
  - generalize (fmt_X (if data_us d i <? 256 then 2 else 4) (data_us d i)).
    generalize (text_units n (i + 1) all_str type bintext size d).
    intros rest digits. cbn [append]. now rewrite !append_assoc.
  - destruct Ha as [-> | Hb].
    + cbn [negb]. now rewrite andb_false_r.
    + destruct (Z.eqb_spec bintext 0); [contradiction|]. now rewrite andb_false_r.
Qed.

Lemma text_units_no_nul (all_str : bool) (type bintext size : Z) (d : data_ptr)
    (n : nat) :
  forall i,
    (forall j, i <= j < i + Z.of_nat n -> data_us d j <> 0) ->
    text_units n i all_str type bintext size d = units_text d i n.
Proof.
  induction n as [|n IH]; intros i H; [reflexivity|].
  rewrite text_units_step by (apply H; lia).
  cbn [units_text]. rewrite IH; [reflexivity|]. intros j Hj. apply H. lia.
Qed.

Lemma text_units_all (all_str : bool) (type bintext size : Z) (d : data_ptr)
    (n : nat) :
  type <> REG_MULTI_SZ -> all_str = true \/ bintext <> 0 ->
  forall i, text_units n i all_str type bintext size d = units_text d i n.
Proof.
  intros Ht Ha. induction n as [|n IH]; intros i; [reflexivity|].
  rewrite text_units_step_all by assumption.
  cbn [units_text]. now rewrite IH.
Qed.

(** Without [-s] the loop of a type other than MULTI_SZ ends at the first
    NUL. *)
Lemma text_units_cut (type size : Z) (d : data_ptr) (k : nat) :
  type <> REG_MULTI_SZ ->
  forall n i,
    (forall j, i <= j < i + Z.of_nat k -> data_us d j <> 0) ->
    data_us d (i + Z.of_nat k) = 0 -> (k < n)%nat ->
    text_units n i false type 0 size d = units_text d i k ++ " <...>".
Proof.
  intros Ht. induction k as [|k IH]; intros n i Hnz H0 Hk.
  - destruct n as [|n]; [lia|]. rewrite Z.add_0_r in H0.
    cbn [text_units units_text]. rewrite H0.
    destruct (Z.eqb_spec type REG_MULTI_SZ); [contradiction|]. reflexivity.
  - destruct n as [|n]; [lia|].
    rewrite text_units_step by (apply Hnz; lia).
    cbn [units_text]. rewrite (IH n (i + 1)).
    + now rewrite append_assoc.
    + intros j Hj. apply Hnz. lia.
    + replace (i + 1 + Z.of_nat k) with (i + Z.of_nat (S k)) by lia. exact H0.
    + lia.
Qed.

Lemma drop_nuls_le (d : data_ptr) (fuel : nat) :
  forall size, drop_nuls fuel d size <= size.
Proof.
  induction fuel as [|fuel IH]; intros size; cbn [drop_nuls]; [lia|].
  destruct ((size >? 0) && (data_us d (size - 1) =? 0)); [|lia].
  specialize (IH (size - 1)). lia.
Qed.

(** The trimming stops above every unit that is not 0. *)
Lemma drop_nuls_keeps (d : data_ptr) (fuel : nat) :
  forall size j,
    0 <= j < size -> data_us d j <> 0 -> j < drop_nuls fuel d size.
Proof.
  induction fuel as [|fuel IH]; intros size j Hj Hnz; cbn [drop_nuls]; [lia|].
  destruct (Z.gtb_spec size 0); [|lia]. cbn [andb].
  destruct (Z.eqb_spec (data_us d (size - 1)) 0) as [E|E]; [|lia].
  apply IH; [|exact Hnz].
  destruct (Z.eq_dec j (size - 1)) as [->|]; [contradiction|lia].
Qed.

(** What the trimming returns: the units from there on are 0 and the one
    before is not. *)
Lemma drop_nuls_spec (d : data_ptr) (fuel : nat) :
  forall size n,
    0 <= n <= size -> size - n <= Z.of_nat fuel ->
    (forall i, n <= i < size -> data_us d i = 0) ->
    n = 0 \/ data_us d (n - 1) <> 0 ->
    drop_nuls fuel d size = n.
Proof.
  induction fuel as [|fuel IH]; intros size n Hn Hf Hz Hl; cbn [drop_nuls]; [lia|].
  destruct (Z.eq_dec size n) as [->|Hne].
  - destruct Hl as [->|Hl]; [reflexivity|].
    destruct (Z.eqb_spec (data_us d (n - 1)) 0); [contradiction|].
    now rewrite andb_false_r.
  - destruct (Z.gtb_spec size 0); [|lia].
    rewrite (Hz (size - 1)) by lia. cbn [andb Z.eqb].
    apply IH; try lia; try assumption. intros i Hi. apply Hz. lia.
Qed.

Lemma select_rule_string (props : bool) (type size bintext : Z) (d : data_ptr) :
  type = REG_SZ \/ type = REG_EXPAND_SZ \/ type = REG_LINK \/ type = REG_MULTI_SZ ->
  select_rule props type size bintext d = Text16.
Proof.
  intros [-> | [-> | [-> | ->]]]; unfold select_rule;
    destruct props, (size =? 1), (size =? 2), (size =? 8), (size =? 4);
    reflexivity.
Qed.

Lemma bintext_of_string (type size : Z) (d : data_ptr) :
  type = REG_SZ \/ type = REG_EXPAND_SZ \/ type = REG_LINK \/ type = REG_MULTI_SZ ->
  bintext_of type size d = 0.
Proof. intros [-> | [-> | [-> | ->]]]; reflexivity. Qed.

(** X8. Where a string stops.  Take a value of type SZ, EXPAND_SZ or LINK
    whose first NUL is unit [k] and whose last unit that is not 0 comes
    after it, [n] being the number of units up to that one.  Without [-s]
    it is printed up to the first NUL and then [" <...>"]; with [-s]
    exactly its first [n] units are printed, a NUL among them as ["<00>"],
    and the NULs at the end are not. *)
Theorem string_cut_at_first_nul (localtime : Z -> tm) (props : bool)
    (type size : Z) (d : data_ptr) (k n : Z) :
  type = REG_SZ \/ type = REG_EXPAND_SZ \/ type = REG_LINK ->
  0 <= k < n -> n <= Z.quot size 2 ->
  (forall i, 0 <= i < k -> data_us d i <> 0) ->
  data_us d k = 0 ->
  data_us d (n - 1) <> 0 ->
  (forall i, n <= i < Z.quot size 2 -> data_us d i = 0) ->
  (forall g,
      all_string g = false ->
      render localtime g props type size (bintext_of type size d) d =
      units_text d 0 (Z.to_nat k) ++ " <...>")
  /\ (forall g,
         all_string g = true ->
         render localtime g props type size (bintext_of type size d) d =
         units_text d 0 (Z.to_nat n))
  /\ unit_text 0 = "<00>".
Proof.
  intros Ht Hk Hn Hnz H0 Hlast Hz.
  assert (Ht4 : type = REG_SZ \/ type = REG_EXPAND_SZ \/ type = REG_LINK
                \/ type = REG_MULTI_SZ) by tauto.
  assert (Hm : type <> REG_MULTI_SZ)
    by (destruct Ht as [-> | [-> | ->]]; discriminate).
  assert (Ed : drop_nuls (Z.to_nat (Z.quot size 2)) d (Z.quot size 2) = n).
  { apply drop_nuls_spec; [lia|lia|exact Hz|now right]. }
  split; [|split; [|reflexivity]]; intros g Hg; unfold render;
    rewrite (bintext_of_string _ _ _ Ht4), (select_rule_string _ _ _ _ _ Ht4);
    unfold text16; change (0 =? 0) with true; cbv iota; rewrite Ed, Hg.
  - apply (text_units_cut type n d (Z.to_nat k) Hm).
    + intros i Hi. apply Hnz. lia.
    + replace (0 + Z.of_nat (Z.to_nat k)) with k by lia. exact H0.
    + lia.
  - apply text_units_all; [exact Hm|now left].
Qed.

Lemma string_cut_at_first_nul_witness :
  render utc no_flags false REG_SZ 10 (bintext_of REG_SZ 10 multi_sz_AB) multi_sz_AB =
  units_text multi_sz_AB 0 (Z.to_nat 1) ++ " <...>"
  /\ render utc flag_s false REG_SZ 10 (bintext_of REG_SZ 10 multi_sz_AB) multi_sz_AB =
     units_text multi_sz_AB 0 (Z.to_nat 3)
  /\ units_text multi_sz_AB 0 (Z.to_nat 1) ++ " <...>" = "A <...>"
  /\ units_text multi_sz_AB 0 (Z.to_nat 3) = "A<00>B".
Proof.
  assert (H : forall i, 3 <= i < Z.quot 10 2 -> data_us multi_sz_AB i = 0).
  { intros i Hi. change (Z.quot 10 2) with 5 in Hi.
    assert (Hc : i = 3 \/ i = 4) by lia.
    destruct Hc as [-> | ->]; vm_compute; reflexivity. }
  destruct (string_cut_at_first_nul utc false REG_SZ 10 multi_sz_AB 1 3
              (or_introl eq_refl) ltac:(lia) ltac:(vm_compute; discriminate)
              ltac:(intros i Hi; replace i with 0 by lia; vm_compute; discriminate)
              ltac:(vm_compute; reflexivity) ltac:(vm_compute; discriminate) H)
    as (H1 & H2 & _).
  split; [exact (H1 no_flags eq_refl)|].
  split; [exact (H2 flag_s eq_refl)|].
  split; vm_compute; reflexivity.
Defined.

(** ** The strings of a MULTI_SZ *)

Lemma units_text_list (d : data_ptr) (l : list Z) :
  forall i,
    (forall t, (t < List.length l)%nat -> data_us d (i + Z.of_nat t) = nth t l 0) ->
    units_text d i (List.length l) = list_text l.
Proof.
  induction l as [|c l IH]; intros i H; [reflexivity|].
  cbn [List.length units_text list_text].
  pose proof (H 0%nat ltac:(cbn; lia)) as H0.
  cbn [Z.of_nat nth] in H0. rewrite Z.add_0_r in H0. rewrite H0.
  rewrite (IH (i + 1)); [reflexivity|].
  intros t Ht. replace (i + 1 + Z.of_nat t) with (i + Z.of_nat (S t)) by lia.
  apply (H (S t)). cbn. lia.
Qed.

Lemma text_units_app (all_str : bool) (type bintext size : Z) (d : data_ptr)
    (a b : nat) :
  forall i,
    (forall j, i <= j < i + Z.of_nat a -> data_us d j <> 0) ->
    text_units (a + b) i all_str type bintext size d =
    units_text d i a ++ text_units b (i + Z.of_nat a) all_str type bintext size d.
Proof.
  induction a as [|a IH]; intros i H.
  - cbn [Nat.add units_text append]. now rewrite Z.add_0_r.
  - cbn [Nat.add]. rewrite text_units_step by (apply H; lia).
    cbn [units_text]. rewrite IH by (intros j Hj; apply H; lia).
    rewrite append_assoc.
    replace (i + 1 + Z.of_nat a) with (i + Z.of_nat (S a)) by lia. reflexivity.
Qed.

Lemma length_multi_units (s : list Z) (rest : list (list Z)) :
  List.length (multi_units (s :: rest)) =
  (List.length s + S (List.length (multi_units rest)))%nat.
Proof. cbn [multi_units]. now rewrite length_app. Qed.

Lemma multi_units_proper (strs : list (list Z)) :
  Forall proper_string strs -> strs <> [] ->
  (2 <= List.length (multi_units strs))%nat.
Proof.
  intros H Hne. destruct strs as [|s rest]; [contradiction|].
  apply Forall_cons_iff in H as [[Hs _] _]. rewrite length_multi_units.
  destruct s; [contradiction|]. cbn. lia.
Qed.

Lemma multi_units_last (strs : list (list Z)) :
  Forall proper_string strs -> strs <> [] ->
  nth (List.length (multi_units strs) - 1) (multi_units strs) 0 = 0.
Proof.
  intros H. induction H as [|s rest [Hne Hnz] Hrest IH]; intros Hx; [congruence|].
  rewrite length_multi_units. cbn [multi_units]. rewrite app_nth2 by lia.
  replace (List.length s + S (List.length (multi_units rest)) - 1
           - List.length s)%nat
    with (List.length (multi_units rest)) by lia.
  destruct rest as [|s' rest']; [reflexivity|].
  assert (H2 := multi_units_proper (s' :: rest') Hrest ltac:(discriminate)).
  specialize (IH ltac:(discriminate)).
  remember (multi_units (s' :: rest')) as mu eqn:Emu.
  destruct mu as [|c mu]; [cbn in H2; lia|].
  cbn [List.length] in IH |- *.
  replace (S (List.length mu) - 1)%nat with (List.length mu) in IH by lia.
  exact IH.
Qed.

Lemma multi_units_before_last (strs : list (list Z)) :
  Forall proper_string strs -> strs <> [] ->
  nth (List.length (multi_units strs) - 2) (multi_units strs) 0 <> 0.
Proof.
  intros H. induction H as [|s rest [Hne Hnz] Hrest IH]; intros Hx; [congruence|].
  rewrite length_multi_units. cbn [multi_units].
  assert (Hs : (1 <= List.length s)%nat) by (destruct s; [contradiction|cbn; lia]).
  destruct rest as [|s' rest'].
  - cbn [multi_units List.length]. rewrite app_nth1 by lia.
    apply Hnz, nth_In. lia.
  - assert (H2 := multi_units_proper (s' :: rest') Hrest ltac:(discriminate)).
    specialize (IH ltac:(discriminate)).
    remember (multi_units (s' :: rest')) as mu eqn:Emu.
    rewrite app_nth2 by lia.
    replace (List.length s + S (List.length mu) - 2 - List.length s)%nat
      with (S (List.length mu - 2)) by lia.
    exact IH.
Qed.

(** The loop over the units of the strings, without the NUL of the last. *)
Lemma text_units_multi (all_str : bool) (d : data_ptr) (strs : list (list Z)) :
  Forall proper_string strs -> strs <> [] ->
  forall i size,
    (forall t, (t < List.length (multi_units strs))%nat ->
               data_us d (i + Z.of_nat t) = nth t (multi_units strs) 0) ->
    size = i + Z.of_nat (List.length (multi_units strs)) - 1 ->
    text_units (List.length (multi_units strs) - 1) i all_str REG_MULTI_SZ 0 size d =
    multi_text strs.
Proof.
  induction strs as [|s rest IH]; intros Hp Hne i size Hd Hs; [contradiction|].
  apply Forall_cons_iff in Hp as [[Hsne Hsnz] Hrest].
  rewrite length_multi_units in Hd, Hs |- *.
  assert (Hfirst : forall t, (t < List.length s)%nat ->
                             data_us d (i + Z.of_nat t) = nth t s 0).
  { intros t Ht. rewrite Hd by lia. cbn [multi_units]. now rewrite app_nth1. }
  assert (Hnz : forall j, i <= j < i + Z.of_nat (List.length s) -> data_us d j <> 0).
  { intros j Hj. replace j with (i + Z.of_nat (Z.to_nat (j - i))) by lia.
    rewrite Hfirst by lia. apply Hsnz, nth_In. lia. }
  replace (List.length s + S (List.length (multi_units rest)) - 1)%nat
    with (List.length s + List.length (multi_units rest))%nat by lia.
  rewrite text_units_app by exact Hnz.
  rewrite (units_text_list d s i Hfirst).
  destruct rest as [|s' rest'].
  - cbn [multi_units List.length text_units multi_text]. apply append_nil_r.
  - assert (Hlen := multi_units_proper (s' :: rest') Hrest ltac:(discriminate)).
    assert (Hafter : forall t, (t < List.length (multi_units (s' :: rest')))%nat ->
                data_us d (i + Z.of_nat (List.length s) + 1 + Z.of_nat t) =
                nth t (multi_units (s' :: rest')) 0).
    { intros t Ht.
      replace (i + Z.of_nat (List.length s) + 1 + Z.of_nat t)
        with (i + Z.of_nat (List.length s + S t)) by lia.
      rewrite Hd by lia. cbn [multi_units].
      rewrite app_nth2 by lia.
      replace (List.length s + S t - List.length s)%nat with (S t) by lia.
      reflexivity. }
    assert (H0 : data_us d (i + Z.of_nat (List.length s)) = 0).
    { replace (i + Z.of_nat (List.length s))
        with (i + Z.of_nat (List.length s + 0)) by lia.
      rewrite Hd by lia. cbn [multi_units]. rewrite app_nth2 by lia.
      replace (List.length s + 0 - List.length s)%nat with 0%nat by lia.
      reflexivity. }
    assert (H1 : data_us d (i + Z.of_nat (List.length s) + 1) <> 0).
    { pose proof (Hafter 0%nat ltac:(lia)) as E0.
      cbn [Z.of_nat] in E0. rewrite Z.add_0_r in E0. rewrite E0.
      apply Forall_cons_iff in Hrest as [[Hs'ne Hs'nz] _].
      destruct s' as [|c s']; [contradiction|]. cbn. apply Hs'nz. now left. }
    remember (multi_units (s' :: rest')) as mu eqn:Emu.
    destruct (List.length mu) as [|n] eqn:En; [lia|].
    cbn [text_units]. rewrite H0.
    change (printable 0) with false. cbv iota.
    change (0 =? 0) with true. change (REG_MULTI_SZ =? REG_MULTI_SZ) with true.
    cbn [andb].
    destruct (Z.ltb_spec (i + Z.of_nat (List.length s) + 1) size); [|lia].
    destruct (Z.eqb_spec (data_us d (i + Z.of_nat (List.length s) + 1)) 0);
      [contradiction|].
    cbn [negb].
    assert (IH' := IH Hrest ltac:(discriminate)
                     (i + Z.of_nat (List.length s) + 1) size).
    replace (S n - 1)%nat with n in IH' by lia.
    cbn [andb]. rewrite IH'.
    + cbn [multi_text]. reflexivity.
    + exact Hafter.
    + lia.
Qed.

(** X9. The strings of a MULTI_SZ.  A MULTI_SZ value that holds the strings
    [strs], none empty, each followed by its NUL, and then any number of
    further NULs, is printed as the strings separated by ["<>"], with
    nothing after the last one, with and without [-s]. *)
Theorem multi_sz_separated (localtime : Z -> tm) (g : globals) (props : bool)
    (d : data_ptr) (strs : list (list Z)) (k : nat) :
  Forall proper_string strs ->
  (forall t, (t < List.length (multi_units strs) + k)%nat ->
             data_us d (Z.of_nat t) = nth t (multi_units strs) 0) ->
  let size := 2 * Z.of_nat (List.length (multi_units strs) + k) in
  render localtime g props REG_MULTI_SZ size (bintext_of REG_MULTI_SZ size d) d =
  multi_text strs.
Proof.
  intros Hp Hd size.
  assert (Ht4 : REG_MULTI_SZ = REG_SZ \/ REG_MULTI_SZ = REG_EXPAND_SZ
                \/ REG_MULTI_SZ = REG_LINK \/ REG_MULTI_SZ = REG_MULTI_SZ) by tauto.
  unfold render. rewrite (bintext_of_string _ _ _ Ht4), (select_rule_string _ _ _ _ _ Ht4).
  unfold text16. change (0 =? 0) with true. cbv iota.
  assert (Eq : Z.quot size 2 = Z.of_nat (List.length (multi_units strs) + k)).
  { unfold size. rewrite Z.quot_div_nonneg by lia. divlia. }
  rewrite Eq.
  destruct strs as [|s rest].
  - (* No string: every unit is 0. *)
    cbn [multi_units List.length Nat.add] in *.
    rewrite (drop_nuls_spec d _ _ 0); [reflexivity|lia|lia| |now left].
    intros i Hi. replace i with (Z.of_nat (Z.to_nat i)) by lia.
    rewrite Hd by lia. now destruct (Z.to_nat i).
  - assert (Hlen := multi_units_proper (s :: rest) Hp ltac:(discriminate)).
    set (mu := multi_units (s :: rest)) in *.
    assert (Hlast : data_us d (Z.of_nat (List.length mu) - 1 - 1) <> 0).
    { replace (Z.of_nat (List.length mu) - 1 - 1)
        with (Z.of_nat (List.length mu - 2)) by lia.
      rewrite Hd by lia.
      apply (multi_units_before_last (s :: rest) Hp). discriminate. }
    rewrite (drop_nuls_spec d _ _ (Z.of_nat (List.length mu) - 1)).
    + replace (Z.to_nat (Z.of_nat (List.length mu) - 1))
        with (List.length mu - 1)%nat by lia.
      apply (text_units_multi _ d (s :: rest) Hp ltac:(discriminate) 0).
      * intros t Ht. cbn [Z.add]. apply Hd. fold mu in Ht. lia.
      * fold mu. lia.
    + lia.
    + lia.
    + intros i Hi. replace i with (Z.of_nat (Z.to_nat i)) by lia.
      rewrite Hd by lia.
      destruct (Nat.eq_dec (Z.to_nat i) (List.length mu - 1)) as [E|E].
      * rewrite E. apply (multi_units_last (s :: rest) Hp). discriminate.
      * apply nth_overflow. lia.
    + right. exact Hlast.
Qed.

Lemma multi_sz_separated_witness :
  render utc no_flags false REG_MULTI_SZ (2 * Z.of_nat (List.length (multi_units strings_AB) + 1))
    (bintext_of REG_MULTI_SZ (2 * Z.of_nat (List.length (multi_units strings_AB) + 1))
       multi_sz_AB) multi_sz_AB =
  multi_text strings_AB.
Proof.
  apply (multi_sz_separated utc no_flags false multi_sz_AB strings_AB 1).
  - repeat constructor; try discriminate;
      intros c [<-|[]]; discriminate.
  - intros t Ht. cbn in Ht.
    do 5 (destruct t as [|t]; [vm_compute; reflexivity|]). lia.
Defined.

(** ** The text heuristic *)

Lemma printable_units_range (d : data_ptr) (n : nat) :
  forall i, 0 <= printable_units d i n <= Z.of_nat n.
Proof.
  induction n as [|n IH]; intros i; cbn [printable_units]; [lia|].
  specialize (IH (i + 1)). destruct (printable (data_us d i)); lia.
Qed.

Lemma printable_chars_range (d : data_ptr) (n : nat) :
  forall i, 0 <= printable_chars d i n <= Z.of_nat n.
Proof.
  induction n as [|n IH]; intros i; cbn [printable_chars]; [lia|].
  specialize (IH (i + 1)). destruct (printable (data_char d i)); lia.
Qed.

Lemma to_int_small (x : Z) : 0 <= x < 2 ^ 31 -> to_int x = x.
Proof.
  intros H. unfold to_int. apply swrap_id; [lia|].
  change (2 ^ (32 - 1)) with (2 ^ 31). lia.
Qed.

(** The counting loops count: below [2 ^ 31] the counter does not wrap. *)
Lemma count_us_counts (d : data_ptr) (n : nat) :
  forall i ascii,
    0 <= ascii -> ascii + Z.of_nat n < 2 ^ 31 ->
    count_us n i d ascii = ascii + printable_units d i n.
Proof.
  induction n as [|n IH]; intros i ascii H0 Hn; cbn [count_us printable_units]; [lia|].
  destruct (printable (data_us d i)).
  - rewrite to_int_small by lia. rewrite IH by lia. lia.
  - rewrite IH by lia. lia.
Qed.

Lemma count_char_counts (d : data_ptr) (n : nat) :
  forall i ascii,
    0 <= ascii -> ascii + Z.of_nat n < 2 ^ 31 ->
    count_char n i d ascii = ascii + printable_chars d i n.
Proof.
  induction n as [|n IH]; intros i ascii H0 Hn; cbn [count_char printable_chars]; [lia|].
  destruct (printable (data_char d i)).
  - rewrite to_int_small by lia. rewrite IH by lia. lia.
  - rewrite IH by lia. lia.
Qed.

Lemma printable_not_zero (c : Z) : printable c = true -> c <> 0.
Proof. intros H ->. discriminate. Qed.

(** X10. The text heuristic.  For binary data (type BINARY or NONE) of 8
    bytes or more, the data are taken for UTF-16 text exactly when bytes 1
    and 3 are 0, the first two units are printable ASCII and at least 3
    out of 4 units are; they are taken for 8-bit text exactly when the
    first two bytes are printable ASCII and at least 7 out of 8 bytes are.
    (Sizes below [2 ^ 28]: beyond, the products of the test overflow.) *)
Theorem text_heuristic (type size : Z) (d : data_ptr) :
  type = REG_BINARY \/ type = REG_NONE ->
  8 <= size < 2 ^ 28 ->
  (bintext_of type size d = 16 <->
   data_char d 1 = 0 /\ data_char d 3 = 0
   /\ printable (data_us d 0) = true /\ printable (data_us d 1) = true
   /\ 3 * size <= 8 * printable_units d 0 (Z.to_nat (Z.quot size 2)))
  /\ (bintext_of type size d = 8 <->
      printable (data_char d 0) = true /\ printable (data_char d 1) = true
      /\ 7 * size <= 8 * printable_chars d 0 (Z.to_nat size))
  /\ (bintext_of type size d = 0 \/ bintext_of type size d = 8
      \/ bintext_of type size d = 16).
Proof.
  intros Ht Hs.
  assert (Hq : Z.quot size 2 = size / 2) by (apply Z.quot_div_nonneg; lia).
  assert (Hq4 : 4 <= size / 2 /\ 2 * (size / 2) <= size) by divlia.
  assert (Eu : printable_units d 0 (Z.to_nat (Z.quot size 2)) =
               (if printable (data_us d 0) then 1 else 0)
               + ((if printable (data_us d 1) then 1 else 0)
                  + printable_units d 2 (Z.to_nat (Z.quot size 2 - 2)))).
  { replace (Z.to_nat (Z.quot size 2))
      with (S (S (Z.to_nat (Z.quot size 2 - 2)))) by lia.
    reflexivity. }
  assert (Ec : printable_chars d 0 (Z.to_nat size) =
               (if printable (data_char d 0) then 1 else 0)
               + ((if printable (data_char d 1) then 1 else 0)
                  + printable_chars d 2 (Z.to_nat (size - 2)))).
  { replace (Z.to_nat size) with (S (S (Z.to_nat (size - 2)))) by lia.
    reflexivity. }
  pose proof (printable_units_range d (Z.to_nat (Z.quot size 2 - 2)) 2) as Ru.
  pose proof (printable_chars_range d (Z.to_nat (size - 2)) 2) as Rc.
  assert (P28 : 2 ^ 28 * 8 = 2 ^ 31) by reflexivity.
  assert (B : bintext_of type size d =
              if (data_char d 1 =? 0) && (data_char d 3 =? 0) then
                if printable (data_us d 0) && printable (data_us d 1) then
                  if (2 + printable_units d 2 (Z.to_nat (Z.quot size 2 - 2))) * 2 * 8
                     >=? size * 6
                  then 16 else 0
                else 0
              else if printable (data_char d 0) && printable (data_char d 1) then
                if (2 + printable_chars d 2 (Z.to_nat (size - 2))) * 8 >=? size * 7
                then 8 else 0
              else 0).
  { unfold bintext_of.
    replace ((type =? REG_BINARY) || (type =? REG_NONE)) with true
      by (destruct Ht as [-> | ->]; reflexivity).
    destruct (Z.geb_spec size 8); [|lia]. cbn [andb].
    destruct (Z.eqb_spec (data_char d 1) 0) as [E1|E1]; cbn [andb].
    - destruct (data_char d 3 =? 0).
      + destruct (printable (data_us d 0) && printable (data_us d 1)).
        * rewrite count_us_counts by lia.
          rewrite (to_int_small (_ * 2)) by lia.
          rewrite !to_int_small by lia. reflexivity.
        * rewrite !to_int_small by lia.
          destruct (Z.geb_spec (0 * 8) (size * 8)); [lia|reflexivity].
      + destruct (printable (data_char d 0) && printable (data_char d 1)) eqn:Ep.
        * apply andb_prop in Ep as [_ Ep]. rewrite E1 in Ep. discriminate.
        * rewrite !to_int_small by lia.
          destruct (Z.geb_spec (0 * 8) (size * 8)); [lia|reflexivity].
    - destruct (printable (data_char d 0) && printable (data_char d 1)).
      + rewrite count_char_counts by lia.
        rewrite !to_int_small by lia. reflexivity.
      + rewrite !to_int_small by lia.
        destruct (Z.geb_spec (0 * 8) (size * 8)); [lia|reflexivity]. }
  rewrite B, Eu, Ec. clear B Eu Ec.
  destruct (Z.eqb_spec (data_char d 1) 0) as [E1|E1];
    destruct (Z.eqb_spec (data_char d 3) 0) as [E3|E3]; cbn [andb];
    destruct (printable (data_us d 0)) eqn:U0;
    destruct (printable (data_us d 1)) eqn:U1;
    destruct (printable (data_char d 0)) eqn:C0;
    destruct (printable (data_char d 1)) eqn:C1; cbn [andb];
    try (rewrite E1 in C1; discriminate C1);
    repeat match goal with
           | |- context [?a >=? ?b] => destruct (Z.geb_spec a b)
           end;
    (split; [|split]);
    try (split;
         [ intros HH;
           first [ discriminate HH
                 | repeat split; first [assumption | reflexivity | lia] ]
         | intros HH;
           first [ reflexivity
                 | exfalso; decompose [and] HH;
                   first [discriminate | contradiction | lia] ] ]);
    auto.
Qed.

Lemma text_heuristic_witness :
  (bintext_of REG_BINARY 8 multi_sz_AB = 16 <->
   data_char multi_sz_AB 1 = 0 /\ data_char multi_sz_AB 3 = 0
   /\ printable (data_us multi_sz_AB 0) = true
   /\ printable (data_us multi_sz_AB 1) = true
   /\ 3 * 8 <= 8 * printable_units multi_sz_AB 0 (Z.to_nat (Z.quot 8 2)))
  /\ (bintext_of REG_BINARY 8 multi_sz_AB = 8 <->
      printable (data_char multi_sz_AB 0) = true
      /\ printable (data_char multi_sz_AB 1) = true
      /\ 7 * 8 <= 8 * printable_chars multi_sz_AB 0 (Z.to_nat 8))
  /\ (bintext_of REG_BINARY 8 multi_sz_AB = 0
      \/ bintext_of REG_BINARY 8 multi_sz_AB = 8
      \/ bintext_of REG_BINARY 8 multi_sz_AB = 16).
Proof.
  apply (text_heuristic REG_BINARY 8 multi_sz_AB).
  - now left.
  - lia.
Defined.

(** ** Columns *)

Lemma length_app_string (a b : string) :
  String.length (a ++ b) = (String.length a + String.length b)%nat.
Proof. induction a as [|c a IH]; cbn; [reflexivity|now rewrite IH]. Qed.

Lemma length_zeros (n : nat) : String.length (zeros n) = n.
Proof. induction n as [|n IH]; cbn; [reflexivity|now rewrite IH]. Qed.

Lemma length_spaces (n : nat) : String.length (spaces n) = n.
Proof. induction n as [|n IH]; cbn; [reflexivity|now rewrite IH]. Qed.

Lemma length_pad0 (width : Z) (s : string) :
  Z.of_nat (String.length (pad0 width s)) = Z.max width (Z.of_nat (String.length s)).
Proof. unfold pad0. rewrite length_app_string, length_zeros. lia. Qed.

(** A number below [base ^ k] has at most [k] digits. *)
Lemma length_digits_max (base : Z) (fuel : nat) :
  2 <= base ->
  forall k n acc,
    (1 <= k <= fuel)%nat -> 0 <= n < base ^ Z.of_nat k ->
    (1 + String.length acc <= String.length (digits fuel base n acc)
     <= k + String.length acc)%nat.
Proof.
  intros Hb. induction fuel as [|fuel IH]; intros k n acc Hk Hn; [lia|].
  cbn [digits]. destruct (Z.ltb_spec n base) as [Hlt|Hge]; [cbn [String.length]; lia|].
  destruct k as [|[|k]]; [lia|cbn in Hn; lia|].
  assert (Hdiv : 0 <= n / base < base ^ Z.of_nat (S k)).
  { split; [apply Z.div_pos; lia|].
    apply Z.div_lt_upper_bound; [lia|].
    replace (Z.of_nat (S (S k))) with (Z.succ (Z.of_nat (S k))) in Hn by lia.
    rewrite Z.pow_succ_r in Hn by lia. lia. }
  specialize (IH (S k) (n / base)
                (String (digit_char (n mod base)) acc) ltac:(lia) Hdiv).
  cbn [String.length] in IH. lia.
Qed.

(** A number from [base ^ (k - 1)] on has at least [k] digits. *)
Lemma length_digits_min (base : Z) (fuel : nat) :
  2 <= base ->
  forall k n acc,
    (1 <= k <= fuel)%nat -> base ^ Z.of_nat (k - 1) <= n ->
    (k + String.length acc <= String.length (digits fuel base n acc))%nat.
Proof.
  intros Hb. induction fuel as [|fuel IH]; intros k n acc Hk Hn; [lia|].
  assert (H0 : 0 < base ^ Z.of_nat (k - 1)) by (apply Z.pow_pos_nonneg; lia).
  cbn [digits]. destruct (Z.ltb_spec n base) as [Hlt|Hge].
  - destruct k as [|[|k]]; [lia|cbn [String.length]; lia|].
    exfalso. replace (S (S k) - 1)%nat with (S k) in Hn by lia.
    replace (Z.of_nat (S k)) with (Z.succ (Z.of_nat k)) in Hn by lia.
    rewrite Z.pow_succ_r in Hn by lia.
    assert (0 < base ^ Z.of_nat k) by (apply Z.pow_pos_nonneg; lia). nia.
  - destruct k as [|[|k]]; [lia| |].
    + pose proof (length_digits_max base fuel Hb) as Hmax.
      destruct fuel as [|fuel']; [cbn [digits String.length]; lia|].
      clear Hmax. cbn [digits].
      destruct (n / base <? base);
        [cbn [String.length]; lia|].
      assert (Hgrow : forall f x a,
                 (String.length a <= String.length (digits f base x a))%nat).
      { clear. induction f as [|f IHf]; intros x a; cbn [digits]; [lia|].
        destruct (x <? base); [cbn [String.length]; lia|].
        specialize (IHf (x / base) (String (digit_char (x mod base)) a)).
        cbn [String.length] in IHf. lia. }
      specialize (Hgrow fuel' (n / base / base)
                    (String (digit_char (n / base mod base))
                       (String (digit_char (n mod base)) acc))).
      cbn [String.length] in Hgrow. lia.
    + replace (S (S k) - 1)%nat with (S k) in Hn by lia.
      assert (Hdiv : base ^ Z.of_nat (S k - 1) <= n / base).
      { replace (S k - 1)%nat with k by lia.
        apply Z.div_le_lower_bound; [lia|].
        replace (Z.of_nat (S k)) with (Z.succ (Z.of_nat k)) in Hn by lia.
        rewrite Z.pow_succ_r in Hn by lia. lia. }
      specialize (IH (S k) (n / base)
                    (String (digit_char (n mod base)) acc) ltac:(lia) Hdiv).
      cbn [String.length] in IH. lia.
Qed.

(** ["%08X"] of a 32-bit argument is eight characters. *)
Lemma length_fmt_X8 (n : Z) :
  0 <= n < 4294967296 -> String.length (fmt_X 8 n) = 8%nat.
Proof.
  intros Hn. unfold fmt_X.
  pose proof (length_pad0 8 (digits 64 16 n "")) as Hp.
  pose proof (length_digits_max 16 64 ltac:(lia) 8 n "" ltac:(lia)
                ltac:(change (16 ^ Z.of_nat 8) with 4294967296; lia)) as Hd.
  cbn [String.length] in Hd. lia.
Qed.

(** ["%0<w>d"] of an argument of at most [w] digits is [w] characters. *)
Lemma length_fmt_d_padded (w : nat) (n : Z) :
  (1 <= w <= 64)%nat -> 0 <= n < 10 ^ Z.of_nat w ->
  String.length (fmt_d (Z.of_nat w) n) = w.
Proof.
  intros Hw Hn. unfold fmt_d. destruct (Z.ltb_spec n 0); [lia|].
  pose proof (length_pad0 (Z.of_nat w) (digits 64 10 n "")) as Hp.
  pose proof (length_digits_max 10 64 ltac:(lia) w n "" ltac:(lia) Hn) as Hd.
  cbn [String.length] in Hd. lia.
Qed.

(** ["%d"] of a year of four digits. *)
Lemma length_fmt_d_year (n : Z) :
  1000 <= n <= 9999 -> String.length (fmt_d 0 n) = 4%nat.
Proof.
  intros Hn. unfold fmt_d. destruct (Z.ltb_spec n 0); [lia|].
  pose proof (length_pad0 0 (digits 64 10 n "")) as Hp.
  pose proof (length_digits_max 10 64 ltac:(lia) 4 n "" ltac:(lia)
                ltac:(change (10 ^ Z.of_nat 4) with 10000; lia)) as Hd.
  pose proof (length_digits_min 10 64 ltac:(lia) 4 n "" ltac:(lia)
                ltac:(change (10 ^ Z.of_nat (4 - 1)) with 1000; lia)) as Hd'.
  cbn [String.length] in Hd, Hd'. lia.
Qed.

(** X11. The columns of [-h].  With [-h] the type and the size come before
    the path, as 20 characters; the line of an empty key has 20 spaces in
    their place, so that after the same time column the paths of value
    lines and of key lines start in the same column. *)
Theorem hex_columns_align (localtime : Z -> tm) (g : globals) (m : memory)
    (b : buffer) (key val : Z) :
  hex_type g = true ->
  exists head,
    String.length head = 20%nat
    /\ String.length (spaces 20) = 20%nat
    /\ value_header localtime g m b key val =
       time_column localtime g m key ++ head ++ full_string b ++ " = "
    /\ key_line localtime g m key b =
       time_column localtime g m key ++ spaces 20 ++ full_string b ++ nl.
Proof.
  intros Hh.
  exists ("[" ++ fmt_X 8 (to_uint (val_value_type m val)) ++ ":" ++
          fmt_X 8 (to_uint (logical_size m val)) ++ "] ").
  split; [|split; [apply length_spaces|split]].
  - pose proof (length_fmt_X8 _ (to_uint_range (val_value_type m val))) as H1.
    pose proof (length_fmt_X8 _ (to_uint_range (logical_size m val))) as H2.
    revert H1 H2.
    generalize (fmt_X 8 (to_uint (val_value_type m val))).
    generalize (fmt_X 8 (to_uint (logical_size m val))).
    intros s2 s1 H1 H2.
    repeat first [rewrite length_app_string | progress cbn [String.length]].
    lia.
  - unfold value_header, time_column. rewrite Hh.
    generalize (fmt_X 8 (to_uint (val_value_type m val))).
    generalize (fmt_X 8 (to_uint (logical_size m val))).
    intros s2 s1.
    repeat first [rewrite append_assoc | progress cbn [append]]. reflexivity.
  - unfold key_line, time_column. rewrite Hh. reflexivity.
Qed.

Lemma hex_columns_align_witness :
  exists head,
    String.length head = 20%nat
    /\ String.length (spaces 20) = 20%nat
    /\ value_header utc flag_h tree_hive path0 (cell 0) (cell 2) =
       time_column utc flag_h tree_hive (cell 0) ++ head ++ full_string path0 ++ " = "
    /\ key_line utc flag_h tree_hive (cell 0) path0 =
       time_column utc flag_h tree_hive (cell 0) ++ spaces 20 ++ full_string path0 ++ nl.
Proof. apply (hex_columns_align utc flag_h tree_hive path0 (cell 0) (cell 2)). reflexivity. Defined.

(** X12. The width of a time.  For a time stamp that is not negative and
    a date [localtime] places in the years 1000 to 9999, [print_time]
    writes 19 characters, 8 more for the fraction of [-T] (a point and
    seven digits) and 3 more for the brackets and the space after them. *)
Theorem print_time_width (localtime : Z -> tm) (t : Z) (full brackets : bool) :
  0 <= t ->
  civil (localtime (to_int64 (Z.quot t 10000000) - 11644473600)) = true ->
  String.length (print_time localtime t full brackets) =
  (19 + (if full then 8 else 0) + (if brackets then 3 else 0))%nat.
Proof.
  intros Ht Hc. unfold print_time.
  set (lt := localtime (to_int64 (Z.quot t 10000000) - 11644473600)) in *.
  unfold civil in Hc.
  repeat (apply andb_prop in Hc as [Hc ?]).
  repeat match goal with
         | H : (_ <=? _) = true |- _ => apply Z.leb_le in H
         end.
  pose proof (length_fmt_d_year (tm_year lt + 1900) ltac:(lia)) as Hy.
  pose proof (length_fmt_d_padded 2 (tm_mon lt + 1) ltac:(lia)
                ltac:(change (10 ^ Z.of_nat 2) with 100; lia)) as Hmo.
  pose proof (length_fmt_d_padded 2 (tm_mday lt) ltac:(lia)
                ltac:(change (10 ^ Z.of_nat 2) with 100; lia)) as Hd.
  pose proof (length_fmt_d_padded 2 (tm_hour lt) ltac:(lia)
                ltac:(change (10 ^ Z.of_nat 2) with 100; lia)) as Hh.
  pose proof (length_fmt_d_padded 2 (tm_min lt) ltac:(lia)
                ltac:(change (10 ^ Z.of_nat 2) with 100; lia)) as Hmi.
  pose proof (length_fmt_d_padded 2 (tm_sec lt) ltac:(lia)
                ltac:(change (10 ^ Z.of_nat 2) with 100; lia)) as Hs.
  assert (Hrem : 0 <= Z.rem t 10000000 < 10000000).
  { rewrite Z.rem_mod_nonneg by lia. apply Z.mod_pos_bound. lia. }
  assert (Hfr : to_int (Z.rem t 10000000) = Z.rem t 10000000).
  { apply to_int_small. change (2 ^ 31) with 2147483648. lia. }
  pose proof (length_fmt_d_padded 7 (Z.rem t 10000000) ltac:(lia)
                ltac:(change (10 ^ Z.of_nat 7) with 10000000; lia)) as Hf.
  rewrite Hfr.
  change (Z.of_nat 2) with 2 in *. change (Z.of_nat 7) with 7 in *.
  revert Hy Hmo Hd Hh Hmi Hs Hf.
  generalize (fmt_d 0 (tm_year lt + 1900)) (fmt_d 2 (tm_mon lt + 1))
    (fmt_d 2 (tm_mday lt)) (fmt_d 2 (tm_hour lt)) (fmt_d 2 (tm_min lt))
    (fmt_d 2 (tm_sec lt)) (fmt_d 7 (Z.rem t 10000000)).
  intros sy smo sd sh smi ss sf Hy Hmo Hd Hh Hmi Hs Hf.
  destruct full, brackets;
    repeat first [rewrite length_app_string | progress cbn [String.length]];
    lia.
Qed.

Lemma print_time_width_witness :
  String.length (print_time utc 126227808000000000 true true) =
  (19 + (if true then 8 else 0) + (if true then 3 else 0))%nat.
Proof.
  apply (print_time_width utc 126227808000000000 true true).
  - lia.
  - vm_compute. reflexivity.
Defined.

(** ** The command line *)

Ltac bool_atom a :=
  lazymatch a with
  | orb _ _ => fail
  | true => fail
  | false => fail
  | _ => idtac
  end.

Ltac bools :=
  repeat match goal with
         | |- context [orb ?a _] => bool_atom a; destruct a
         | |- context [orb _ ?a] => bool_atom a; destruct a
         end;
  reflexivity.

Lemma set_option_known (g : globals) (c : ascii) :
  match set_option g c with
  | Some g' => known c = true /\ g' = flags_after g [c]
  | None => known c = false
  end.
Proof.
  unfold set_option, known, flags_after.
  cbn [list_ascii_of_string existsb].
  destruct g as [h v k s t T bd].
  cbn [hex_type only_values only_keys all_string time_sec time_full big_data].
  destruct (Ascii.eqb_spec c "h") as [->|Nh];
    [split; [reflexivity|f_equal; cbn; bools]|].
  destruct (Ascii.eqb_spec c "s") as [->|Ns];
    [split; [reflexivity|f_equal; cbn; bools]|].
  destruct (Ascii.eqb_spec c "v") as [->|Nv];
    [split; [reflexivity|f_equal; cbn; bools]|].
  destruct (Ascii.eqb_spec c "k") as [->|Nk];
    [split; [reflexivity|f_equal; cbn; bools]|].
  destruct (Ascii.eqb_spec c "t") as [->|Nt];
    [split; [reflexivity|f_equal; cbn; bools]|].
  destruct (Ascii.eqb_spec c "T") as [->|NT];
    [split; [reflexivity|f_equal; cbn; bools]|].
  reflexivity.
Qed.

Lemma flags_after_nil (g : globals) : flags_after g [] = g.
Proof. destruct g. unfold flags_after. cbn. f_equal; bools. Qed.

Lemma flags_after_app (g : globals) (l1 l2 : list ascii) :
  flags_after (flags_after g l1) l2 = flags_after g (l1 ++ l2).
Proof.
  destruct g. unfold flags_after.
  cbn [hex_type only_values only_keys all_string time_sec time_full big_data].
  rewrite !existsb_app. f_equal; bools.
Qed.

(** The characters of an option argument, all known: the flags they set. *)
Lemma option_chars_known (s t : string) :
  forall g,
    forallb known (list_ascii_of_string s) = true ->
    option_chars (s ++ t) g = option_chars t (flags_after g (list_ascii_of_string s)).
Proof.
  induction s as [|c s IH]; intros g H.
  - cbn [append list_ascii_of_string]. now rewrite flags_after_nil.
  - cbn [list_ascii_of_string forallb] in H. apply andb_prop in H as [Hc Hs].
    cbn [append option_chars list_ascii_of_string].
    pose proof (set_option_known g c) as Hk.
    destruct (set_option g c) as [g1|]; [|congruence].
    destruct Hk as [_ ->]. rewrite IH by exact Hs.
    now rewrite flags_after_app.
Qed.

(** What the inner loop returns. *)
Lemma option_chars_spec (s : string) :
  forall g,
    match option_chars s g with
    | inl g' =>
        forallb known (list_ascii_of_string s) = true
        /\ g' = flags_after g (list_ascii_of_string s)
    | inr (_, c) =>
        exists pre post,
          s = pre ++ String c post
          /\ forallb known (list_ascii_of_string pre) = true
          /\ known c = false
    end.
Proof.
  induction s as [|c s IH]; intros g; cbn [option_chars list_ascii_of_string].
  - split; [reflexivity|]. now rewrite flags_after_nil.
  - pose proof (set_option_known g c) as Hk.
    destruct (set_option g c) as [g1|].
    + destruct Hk as [Hc ->]. specialize (IH (flags_after g [c])).
      destruct (option_chars s (flags_after g [c])) as [g2|[g2 c']].
      * destruct IH as [Hs ->]. split.
        -- cbn [forallb]. now rewrite Hc, Hs.
        -- now rewrite flags_after_app.
      * destruct IH as (pre & post & -> & Hpre & Hc').
        exists (String c pre), post. repeat split; [|exact Hc'].
        cbn [list_ascii_of_string forallb]. now rewrite Hc, Hpre.
    + exists "", s. repeat split. exact Hk.
Qed.

(** What the outer loop returns. *)
Lemma parse_options_spec (args : list string) :
  forall g,
    match parse_options args g with
    | inl (g', files) =>
        exists opts,
          args = (opts ++ files)%list
          /\ forallb is_option opts = true
          /\ forallb known (letters opts) = true
          /\ match files with
             | [] => True
             | f :: _ => is_option f = false
             end
          /\ g' = flags_after g (letters opts)
    | inr (_, c) =>
        exists opts pre post rest,
          args = (opts ++ String "-" (pre ++ String c post) :: rest)%list
          /\ forallb is_option opts = true
          /\ forallb known (letters opts) = true
          /\ forallb known (list_ascii_of_string pre) = true
          /\ known c = false
    end.
Proof.
  induction args as [|a rest IH]; intros g; cbn [parse_options].
  - exists []. repeat split. now rewrite flags_after_nil.
  - destruct a as [|c s].
    + exists []. repeat split. now rewrite flags_after_nil.
    + destruct (Ascii.eqb_spec c "-") as [->|Hc].
      * pose proof (option_chars_spec s g) as Hs.
        destruct (option_chars s g) as [g1|[g1 c']].
        -- destruct Hs as [Hk ->].
           specialize (IH (flags_after g (list_ascii_of_string s))).
           destruct (parse_options rest (flags_after g (list_ascii_of_string s)))
             as [[g2 files]|[g2 c']].
           ++ destruct IH as (opts & -> & Ho & Hl & Hf & ->).
              exists (String "-" s :: opts). repeat split; try assumption.
              ** cbn [letters flat_map letters_of]. rewrite forallb_app.
                 fold (letters opts). now rewrite Hk, Hl.
              ** rewrite flags_after_app. reflexivity.
           ++ destruct IH as (opts & pre & post & rest' & -> & Ho & Hl & Hp & Hc').
              exists (String "-" s :: opts), pre, post, rest'.
              repeat split; try assumption.
              cbn [letters flat_map letters_of]. rewrite forallb_app.
              fold (letters opts). now rewrite Hk, Hl.
        -- destruct Hs as (pre & post & -> & Hp & Hc').
           exists [], pre, post, rest. repeat split; assumption.
      * exists []. repeat split; [|now rewrite flags_after_nil].
        cbn [is_option]. now destruct (Ascii.eqb_spec c "-").
Qed.

(** X13. The options.  When the option loop ends normally, the arguments
    are option arguments (each starts with ['-'], all their characters are
    among [hsvktT]) followed by the files, from the first argument that
    does not start with ['-']; each flag is set exactly when its character
    occurs in an option argument, and [time_sec] also when ['k'] does. *)
Theorem options_parsed (args : list string) (g : globals) (files : list string) :
  parse_options args no_flags = inl (g, files) ->
  exists opts,
    args = (opts ++ files)%list
    /\ forallb is_option opts = true
    /\ forallb known (letters opts) = true
    /\ match files with
       | [] => True
       | f :: _ => is_option f = false
       end
    /\ g = mk_globals (has "h" opts) (has "v" opts) (has "k" opts) (has "s" opts)
             (has "t" opts || has "k" opts) (has "T" opts) false.
Proof.
  intros H. pose proof (parse_options_spec args no_flags) as S.
  rewrite H in S. destruct S as (opts & E & Ho & Hl & Hf & ->).
  exists opts. repeat split; assumption.
Qed.

Lemma options_parsed_witness :
  exists opts,
    ["-kh"; "-"; "a.hiv"; "-v"] = (opts ++ ["a.hiv"; "-v"])%list
    /\ forallb is_option opts = true
    /\ forallb known (letters opts) = true
    /\ is_option "a.hiv" = false
    /\ mk_globals true false true false true false false =
       mk_globals (has "h" opts) (has "v" opts) (has "k" opts) (has "s" opts)
         (has "t" opts || has "k" opts) (has "T" opts) false.
Proof.
  apply (options_parsed ["-kh"; "-"; "a.hiv"; "-v"]
           (mk_globals true false true false true false false) ["a.hiv"; "-v"]).
  reflexivity.
Defined.

Lemma parse_options_known (opts : list string) (rest : list string) :
  forall g,
    forallb is_option opts = true ->
    forallb known (letters opts) = true ->
    parse_options (opts ++ rest) g = parse_options rest (flags_after g (letters opts)).
Proof.
  induction opts as [|a opts IH]; intros g Ho Hl.
  - cbn [app letters flat_map]. now rewrite flags_after_nil.
  - cbn [forallb] in Ho. apply andb_prop in Ho as [Ha Ho].
    cbn [letters flat_map] in Hl. rewrite forallb_app in Hl.
    apply andb_prop in Hl as [Hla Hl]. fold (letters opts) in Hl.
    destruct a as [|c s]; [discriminate|]. cbn [is_option] in Ha.
    cbn [app parse_options]. rewrite Ha.
    cbn [letters_of] in Hla.
    pose proof (option_chars_known s "" g Hla) as Hs.
    rewrite append_nil_r in Hs. rewrite Hs. cbn [option_chars].
    rewrite IH by assumption.
    cbn [letters flat_map letters_of]. fold (letters opts).
    now rewrite flags_after_app.
Qed.

(** X14. An unknown option.  Take a command line in which an option
    argument holds a character that is not among [hsvktT], after option
    arguments and characters that are.  Unless its first argument is [-?]
    or [--help], [main] ends with the exit status 1 and the message naming
    that character on standard error; nothing is written to standard
    output and no file is opened, whatever files are named after it.  When
    the first argument is [-?] or [--help], [main] prints the usage and
    ends with the exit status 0, before it looks at any option. *)
Theorem unknown_option_stops (localtime : Z -> tm) (fopen : string -> fopened)
    (fuel : nat) (opts : list string) (pre : string) (c : ascii) (post : string)
    (rest : list string) (path : buffer) :
  let args := (opts ++ String "-" (pre ++ String c post) :: rest)%list in
  forallb is_option opts = true ->
  forallb known (letters opts) = true ->
  forallb known (list_ascii_of_string pre) = true ->
  known c = false ->
  (wants_help args = true <->
   exists a rest', args = a :: rest' /\ (a = "-?" \/ a = "--help"))
  /\ (wants_help args = false ->
      exists g,
        main localtime fopen fuel args path =
        Done (mk_process g (initial_state path)
                (String c ": unknown option." ++ nl) 1))
  /\ (wants_help args = true ->
      main localtime fopen fuel args path =
      Done (mk_process no_flags (print (initial_state path) usage) "" 0)).
Proof.
  intros args Ho Hl Hp Hc. split; [|split].
  - assert (Hfirst : exists a rest', args = a :: rest' /\ is_option a = true).
    { unfold args. destruct opts as [|a opts'].
      - eexists. eexists. split; reflexivity.
      - cbn [forallb] in Ho. apply andb_prop in Ho as [Ha _].
        exists a. eexists. split; [reflexivity|exact Ha]. }
    destruct Hfirst as (a & rest' & E & Ha). rewrite E. cbn [wants_help].
    split.
    + intros H. exists a, rest'. split; [reflexivity|].
      destruct (String.eqb_spec a "/?") as [->|_]; [discriminate|].
      destruct (String.eqb_spec a "-?") as [->|_]; [now left|].
      destruct (String.eqb_spec a "--help") as [->|_]; [now right|].
      discriminate.
    + intros (a' & rest'' & E' & Hh). injection E' as <- <-.
      destruct Hh as [-> | ->]; reflexivity.
  - intros Hh. unfold main. rewrite Hh.
    unfold args. rewrite parse_options_known by assumption.
    cbn [parse_options]. change (Ascii.eqb "-" "-") with true. cbv iota.
    rewrite option_chars_known by exact Hp.
    cbn [option_chars].
    pose proof (set_option_known
                  (flags_after (flags_after no_flags (letters opts))
                     (list_ascii_of_string pre)) c) as Hk.
    destruct (set_option _ c) as [g1|]; [destruct Hk; congruence|].
    eexists. reflexivity.
  - intros Hh. unfold main. rewrite Hh. reflexivity.
Qed.

Lemma unknown_option_stops_witness :
  (exists g,
     main utc two_files 3
       (["-k"] ++ String "-" ("h" ++ String "x" "v") :: ["a.hiv"])%list blank =
     Done (mk_process g (initial_state blank)
             (String "x" ": unknown option." ++ nl) 1))
  /\ main utc two_files 3 ([] ++ String "-" ("" ++ String "?" "") :: ["a.hiv"])%list
       blank =
     Done (mk_process no_flags (print (initial_state blank) usage) "" 0).
Proof.
  split.
  - apply (unknown_option_stops utc two_files 3 ["-k"] "h" "x" "v" ["a.hiv"] blank);
      reflexivity.
  - apply (unknown_option_stops utc two_files 3 [] "" "?" "" ["a.hiv"] blank);
      reflexivity.
Defined.

(** ** The files *)

Lemma store_bytes_below (l : list Z) :
  forall b i j, j < i -> store_bytes b i l j = b j.
Proof.
  induction l as [|c l IH]; intros b i j Hj; cbn [store_bytes]; [reflexivity|].
  rewrite IH by lia. apply store_other. lia.
Qed.

Lemma buf_read_store_bytes (l : list Z) :
  forall b i, buf_read (store_bytes b i l) i (List.length l) = l.
Proof.
  induction l as [|c l IH]; intros b i; cbn [store_bytes List.length buf_read];
    [reflexivity|].
  rewrite store_bytes_below by lia. unfold store at 1. rewrite Z.eqb_refl.
  now rewrite IH.
Qed.

(** The two checks of a signature amount to a test of the bytes of the
    file. *)
Lemma signature_check (b : buffer) (bytes : list Z) (pos : nat) (s : string) :
  snd (fread_path b bytes pos) && memcmp_path (fst (fread_path b bytes pos)) s =
  has_signature bytes pos s.
Proof.
  unfold fread_path, memcmp_path, has_signature. cbn [fst snd].
  destruct (Nat.eqb_spec (List.length (firstn 4 (skipn pos bytes))) 4) as [E|E];
    [|reflexivity].
  cbn [andb].
  pose proof (buf_read_store_bytes (firstn 4 (skipn pos bytes)) b 0) as R.
  rewrite E in R. now rewrite R.
Qed.

Lemma with_big_data_again (g g' : globals) (bd : bool) :
  with_big_data g false = with_big_data g' false ->
  with_big_data g bd = with_big_data g' bd.
Proof.
  destruct g, g'. unfold with_big_data.
  cbn [hex_type only_values only_keys all_string time_sec time_full].
  intros H. injection H as -> -> -> -> -> ->. reflexivity.
Qed.

Lemma with_big_data_twice (g : globals) (bd : bool) :
  with_big_data (with_big_data g bd) false = with_big_data g false.
Proof. reflexivity. Qed.

Section Files.

Variable localtime : Z -> tm.
Variable fopen : string -> fopened.
Variable fuel : nat.

(** What one iteration of the loop over the files does: for a file that
    cannot be loaded, a message and [rc = 1]; for one that can, the walk
    of its hive. *)
Lemma dump_file_cases (name : string) (more show_hive : bool) (p p' : process) :
  dump_file localtime fopen fuel name more show_hive p = Done p' ->
  (loadable fopen name = false
   /\ p_rc p' = 1
   /\ p_globals p' = p_globals p
   /\ stdout (p_state p') = stdout (p_state p)
   /\ properties (p_state p') = properties (p_state p)
   /\ driverpackages (p_state p') = driverpackages (p_state p))
  \/ (loadable fopen name = true
      /\ exists f b st',
           fopen name = Opened f
           /\ walk localtime
                (with_big_data (p_globals p)
                   (main_big_data (mem_of_bytes (contents f))))
                (mem_of_bytes (contents f)) fuel
                (if show_hive
                 then print (set_full (p_state p) b) (name ++ nl ++ nl)
                 else set_full (p_state p) b)
                0 (root_cell_offset (mem_of_bytes (contents f)) + root) = Done st'
           /\ p' = mk_process
                     (with_big_data (p_globals p)
                        (main_big_data (mem_of_bytes (contents f))))
                     (if show_hive && more then print st' nl else st')
                     (p_stderr p) (p_rc p)).
Proof.
  unfold dump_file, loadable. generalize (Z.to_nat 0x1000). intros pos H.
  destruct (fopen name) as [reason|f].
  { left. injection H as <-. repeat split. }
  pose proof (signature_check (full (p_state p)) (contents f) 0 "regf") as S1.
  destruct (fread_path (full (p_state p)) (contents f) 0) as [b1 ok1].
  cbn [fst snd] in S1. rewrite <- S1.
  replace (negb ok1 || negb (memcmp_path b1 "regf"))
    with (negb (ok1 && memcmp_path b1 "regf")) in H by apply negb_andb.
  destruct (ok1 && memcmp_path b1 "regf").
  2:{ left. injection H as <-. repeat split. }
  cbn [negb andb] in H |- *.
  pose proof (signature_check b1 (contents f) pos "hbin") as S2.
  destruct (fread_path b1 (contents f) pos) as [b2 ok2].
  cbn [fst snd] in S2. rewrite <- S2.
  replace (negb ok2 || negb (memcmp_path b2 "hbin"))
    with (negb (ok2 && memcmp_path b2 "hbin")) in H by apply negb_andb.
  destruct (ok2 && memcmp_path b2 "hbin").
  2:{ left. injection H as <-. repeat split. }
  cbn [negb andb] in H |- *.
  destruct (no_memory f); [left; injection H as <-; repeat split|].
  destruct (read_error f); [left; injection H as <-; repeat split|].
  cbn [negb andb]. right. split; [reflexivity|].
  apply bind_done in H as (st' & Hw & H). injection H as <-.
  exists f, b2, st'. repeat split. exact Hw.
Qed.

Lemma dump_files_rc (show_hive : bool) (files : list string) :
  forall p p',
    dump_files localtime fopen fuel files show_hive p = Done p' ->
    p_rc p' = if forallb (loadable fopen) files then p_rc p else 1.
Proof.
  induction files as [|name rest IH]; intros p p' H; cbn [dump_files forallb] in H |- *.
  - now injection H as <-.
  - apply bind_done in H as (p1 & H1 & H2).
    apply IH in H2.
    destruct (dump_file_cases _ _ _ _ _ H1)
      as [(L & Hrc & _) | (L & f & b & st' & _ & _ & ->)]; rewrite L; cbn [andb].
    + rewrite H2, Hrc. now destruct (forallb (loadable fopen) rest).
    + exact H2.
Qed.

(** The output of the loop over the files, from a state whose two flags
    are clear. *)
Lemma dump_files_text (g : globals) (show_hive : bool) (files : list string) :
  forall p p',
    with_big_data (p_globals p) false = with_big_data g false ->
    properties (p_state p) = false -> driverpackages (p_state p) = false ->
    dump_files localtime fopen fuel files show_hive p = Done p' ->
    stdout (p_state p') =
    stdout (p_state p) ++ hives_text localtime fopen fuel g show_hive files.
Proof.
  induction files as [|name rest IH]; intros p p' Hg Hp Hd H;
    cbn [dump_files hives_text] in H |- *.
  - injection H as <-. now rewrite append_nil_r.
  - apply bind_done in H as (p1 & H1 & H2).
    destruct (dump_file_cases _ _ _ _ _ H1)
      as [(L & _ & G1 & O1 & P1 & D1) | (L & f & b & st' & Ef & Hw & ->)].
    + rewrite (IH p1 p') by congruence. rewrite O1.
      rewrite L. now destruct (fopen name).
    + rewrite Ef, L.
      cbn [p_globals p_state] in IH.
      set (m := mem_of_bytes (contents f)) in *.
      set (st0 := if show_hive
                  then print (set_full (p_state p) b) (name ++ nl ++ nl)
                  else set_full (p_state p) b) in *.
      rewrite (with_big_data_again _ _ (main_big_data m) Hg) in Hw, H2.
      assert (F0 : properties st0 = false /\ driverpackages st0 = false).
      { unfold st0. destruct show_hive;
          cbn [properties driverpackages print set_full]; auto. }
      destruct F0 as [P0 D0].
      assert (Ha : alike "" (stdout st0) 0 st0 (initial_state blank)).
      { repeat split; cbn [properties driverpackages stdout initial_state append];
          try assumption.
        - now rewrite append_nil_r.
        - intros j Hj. lia. }
      destruct (walk_same localtime _ m "" (stdout st0) fuel _ _ _ _ _
                  (Z.le_refl 0) Ha Hw) as (ref & Eref & (_ & _ & O & _) & _).
      cbn [append] in O.
      destruct (walk_kept localtime _ m fuel _ _ _ _ Hw) as (Pk & Dk & _).
      assert (P1 : properties
                     (if show_hive && negb (Nat.eqb (List.length rest) 0)
                      then print st' nl else st') = false).
      { destruct (show_hive && _); cbn [properties print]; congruence. }
      assert (D1 : driverpackages
                     (if show_hive && negb (Nat.eqb (List.length rest) 0)
                      then print st' nl else st') = false).
      { destruct (show_hive && _); cbn [driverpackages print]; congruence. }
      apply IH in H2; [|apply with_big_data_twice|exact P1|exact D1].
      cbn [p_state] in H2. rewrite H2.
      unfold hive_text, dump. fold m. rewrite Eref. cbn [final].
      assert (E0 : stdout st0 =
                   stdout (p_state p) ++ (if show_hive then name ++ nl ++ nl else "")).
      { unfold st0. destruct show_hive; cbn [stdout print set_full];
          [reflexivity|now rewrite append_nil_r]. }
      assert (E1 : stdout (if show_hive && negb (Nat.eqb (List.length rest) 0)
                           then print st' nl else st') =
                   stdout st' ++
                   (if show_hive && negb (Nat.eqb (List.length rest) 0)
                    then nl else "")).
      { destruct (show_hive && negb (Nat.eqb (List.length rest) 0));
          cbn [stdout print]; [reflexivity|now rewrite append_nil_r]. }
      rewrite E1, O, E0.
      generalize (hives_text localtime fopen fuel g show_hive rest).
      generalize (stdout ref).
      generalize (if show_hive && negb (Nat.eqb (List.length rest) 0)
                  then nl else "").
      generalize (if show_hive then name ++ nl ++ nl else "").
      intros s1 s2 s3 s4. now rewrite !append_assoc.
Qed.

End Files.

(** X15. The exit status.  When [main] returns after the options were
    read, its exit status is 0 if every file named on the command line
    could be loaded (it opens, has the signatures [regf] and, at [0x1000],
    [hbin], and memory and the read do not fail) and 1 otherwise. *)
Theorem exit_status (localtime : Z -> tm) (fopen : string -> fopened) (fuel : nat)
    (args : list string) (path : buffer) (g : globals) (files : list string)
    (p : process) :
  wants_help args = false ->
  parse_options args no_flags = inl (g, files) ->
  main localtime fopen fuel args path = Done p ->
  p_rc p = if forallb (loadable fopen) files then 0 else 1.
Proof.
  intros Hh Hp H. unfold main in H. rewrite Hh, Hp in H.
  apply dump_files_rc in H. exact H.
Qed.

Abbreviation mixed_run :=
  (main utc two_files 3 ["-kh"; "a.hiv"; "junk"; "nothere"; "a.hiv"] blank).

Lemma exit_status_witness :
  p_rc (ended mixed_run) =
  if forallb (loadable two_files) ["a.hiv"; "junk"; "nothere"; "a.hiv"] then 0 else 1.
Proof.
  apply (exit_status utc two_files 3 ["-kh"; "a.hiv"; "junk"; "nothere"; "a.hiv"]
           blank (mk_globals true false true false true false false)
           ["a.hiv"; "junk"; "nothere"; "a.hiv"] (ended mixed_run)).
  - reflexivity.
  - reflexivity.
  - vm_compute. reflexivity.
Defined.

(** X16. The files are dumped one by one.  When [main] returns after the
    options were read, its output is the outputs of the hives, each as its
    own dump from a fresh state would print it: neither the two flags of
    [walk] nor what the path buffer holds carry over from one file to the
    next.  A file that cannot be loaded adds nothing; with two file
    arguments or more each hive comes after its name and an empty line,
    and an empty line follows each but the last argument. *)
Theorem files_dumped_one_by_one (localtime : Z -> tm) (fopen : string -> fopened)
    (fuel : nat) (args : list string) (path : buffer) (g : globals)
    (files : list string) (p : process) :
  wants_help args = false ->
  parse_options args no_flags = inl (g, files) ->
  main localtime fopen fuel args path = Done p ->
  stdout (p_state p) =
  hives_text localtime fopen fuel g (1 <? List.length files)%nat files.
Proof.
  intros Hh Hp H. unfold main in H. rewrite Hh, Hp in H.
  apply (dump_files_text localtime fopen fuel g) in H; try reflexivity.
  exact H.
Qed.

Lemma files_dumped_one_by_one_witness :
  stdout (p_state (ended mixed_run)) =
  hives_text utc two_files 3 (mk_globals true false true false true false false)
    (1 <? List.length ["a.hiv"; "junk"; "nothere"; "a.hiv"])%nat
    ["a.hiv"; "junk"; "nothere"; "a.hiv"].
Proof.
  apply (files_dumped_one_by_one utc two_files 3
           ["-kh"; "a.hiv"; "junk"; "nothere"; "a.hiv"]
           blank (mk_globals true false true false true false false)
           ["a.hiv"; "junk"; "nothere"; "a.hiv"] (ended mixed_run)).
  - reflexivity.
  - reflexivity.
  - vm_compute. reflexivity.
Defined.

(** ** The walk of a tree returns *)


Section Returns.

Variable localtime : Z -> tm.
Variable g : globals.
Variable m : memory.
Hypothesis small : big_data g = false.





End Returns.



Section Within.

Variable localtime : Z -> tm.
Variable g : globals.
Variable m : memory.




End Within.



(** ** The listing of bytes *)

Lemma fmt_X2_byte (c : Z) :
  0 <= c < 256 ->
  fmt_X 2 c = String (digit_char (c / 16)) (String (digit_char (c mod 16)) "").
Proof.
  intros Hc. unfold fmt_X. rewrite hex_digits_16bit by lia.
  destruct (Z.ltb_spec c 16).
  - replace (c / 16) with 0 by divlia. replace (c mod 16) with c by divlia.
    reflexivity.
  - destruct (Z.ltb_spec c 256); [reflexivity|lia].
Qed.

Lemma digit_char_inj (a b : Z) :
  0 <= a < 16 -> 0 <= b < 16 -> digit_char a = digit_char b -> a = b.
Proof.
  intros Ha Hb E. apply (f_equal code) in E.
  rewrite !digit_char_code in E by assumption.
  assert (V : forall d, 0 <= d < 16 ->
                        hex_digit d = if d <? 10 then 48 + d else 55 + d).
  { intros d Hd. apply Z.eqb_eq.
    apply (check_below
             (fun d => hex_digit d =? (if d <? 10 then 48 + d else 55 + d)) 16);
      [reflexivity|lia]. }
  rewrite !V in E by assumption.
  destruct (Z.ltb_spec a 10), (Z.ltb_spec b 10); lia.
Qed.

Lemma fmt_X2_inj (c c' : Z) :
  0 <= c < 256 -> 0 <= c' < 256 -> fmt_X 2 c = fmt_X 2 c' -> c = c'.
Proof.
  intros Hc Hc' E. rewrite !fmt_X2_byte in E by assumption.
  injection E as E1 E2.
  apply digit_char_inj in E1; [|divlia..].
  apply digit_char_inj in E2; [|divlia..].
  divlia.
Qed.

Lemma data_uchar_range (d : data_ptr) (i : Z) : 0 <= data_uchar d i < 256.
Proof. unfold data_uchar. apply u8_range. Qed.

Lemma hex_bytes_inj (d d' : data_ptr) (n : nat) :
  forall i,
    hex_bytes n i d = hex_bytes n i d' ->
    forall j, i <= j < i + Z.of_nat n -> data_uchar d j = data_uchar d' j.
Proof.
  induction n as [|n IH]; intros i E j Hj; [lia|].
  cbn [hex_bytes] in E.
  rewrite (fmt_X2_byte (data_uchar d i)) in E by apply data_uchar_range.
  rewrite (fmt_X2_byte (data_uchar d' i)) in E by apply data_uchar_range.
  assert (E' : digit_char (data_uchar d i / 16) = digit_char (data_uchar d' i / 16)
               /\ digit_char (data_uchar d i mod 16) =
                  digit_char (data_uchar d' i mod 16)
               /\ hex_bytes n (i + 1) d = hex_bytes n (i + 1) d').
  { destruct (i =? 0); cbn [append] in E; injection E; auto. }
  destruct E' as (E1 & E2 & E3).
  pose proof (data_uchar_range d i). pose proof (data_uchar_range d' i).
  apply digit_char_inj in E1; [|divlia..].
  apply digit_char_inj in E2; [|divlia..].
  destruct (Z.eq_dec j i) as [->|Hne]; [divlia|].
  apply (IH (i + 1) E3). lia.
Qed.

(** X18. The listing of bytes loses nothing.  Two values of the same size
    that are both printed as a list of bytes (neither a number, a time nor
    text) and give the same text hold the same bytes. *)
Theorem byte_listing_faithful (localtime : Z -> tm) (g : globals)
    (props props' : bool) (type type' size bintext bintext' : Z) (d d' : data_ptr) :
  select_rule props type size bintext d = HexBytes ->
  select_rule props' type' size bintext' d' = HexBytes ->
  render localtime g props type size bintext d =
  render localtime g props' type' size bintext' d' ->
  forall j, 0 <= j < size -> data_uchar d j = data_uchar d' j.
Proof.
  intros H1 H2 E j Hj. unfold render in E. rewrite H1, H2 in E.
  apply (hex_bytes_inj d d' (Z.to_nat size) 0 E). lia.
Qed.

Lemma byte_listing_faithful_witness :
  select_rule false REG_BINARY 6 0 multi_sz_AB = HexBytes
  /\ forall j, 0 <= j < 6 -> data_uchar multi_sz_AB j = data_uchar shifted_AB j.
Proof.
  split; [reflexivity|].
  apply (byte_listing_faithful utc no_flags false true REG_BINARY 8 6 0 0
           multi_sz_AB shifted_AB).
  - reflexivity.
  - reflexivity.
  - vm_compute. reflexivity.
Defined.
